(** * Scythes: sweep harvesting, drops and tool wear

    A shallow embedding of the scripts of the Scythes add-on
    (BlockUtils, InventoryLibrary, ItemUtils, vectorUtils, main, the item
    behaviours and the block behaviour) together with the properties its
    specification states about them, and further properties read from
    the scripts.

    Conventions of the embedding.
    - A script number that is always an integer in the host (block
      coordinates, stack amounts, enchantment levels, durability) is a [Z].
    - A script number that is a fraction (player position, view direction,
      a value drawn from [Math.random]) is a [Q]: every double is a
      rational.  Trigonometry and square roots are taken in [R].
    - Where rounding of doubles itself is the subject (the vector round
      trip, the rounding to tenths of [getRandomFloat]), numbers are the
      kernel's binary64 floats, which are the doubles of the script
      engine.
    - The host world is an explicit state; script functions that read or
      change it live in the monad [M], whose outcome is either a normal
      return or a thrown exception, both carrying the world reached. *)

From Stdlib Require Import ZArith QArith Qround Reals Lia Lra Floats Ascii String.
From stdpp Require Import gmap strings list.
From Stdlib Require Import Psatz.
From stdpp Require Import sorting.

Local Open Scope Z_scope.

(** ** Script numbers *)

(** The arithmetic a carrier of script numbers offers: [+], [-] and [===]. *)
Class Arith (A : Type) := {
  num_add : A -> A -> A;
  num_sub : A -> A -> A;
  num_eqb : A -> A -> bool
}.

#[export] Instance Arith_Z : Arith Z :=
  {| num_add := Z.add; num_sub := Z.sub; num_eqb := Z.eqb |}.

#[export] Instance Arith_Q : Arith Q :=
  {| num_add := Qplus; num_sub := Qminus; num_eqb := Qeq_bool |}.

(** Binary64 with round-to-nearest-even, as the script engine computes. *)
#[export] Instance Arith_double : Arith float :=
  {| num_add := PrimFloat.add; num_sub := PrimFloat.sub; num_eqb := PrimFloat.eqb |}.

(** ** classes/Vector3 and vectorUtils *)

Record Vector3 (A : Type) := mkVector3 { vx : A; vy : A; vz : A }.
Arguments mkVector3 {A} _ _ _.
Arguments vx {A} _.
Arguments vy {A} _.
Arguments vz {A} _.

Section VectorUtils.
Context {A : Type} `{Arith A}.

(** [areVectorsEqual]: strict equality of the three components. *)
Definition areVectorsEqual (vector1 vector2 : Vector3 A) : bool :=
  num_eqb (vx vector1) (vx vector2)
  && num_eqb (vy vector1) (vy vector2)
  && num_eqb (vz vector1) (vz vector2).

(** [addVectors]: a new vector, the component-wise sum. *)
Definition addVectors (vector1 vector2 : Vector3 A) : Vector3 A :=
  mkVector3 (num_add (vx vector1) (vx vector2))
            (num_add (vy vector1) (vy vector2))
            (num_add (vz vector1) (vz vector2)).

(** [subtractVectors]: a new vector, the component-wise difference. *)
Definition subtractVectors (vector1 vector2 : Vector3 A) : Vector3 A :=
  mkVector3 (num_sub (vx vector1) (vx vector2))
            (num_sub (vy vector1) (vy vector2))
            (num_sub (vz vector1) (vz vector2)).
End VectorUtils.

(** [floorVector] takes a fractional position to the cell that holds it. *)
Definition floorVector (vector : Vector3 Q) : Vector3 Z :=
  mkVector3 (Qfloor (vx vector)) (Qfloor (vy vector)) (Qfloor (vz vector)).

(** A block position read as a fractional position. *)
Definition injectVector (v : Vector3 Z) : Vector3 Q :=
  mkVector3 (inject_Z (vx v)) (inject_Z (vy v)) (inject_Z (vz v)).

#[export] Instance Vector3_eq_dec `{EqDecision A} : EqDecision (Vector3 A).
Proof. solve_decision. Defined.

(** Cells of the block grid are keyed by their coordinate triple. *)
Definition cellKey (v : Vector3 Z) : Z * Z * Z := (vx v, vy v, vz v).

(** ** Host data *)

(** An item stack: type, count, stack limit, tags, and the two components
    the scripts read (enchantable, durability).  [None] is an absent
    component. *)
Record Durability := mkDurability { damage : Z; maxDurability : Z }.

Record ItemStack := mkItemStack {
  item_typeId : string;
  amount : Z;
  maxAmount : Z;
  item_tags : list string;
  enchantments : option (list (string * Z));
  durability : option Durability
}.

(** A container is its slots, in index order; [None] is an empty slot. *)
Abbreviation Container := (list (option ItemStack)).

(** The value of a block state: a number or a boolean.  [growth], the one
    state the scripts read, is an integer state of the host's block
    schema; string-valued states, which no script reads, are left out. *)
Inductive StateValue :=
| SNumber (n : Z)
| SBoolean (b : bool).

Record BlockData := mkBlockData {
  typeId : string;
  states : list (string * StateValue)
}.

(** A [Block] is a handle on a cell: its fields are read from the world
    at the time of the read. *)
Definition Block := Vector3 Z.

(** What the host was asked to do, in call order. *)
Inductive HostCall :=
| AddItem (itemId : string) (quantity : Z)
| SpawnItem (itemId : string) (quantity : Z) (at_block : Block)
| SetType (b : Block) (newType : string)
| SetblockAirDestroy (b : Block)
| SetItem (slot : nat) (item : option ItemStack)
| PlaySound (sound : string) (pitch volume : option Q)
| ConsoleWarn (message : string).

Record World := mkWorld {
  blocks : gmap (Z * Z * Z) BlockData;
  inventory : option Container;
  selectedSlotIndex : nat;
  playerLocation : Vector3 Q;
  viewDirection : Vector3 Q;
  reedsRegistered : bool;
  randoms : nat -> Q;
  drawn : nat;
  calls : list HostCall
}.

(** ** The script monad: state and exceptions *)

Inductive Outcome (A : Type) :=
| Returned (a : A) (w : World)
| Thrown (error : string) (w : World).
Arguments Returned {A} _ _.
Arguments Thrown {A} _ _.

Definition M (A : Type) := World -> Outcome A.

Definition ret {A} (a : A) : M A := fun w => Returned a w.

Definition bind {A B} (m : M A) (k : A -> M B) : M B :=
  fun w => match m w with
           | Returned a w' => k a w'
           | Thrown e w' => Thrown e w'
           end.

Definition throw {A} (error : string) : M A := fun w => Thrown error w.

Definition gets {A} (f : World -> A) : M A := fun w => Returned (f w) w.

Definition modify (f : World -> World) : M unit := fun w => Returned tt (f w).

Declare Scope script_scope.
Delimit Scope script_scope with script.
Notation "x <- c ;; k" := (bind c (fun x => k))
  (at level 100, c at next level, right associativity) : script_scope.
Notation "c ;;; k" := (bind c (fun _ => k))
  (at level 100, right associativity) : script_scope.
Local Open Scope script_scope.

(** The world an outcome ends in, whether it returned or threw. *)
Definition finalWorld {A} (o : Outcome A) : World :=
  match o with Returned _ w => w | Thrown _ w => w end.

(** [array.forEach(f)] for an effectful callback. *)
Fixpoint forEach {A} (f : A -> M unit) (l : list A) : M unit :=
  match l with
  | [] => ret tt
  | a :: rest => f a ;;; forEach f rest
  end.

(** Field updates of the world. *)
Definition withCalls (f : list HostCall -> list HostCall) (w : World) : World :=
  mkWorld (blocks w) (inventory w) (selectedSlotIndex w) (playerLocation w)
          (viewDirection w) (reedsRegistered w) (randoms w) (drawn w) (f (calls w)).

Definition withBlocks (f : gmap (Z * Z * Z) BlockData -> gmap (Z * Z * Z) BlockData)
    (w : World) : World :=
  mkWorld (f (blocks w)) (inventory w) (selectedSlotIndex w) (playerLocation w)
          (viewDirection w) (reedsRegistered w) (randoms w) (drawn w) (calls w).

Definition withInventory (f : option Container -> option Container) (w : World) : World :=
  mkWorld (blocks w) (f (inventory w)) (selectedSlotIndex w) (playerLocation w)
          (viewDirection w) (reedsRegistered w) (randoms w) (drawn w) (calls w).

Definition withDrawn (f : nat -> nat) (w : World) : World :=
  mkWorld (blocks w) (inventory w) (selectedSlotIndex w) (playerLocation w)
          (viewDirection w) (reedsRegistered w) (randoms w) (f (drawn w)) (calls w).

(** Record a host call. *)
Definition emit (c : HostCall) : M unit := modify (withCalls (fun cs => cs ++ [c])).

(** [Math.random()]: the next value of the ambient source. *)
Definition Math_random : M Q :=
  fun w => Returned (randoms w (drawn w)) (withDrawn S w).

(** The ambient source yields values in [0, 1). *)
Definition randomsInRange (w : World) : Prop :=
  forall n, (0 <= randoms w n)%Q /\ (randoms w n < 1)%Q.

(** ** Script built-ins on strings and numbers *)

(** [s.split(":")[1]]: the text between the first and the second colon;
    [None] (undefined) when [s] has no colon. *)
Fixpoint untilColon (s : string) : string :=
  match s with
  | EmptyString => EmptyString
  | String c rest => if Ascii.eqb c ":"%char then EmptyString else String c (untilColon rest)
  end.

Fixpoint afterColon (s : string) : option string :=
  match s with
  | EmptyString => None
  | String c rest => if Ascii.eqb c ":"%char then Some rest else afterColon rest
  end.

Definition splitColon1 (s : string) : option string :=
  match afterColon s with
  | Some rest => Some (untilColon rest)
  | None => None
  end.

(** A template literal prints an undefined value as the text "undefined". *)
Definition templateText (o : option string) : string :=
  match o with Some s => s | None => "undefined" end.

(** [haystack.includes(needle)] on strings. *)
Fixpoint stringIncludes (needle haystack : string) : bool :=
  String.prefix needle haystack
  || match haystack with
     | EmptyString => false
     | String _ rest => stringIncludes needle rest
     end.

(** [array.includes(x)] on an array of strings. *)
Definition arrayIncludes (l : list string) (x : string) : bool :=
  existsb (String.eqb x) l.

(** [Math.round]: the nearest integer, halves upward. *)
Definition Math_round (q : Q) : Z := Qfloor (q + (1 # 2)).

(** A script number handed to the host where it takes an integer. *)
Definition toInteger (q : Q) : Z := Qfloor q.

(** ** Fractions and doubles

    Where a script rounds a number to tenths, the rounding of the
    doubles decides the digit; there the arithmetic is done on the
    kernel's binary64 floats.  A draw, a fraction, is read as a double on
    the way in; the pitch of a sound, a double, is read as a fraction
    where the call is recorded. *)

(** A whole number as a specified float with exponent 0. *)
Definition SFofZ (n : Z) : spec_float :=
  match n with
  | Z0 => S754_zero false
  | Zpos p => S754_finite false p 0
  | Zneg p => S754_finite true p 0
  end.

(** The double a fraction is read as: numerator over denominator,
    rounded to the nearest double, ties to even.  A fraction that is a
    double is read as itself. *)
Definition toDouble (q : Q) : float :=
  SF2Prim (SFdiv prec emax (SFofZ (Qnum q)) (S754_finite false (Qden q) 0)).

(** The double of a whole number, rounded likewise when it has more than
    53 binary digits. *)
Definition Z2double (n : Z) : float := SF2Prim (binary_normalize prec emax n 0 false).

(** The fraction a finite double is.  It is applied to the pitch of the
    whoosh, a double between 1 and 1.5; an infinity or a NaN, which is no
    fraction, is read as 0. *)
Definition doubleValue (x : float) : Q :=
  match Prim2SF x with
  | S754_finite s m e => (inject_Z (cond_Zopp s (Z.pos m)) * Qpower 2 e)%Q
  | _ => 0%Q
  end.

(** [Math.round] on a double: the nearest whole number, halves upward.
    A double with a non-negative exponent is whole already; a result of
    zero keeps the sign of the argument; an infinity or a NaN is
    returned as it is. *)
Definition Math_round_double (x : float) : float :=
  match Prim2SF x with
  | S754_finite s m e =>
      if 0 <=? e then x
      else
        let n := Math_round (doubleValue x) in
        if n =? 0 then (if s then (-0)%float else 0%float) else Z2double n
  | _ => x
  end.

(** ** main: random helpers *)

(** [getRandomFloat], on doubles: the comparison, the product, the sum,
    the scaling by 10, the rounding and the division by 10 are those of
    binary64, and the result is the double the script returns. *)
Definition getRandomFloat (min max : float) : M float :=
  if PrimFloat.ltb max min then throw "Min should not be greater than max."
  else
    r <- Math_random ;;
    let randomFloat := (toDouble r * (max - min) + min)%float in
    ret (Math_round_double (randomFloat * 10) / 10)%float.

Definition getRandomInt (min max : Q) : M Q :=
  if Qlt_le_dec max min then throw "min should be less than or equal to max"
  else
    r <- Math_random ;;
    ret (inject_Z (Qfloor (r * (max - min + 1))) + min)%Q.

(** ** ItemUtils *)

Definition spawnItems (block : Block) (itemId : string) (quantity : Z) : M unit :=
  emit (SpawnItem itemId quantity block).

Definition successProbability : Q := 8 # 15.

(** The loop of [calculateDrops]: one draw per trial, counting the draws
    below the success probability. *)
Fixpoint bonusTrials (trials : nat) (additionalDrops : Z) : M Z :=
  match trials with
  | O => ret additionalDrops
  | S remaining =>
      r <- Math_random ;;
      bonusTrials remaining
        (if Qlt_le_dec r successProbability then additionalDrops + 1 else additionalDrops)
  end.

Definition calculateDrops (fortuneLevel : Z) : M Z :=
  let clampedFortune := Z.max 0 (Z.min fortuneLevel 3) in
  r <- Math_random ;;
  let initialDrops := Qfloor (r * inject_Z (clampedFortune + 1)) + 1 in
  let trials := 3 + clampedFortune in
  additionalDrops <- bonusTrials (Z.to_nat trials) 0 ;;
  ret (initialDrops + additionalDrops).

Definition lookupAssoc {V} (key : string) (l : list (string * V)) : option V :=
  match find (fun kv => String.eqb (fst kv) key) l with
  | Some kv => Some (snd kv)
  | None => None
  end.

(** [getFortuneLevel]: reading a component of an undefined item throws. *)
Definition getFortuneLevel (itemStack : option ItemStack) : M Z :=
  match itemStack with
  | None => throw "TypeError: cannot read properties of undefined (reading 'getComponent')"
  | Some item =>
      match enchantments item with
      | None => ret 0
      | Some enchantComponent =>
          match lookupAssoc "fortune" enchantComponent with
          | None => ret 0
          | Some level => ret level
          end
      end
  end.

Definition getDropCount (itemStack : option ItemStack) : M Z :=
  fortuneLevel <- match itemStack with
                  | Some _ => getFortuneLevel itemStack
                  | None => ret 0
                  end ;;
  calculateDrops fortuneLevel.

Definition isItemSeed (itemId : string) : bool :=
  arrayIncludes
    ["minecraft:wheat_seeds"; "minecraft:beetroot_seeds"; "minecraft:carrot"; "minecraft:potato"]
    itemId.

Definition getItemPropertyTag (itemStack : ItemStack) (propertyName : string) : option string :=
  match find (String.prefix propertyName) (item_tags itemStack) with
  | None => None
  | Some tag => splitColon1 tag
  end.

(** ** More script built-ins on strings *)

(** The text after its first [n] characters. *)
Fixpoint skipChars (n : nat) (s : string) : string :=
  match n, s with
  | S n', String _ rest => skipChars n' rest
  | _, _ => s
  end.

(** [s.split(separator)[1]] for a separator that is not empty: the text
    between the first and the second occurrence of the separator, up to
    the end when there is no second one; [None] (undefined) when [s] does
    not hold the separator. *)
Fixpoint afterSeparator (separator s : string) : option string :=
  if String.prefix separator s then Some (skipChars (String.length separator) s)
  else
    match s with
    | EmptyString => None
    | String _ rest => afterSeparator separator rest
    end.

Fixpoint untilSeparator (separator s : string) : string :=
  if String.prefix separator s then EmptyString
  else
    match s with
    | EmptyString => EmptyString
    | String c rest => String c (untilSeparator separator rest)
    end.

Definition splitSeparator1 (separator s : string) : option string :=
  match afterSeparator separator s with
  | Some rest => Some (untilSeparator separator rest)
  | None => None
  end.

(** ** InventoryLibrary: arrays of strings *)

(** [array.slice().sort()]: a sorted copy.  Without a comparator the
    order is that of the code units of the strings; the strings of this
    development are byte strings, compared byte by byte. *)
Fixpoint insertSorted (value : string) (sorted : list string) : list string :=
  match sorted with
  | [] => [value]
  | first :: rest =>
      if String.leb value first then value :: first :: rest
      else first :: insertSorted value rest
  end.

Definition sortStrings (arr : list string) : list string :=
  foldr insertSorted [] arr.

(** [array.every((value, index) => test(value, index))] *)
Fixpoint everyIndexed {A} (test : A -> nat -> bool) (index : nat) (arr : list A) : bool :=
  match arr with
  | [] => true
  | value :: rest => test value index && everyIndexed test (S index) rest
  end.

(** [value === other[index]]; an index past the end reads undefined. *)
Definition sameAt (other : list string) (value : string) (index : nat) : bool :=
  match other !! index with
  | Some found => String.eqb value found
  | None => false
  end.

Definition compareStringArrays (arr1 arr2 : list string) : bool :=
  if negb (length arr1 =? length arr2)%nat then false
  else
    let sortedArr1 := sortStrings arr1 in
    let sortedArr2 := sortStrings arr2 in
    everyIndexed (sameAt sortedArr2) 0 sortedArr1.

(** ** Entities *)

(** An entity as the sweep for entities sees it.  The host hands out one
    object per entity, so that two entries of a script-side [Set] are the
    same entry exactly when they are the same entity. *)
Record Entity := mkEntity {
  entity_id : string;
  entity_typeId : string
}.

#[export] Instance Entity_eq_dec : EqDecision Entity.
Proof. solve_decision. Defined.

(** [set.add(value)]; a [Set] keeps its values in the order in which they
    were first added, which is the order [Array.from] reads them in. *)
Definition setAdd (value : Entity) (values : list Entity) : list Entity :=
  if decide (elem_of value values) then values else values ++ [value].

(** ** InventoryLibrary: the options of a comparison *)

(** The [options] object of [compareItemStacks]; a field left out of the
    object is undefined, which every test takes for false. *)
Record CompareOptions := mkCompareOptions {
  matchQuantity : bool;
  matchTags : bool;
  matchDynamicProperties : bool;
  matchLore : bool
}.

(** The default value of the [options] parameter, used when no object is
    passed at all. *)
Definition defaultCompareOptions : CompareOptions :=
  mkCompareOptions false false true false.

(** ** Doubles as integers of units

    Used where the rounding of doubles is the subject. *)

(** The exponent of the smallest subnormal double, 2^-1074: every finite
    double is an integer number of such units. *)
Definition unitExponent : Z := SpecFloat.emin prec emax.

(** The value of a specified float in units of 2^[unitExponent]. *)
Definition SFunits (x : spec_float) : option Z :=
  match x with
  | S754_zero _ => Some 0
  | S754_finite s m e => Some (cond_Zopp s (Z.pos m * 2 ^ (e - unitExponent)))
  | _ => None
  end.

(** The value of a double in units of the smallest subnormal; [None] for
    an infinity or a NaN. *)
Definition doubleUnits (x : float) : option Z := SFunits (Prim2SF x).

(** The double sum of [x] and [y] is their exact sum: no rounding, no
    overflow. *)
Definition exactSum (x y : float) : Prop :=
  exists ux uy : Z,
    doubleUnits x = Some ux /\ doubleUnits y = Some uy
    /\ doubleUnits (x + y) = Some (ux + uy).

(** [exactSum], decided by computing the three values. *)
Definition exactSumb (x y : float) : bool :=
  match doubleUnits x, doubleUnits y, doubleUnits (x + y) with
  | Some ux, Some uy, Some usum => usum =? ux + uy
  | _, _, _ => false
  end.

(** The three component sums of [a] and [b] are exact. *)
Definition exactVectorSum (a b : Vector3 float) : Prop :=
  exactSum (vx a) (vx b) /\ exactSum (vy a) (vy b) /\ exactSum (vz a) (vz b).

(** No component is an infinity or a NaN. *)
Definition finiteVector (v : Vector3 float) : bool :=
  is_finite (vx v) && is_finite (vy v) && is_finite (vz v).

(** A block coordinate: a whole number below 2^52 in size, a bound far
    beyond the borders of a world. *)
Definition blockCoordinate (n : Z) : Prop := Z.abs n < 2 ^ 52.

Definition blockPosition (v : Vector3 Z) : Prop :=
  blockCoordinate (vx v) /\ blockCoordinate (vy v) /\ blockCoordinate (vz v).

(** A vector of whole numbers as a script holds it, in doubles. *)
Definition doubleVector (v : Vector3 Z) : Vector3 float :=
  mkVector3 (Z2double (vx v)) (Z2double (vy v)) (Z2double (vz v)).

(** ** A concrete host and world

    The host and the field on which the theorems are put to work at the
    end. *)

(** One host for the interface of the next part: its items all stack to
    64, its [addItem] tops up stacks of the same type and fills empty
    slots in slot order, its ray cast walks down loaded cells past air and
    the excluded types, and its [parseInt] reads a run of decimal digits. *)
Definition plainDestructable : list string :=
  ["minecraft:tallgrass"; "minecraft:fern"; "minecraft:deadbush"].

Definition plainMaxAmount (itemId : string) : Z := 64.

Fixpoint plainPlace (c : Container) (itemId : string) (remaining : Z) : Container :=
  match c with
  | [] => []
  | None :: rest =>
      let placed := Z.min remaining (plainMaxAmount itemId) in
      if 0 <? placed
      then Some (mkItemStack itemId placed (plainMaxAmount itemId) [] None None)
           :: plainPlace rest itemId (remaining - placed)
      else None :: rest
  | Some current :: rest =>
      let room := Z.min remaining (plainMaxAmount itemId - amount current) in
      if String.eqb (item_typeId current) itemId && (0 <? room)
      then Some (mkItemStack (item_typeId current) (amount current + room) (maxAmount current)
                   (item_tags current) (enchantments current) (durability current))
           :: plainPlace rest itemId (remaining - room)
      else Some current :: plainPlace rest itemId remaining
  end.

Definition plainAddItem (c : Container) (stack : ItemStack) : Container :=
  plainPlace c (item_typeId stack) (amount stack).

Fixpoint plainRayDown (budget : nat) (world : gmap (Z * Z * Z) BlockData)
    (x y z : Z) (excludeTypes : list string) : option Block :=
  match budget with
  | O => None
  | S budget' =>
      match world !! (x, y, z) with
      | None => None
      | Some d =>
          if String.eqb (typeId d) "minecraft:air" || arrayIncludes excludeTypes (typeId d)
          then plainRayDown budget' world x (y - 1) z excludeTypes
          else Some (mkVector3 x y z)
      end
  end.

Definition plainRay (world : gmap (Z * Z * Z) BlockData) (origin : Vector3 Q)
    (direction : Vector3 Z) (excludeTypes : list string) : option Block :=
  plainRayDown 400 world (Qfloor (vx origin)) (Qfloor (vy origin)) (Qfloor (vz origin))
               excludeTypes.

Definition digitValue (c : ascii) : option Z :=
  let n := Z.of_nat (nat_of_ascii c) in
  if (48 <=? n) && (n <=? 57) then Some (n - 48) else None.

Fixpoint plainDigits (s : string) (acc : option Z) : option Z :=
  match s with
  | EmptyString => acc
  | String c rest =>
      match digitValue c with
      | Some v => plainDigits rest (Some (10 * match acc with Some a => a | None => 0 end + v))
      | None => acc
      end
  end.

Definition plainParseInt (text : option string) : option Z :=
  match text with
  | Some s => plainDigits s None
  | None => None
  end.

Definition ironScythe : ItemStack :=
  mkItemStack "djc:iron_scythe" 1 1 ["scythe"; "reach:3"] (Some []) (Some (mkDurability 10 250)).

(** A scythe without a reach tag: its sweep has range 0. *)
Definition bareScythe : ItemStack :=
  mkItemStack "djc:iron_scythe" 1 1 ["scythe"] (Some []) (Some (mkDurability 10 250)).

Definition wheatCell : Block := mkVector3 1 64 0.
Definition youngWheatCell : Block := mkVector3 2 64 0.
Definition caneBottom : Block := mkVector3 0 64 0.
Definition floatingCane : Block := mkVector3 5 70 0.

(** A field: ripe wheat, young wheat, a column of three sugarcane blocks
    on dirt under air, tall grass under air one step along +Z, and one
    sugarcane block with nothing loaded below it. *)
Definition fieldBlocks : gmap (Z * Z * Z) BlockData :=
  list_to_map
    [ ((1, 64, 0), mkBlockData "minecraft:wheat" [("growth", SNumber 7)]);
      ((2, 64, 0), mkBlockData "minecraft:wheat" [("growth", SNumber 3)]);
      ((0, 63, 0), mkBlockData "minecraft:dirt" []);
      ((0, 64, 0), mkBlockData "minecraft:reeds" []);
      ((0, 65, 0), mkBlockData "minecraft:reeds" []);
      ((0, 66, 0), mkBlockData "minecraft:reeds" []);
      ((0, 67, 0), mkBlockData "minecraft:air" []);
      ((0, 64, 1), mkBlockData "minecraft:tallgrass" []);
      ((0, 65, 1), mkBlockData "minecraft:air" []);
      ((5, 70, 0), mkBlockData "minecraft:reeds" []) ].

(** Every draw is one half. *)
Definition evenRandoms (n : nat) : Q := 1 # 2.

(** The first draw is 9/10, every later draw is 0. *)
Definition luckyRandoms (n : nat) : Q :=
  match n with O => 9 # 10 | S _ => 0 end.

Definition fieldWorld : World :=
  mkWorld fieldBlocks (Some [Some ironScythe; None; None]) 0
          (mkVector3 (1 # 2) 64 (1 # 2))%Q (mkVector3 0 0 1)%Q true evenRandoms 0 [].

Definition luckyWorld : World :=
  mkWorld fieldBlocks (Some [Some ironScythe; None; None]) 0
          (mkVector3 (1 # 2) 64 (1 # 2))%Q (mkVector3 0 0 1)%Q true luckyRandoms 0 [].

(** The field for a player who holds the scythe without a reach tag. *)
Definition meadowWorld : World :=
  mkWorld fieldBlocks (Some [Some bareScythe; None; None]) 0
          (mkVector3 (1 # 2) 64 (1 # 2))%Q (mkVector3 0 0 1)%Q true evenRandoms 0 [].

(** The same field for an entity without a container. *)
Definition bareWorld : World :=
  mkWorld fieldBlocks None 0
          (mkVector3 (1 # 2) 64 (1 # 2))%Q (mkVector3 0 0 1)%Q true evenRandoms 0 [].

(** The field for a player whose selected slot is empty. *)
Definition emptyHandWorld : World :=
  mkWorld fieldBlocks (Some [Some ironScythe; None; None]) 1
          (mkVector3 (1 # 2) 64 (1 # 2))%Q (mkVector3 0 0 1)%Q true evenRandoms 0 [].

(** The field for a player who stands one cell lower, under the tall
    grass, with the scythe that has no reach tag. *)
Definition grassWorld : World :=
  mkWorld fieldBlocks (Some [Some bareScythe; None; None]) 0
          (mkVector3 (1 # 2) 63 (3 # 2))%Q (mkVector3 0 0 1)%Q true evenRandoms 0 [].

(** The field with a ripe melon stem, a block that has a growth state and
    is no crop of the scripts. *)
Definition stemCell : Block := mkVector3 3 64 0.

Definition gardenWorld : World :=
  mkWorld (<[(3, 64, 0) := mkBlockData "minecraft:melon_stem" [("growth", SNumber 7)]]>
             fieldBlocks)
          (Some [Some ironScythe; None; None]) 0
          (mkVector3 (1 # 2) 64 (1 # 2))%Q (mkVector3 0 0 1)%Q true evenRandoms 0 [].

(** The entities of the field: a cow on the tall grass, and the player
    wherever the host is asked. *)
Definition fieldPlayer : Entity := mkEntity "-4294967295" "minecraft:player".

Definition fieldCow : Entity := mkEntity "-4294967290" "minecraft:cow".

Definition fieldEntities (cell : Vector3 Z) : list Entity :=
  if decide (cell = mkVector3 0 64 1) then [fieldPlayer; fieldCow; fieldCow]
  else [fieldPlayer].

(** ** The host interface

    What the scripts use of the host and of the add-on's data files
    without defining it: the configured list of scythe-destructible block
    types (module ScytheDestructable), the stack limit of an item type,
    the placement rule of [container.addItem], the block ray cast of a
    dimension, and the built-in [parseInt]. *)
Section Host.

Variable scytheDestructable : list string.
Variable itemMaxAmount : string -> Z.
Variable host_addItem : Container -> ItemStack -> Container.
Variable host_getBlockFromRay :
  gmap (Z * Z * Z) BlockData -> Vector3 Q -> Vector3 Z -> list string -> option Block.
Variable parseInt : option string -> option Z.

(** [new ItemStack(itemId, quantity)] *)
Definition newItemStack (itemId : string) (quantity : Z) : ItemStack :=
  mkItemStack itemId quantity (itemMaxAmount itemId) [] None None.

(** *** InventoryLibrary *)

(** The one entity of the model is the player; its inventory component,
    when it has one, holds the container. *)
Definition getEntityContainer : M (option Container) := gets inventory.

(** [container.getSlot(index)]: a slot handle, here the index; the host
    refuses an index outside the container. *)
Definition container_getSlot (container : option Container) (index : nat) : M nat :=
  match container with
  | None => throw "TypeError: cannot read properties of undefined (reading 'getSlot')"
  | Some c => if (index <? length c)%nat then ret index
              else throw "getSlot: index out of bounds"
  end.

Definition slot_getItem (slot : nat) : M (option ItemStack) :=
  gets (fun w => match inventory w with
                 | Some c => match c !! slot with Some held => held | None => None end
                 | None => None
                 end).

Definition slot_setItem (slot : nat) (item : option ItemStack) : M unit :=
  modify (withInventory (fun inv => match inv with
                                    | Some c => Some (<[slot := item]> c)
                                    | None => None
                                    end)) ;;;
  emit (SetItem slot item).

Definition getHeldSlot : M nat :=
  heldSlotIndex <- gets selectedSlotIndex ;;
  playerContainer <- getEntityContainer ;;
  container_getSlot playerContainer heldSlotIndex.

Definition setHeldItem (itemStack : option ItemStack) : M unit :=
  playerHeldSlot <- getHeldSlot ;;
  match itemStack with
  | Some item => slot_setItem playerHeldSlot (Some item)
  | None => slot_setItem playerHeldSlot None
  end.

Definition clearHeldItem : M unit :=
  playerHeldSlot <- getHeldSlot ;;
  slot_setItem playerHeldSlot None.

Definition getHeldItem : M (option ItemStack) :=
  heldSlot <- getHeldSlot ;;
  slot_getItem heldSlot.

(** [getAvailableSpaceForItemStack], over the slots of the container in
    index order (what [getContainerSlots] collects). *)
Definition getAvailableSpaceForItemStack (container : Container) (itemstack : ItemStack)
    (onlyConsiderExistingStacks : bool) : Z :=
  let itemStackMaxCount := maxAmount itemstack in
  fold_left
    (fun totalAvailableSpace currentSlotItem =>
       match currentSlotItem with
       | None =>
           if negb onlyConsiderExistingStacks
           then totalAvailableSpace + itemStackMaxCount
           else totalAvailableSpace
       | Some current =>
           if String.eqb (item_typeId current) (item_typeId itemstack)
           then totalAvailableSpace + (itemStackMaxCount - amount current)
           else totalAvailableSpace
       end)
    container 0.

(** [container.addItem(stack)]: the host places the stack. *)
Definition container_addItem (stack : ItemStack) : M unit :=
  modify (withInventory (fun inv => match inv with
                                    | Some c => Some (host_addItem c stack)
                                    | None => None
                                    end)) ;;;
  emit (AddItem (item_typeId stack) (amount stack)).

Definition giveEntityItems (itemStack : ItemStack) : M Z :=
  container <- getEntityContainer ;;
  match container with
  | None => ret (amount itemStack)
  | Some c =>
      let availableSpace := getAvailableSpaceForItemStack c itemStack false in
      let itemsToAdd := Z.min (amount itemStack) availableSpace in
      (if 0 <? itemsToAdd
       then container_addItem (newItemStack (item_typeId itemStack) itemsToAdd)
       else ret tt) ;;;
      ret (amount itemStack - itemsToAdd)
  end.

(** *** BlockUtils: reading and changing blocks *)

(** [dimension.getBlock(location)]: the handle of the cell when the host
    has it loaded, undefined otherwise. *)
Definition getBlock (blockLocation : Vector3 Z) : M (option Block) :=
  gets (fun w => match blocks w !! cellKey blockLocation with
                 | Some _ => Some blockLocation
                 | None => None
                 end).

(** Reading a field of a block handle. *)
Definition block_data (block : Block) : M BlockData :=
  w <- gets blocks ;;
  match w !! cellKey block with
  | Some d => ret d
  | None => throw "LocationInUnloadedChunkError"
  end.

Definition block_typeId (block : Block) : M string :=
  d <- block_data block ;; ret (typeId d).

(** [block.setType(id)]: the cell takes the default permutation of the
    type; the states of a default permutation are not tracked. *)
Definition block_setType (block : Block) (newType : string) : M unit :=
  modify (withBlocks (fun m => <[cellKey block := mkBlockData newType []]> m)) ;;;
  emit (SetType block newType).

(** [block.above()] *)
Definition block_above (block : Block) : M (option Block) :=
  getBlock (mkVector3 (vx block) (vy block + 1) (vz block)).

(** [block.center()] *)
Definition block_center (block : Block) : Vector3 Q :=
  mkVector3 (inject_Z (vx block) + (1 # 2))%Q
            (inject_Z (vy block) + (1 # 2))%Q
            (inject_Z (vz block) + (1 # 2))%Q.

Definition isBlockScytheDestructable (block : Block) : M bool :=
  id <- block_typeId block ;; ret (arrayIncludes scytheDestructable id).

(** [destroyBlock]: the command [setblock x y z air destroy]. *)
Definition destroyBlock (block : Block) : M unit :=
  modify (withBlocks (fun m => <[cellKey block := mkBlockData "minecraft:air" []]> m)) ;;;
  emit (SetblockAirDestroy block).

Definition isBlockCrop (block : Block) : M bool :=
  let crops := ["minecraft:wheat"; "minecraft:carrots"; "minecraft:potatoes"; "minecraft:beetroot"] in
  id <- block_typeId block ;; ret (arrayIncludes crops id).

Definition getBlockState (block : Block) (stateId : string) : M (option StateValue) :=
  d <- block_data block ;; ret (lookupAssoc stateId (states d)).

(** [value == n] for a state value (or undefined) against a number. *)
Definition looseEqualsNumber (value : option StateValue) (n : Z) : bool :=
  match value with
  | Some (SNumber m) => m =? n
  | Some (SBoolean b) => (if b then 1 else 0) =? n
  | None => false
  end.

Definition isCropRipe (crop : Block) : M bool :=
  growthStage <- getBlockState crop "growth" ;;
  ret (looseEqualsNumber growthStage 7).

Definition isBlockSugarcane (block : Block) : M bool :=
  reedsBlocktype <- gets reedsRegistered ;;
  let sugarcaneId := if reedsBlocktype then "minecraft:reeds" else "minecraft:sugarcane" in
  id <- block_typeId block ;; ret (String.eqb id sugarcaneId).

Definition isBlockBamboo (block : Block) : M bool :=
  id <- block_typeId block ;; ret (String.eqb id "minecraft:bamboo").

(** The [switch (crop.typeId)] of [getCropDropItemId]. *)
Definition dropIdsOfType (id : string) : list string :=
  if String.eqb id "minecraft:carrots" then ["minecraft:carrot"]
  else if String.eqb id "minecraft:potatoes" then ["minecraft:potato"]
  else if String.eqb id "minecraft:wheat" then ["minecraft:wheat"; "minecraft:wheat_seeds"]
  else if String.eqb id "minecraft:beetroot" then ["minecraft:beetroot"; "minecraft:beetroot_seeds"]
  else [].

Definition getCropDropItemId (crop : Block) : M (list string) :=
  id <- block_typeId crop ;; ret (dropIdsOfType id).

(** *** BlockUtils: harvesting *)

(** The callback of [dropItemIds.forEach] in [harvestCrop]. *)
Definition harvestCrop_drop (crop : Block) (scythe : option ItemStack) (itemId : string) : M unit :=
  dropQuantity <- getDropCount scythe ;;
  let dropQuantity := if isItemSeed itemId then dropQuantity - 1 else dropQuantity in
  remainder <- (if 0 <? dropQuantity
                then giveEntityItems (newItemStack itemId dropQuantity)
                else ret 0) ;;
  if 0 <? remainder then spawnItems crop itemId remainder else ret tt.

Definition harvestCrop (crop : Block) : M unit :=
  scythe <- getHeldItem ;;
  id <- block_typeId crop ;;
  let cropName := splitColon1 id in
  ripe <- isCropRipe crop ;;
  if negb ripe then ret tt
  else
    dropItemIds <- getCropDropItemId crop ;;
    forEach (harvestCrop_drop crop scythe) dropItemIds ;;;
    block_setType crop ("djc:fake_" +:+ templateText cropName).

Definition isBlockWithinDistance (block : Block) (distance : Q) : M bool :=
  playerLocation <- gets playerLocation ;;
  let blockLocation := injectVector block in
  let squaredDistance :=
    ((vx blockLocation - vx playerLocation) ^ 2
     + (vy blockLocation - vy playerLocation) ^ 2
     + (vz blockLocation - vz playerLocation) ^ 2)%Q in
  ret (Qle_bool squaredDistance (distance ^ 2)).

Definition harvestSinglePlant (block : Block) (dropId fakeBlockId : string)
    (defaultQuantity : Z) : M unit :=
  held <- getHeldItem ;;
  fortuneLevel <- getFortuneLevel held ;;
  bonus <- getRandomInt 0 (inject_Z fortuneLevel) ;;
  remainder <- giveEntityItems (newItemStack dropId (defaultQuantity + toInteger bonus)) ;;
  (if 0 <? remainder then spawnItems block dropId remainder else ret tt) ;;;
  near <- isBlockWithinDistance block 10 ;;
  if near then block_setType block fakeBlockId
  else block_setType block "minecraft:air".

Definition maxY : Z := 319.

(** The [while (proceed)] loop of [getStackedPlant].  Each round either
    stops or moves one cell up, and no round starts above [maxY]: [budget]
    counts the cells left below that bound. *)
Fixpoint marchUp (budget : nat) (location : Vector3 Z) (id : string)
    (step : Z) (blocks : list Block) : M (list Block) :=
  let currentLocation := addVectors location (mkVector3 0 step 0) in
  if maxY <? vy currentLocation then ret blocks
  else
    match budget with
    | O => throw "marchUp: budget exhausted"
    | S budget' =>
        currentBlock <- getBlock currentLocation ;;
        match currentBlock with
        | None => ret blocks
        | Some found =>
            foundId <- block_typeId found ;;
            if negb (String.eqb foundId id) then ret blocks
            else marchUp budget' location id (step + 1) (blocks ++ [found])
        end
    end.

Definition getStackedPlant (bottomPlant : Block) : M (list Block) :=
  let location := bottomPlant in
  id <- block_typeId bottomPlant ;;
  marchUp (Z.to_nat (maxY - vy location)) location id 1 [].

Definition getSupportBlock (startBlock : Block) : M (option Block) :=
  id <- block_typeId startBlock ;;
  let origin := block_center startBlock in
  let direction := mkVector3 0 (-1) 0 in
  world <- gets blocks ;;
  match host_getBlockFromRay world origin direction [id] with
  | None =>
      emit (ConsoleWarn ("Support block could not be found for: " +:+ id)) ;;;
      ret None
  | Some hit => ret (Some hit)
  end.

(** [harvestSugarcane] and [harvestBamboo] differ in the two identifiers
    they hand to [harvestSinglePlant]. *)
Definition harvestStacked (block : Block) (dropId fakeBlockId : string) : M unit :=
  supportBlock <- getSupportBlock block ;;
  match supportBlock with
  | None => throw "TypeError: cannot read properties of undefined (reading 'above')"
  | Some support =>
      bottom <- block_above support ;;
      match bottom with
      | None => throw "TypeError: cannot read properties of undefined (reading 'dimension')"
      | Some bottomPlant =>
          plantBlocks <- getStackedPlant bottomPlant ;;
          forEach (fun plant => harvestSinglePlant plant dropId fakeBlockId 1) plantBlocks
      end
  end.

Definition harvestSugarcane (block : Block) : M unit :=
  harvestStacked block "minecraft:sugar_cane" "djc:fake_sugar_cane".

Definition harvestBamboo (block : Block) : M unit :=
  harvestStacked block "minecraft:bamboo" "djc:fake_bamboo".

(** *** BlockUtils: the sweep

    The view direction and the player position are rationals; the
    normalisation and the rotation are computed over the reals, where
    [sqrt], [cos] and [sin] live, and rounded to grid offsets. *)

Definition Math_roundR (x : R) : Z := Zfloor (x + / 2).

(** The view direction reduced to the X-Z plane and normalised. *)
Definition horizontalView (view : Vector3 Q) : R * R :=
  let x := Q2R (vx view) in
  let z := Q2R (vz view) in
  let horizontalMagnitude := R_sqrt.sqrt (x ^ 2 + z ^ 2)%R in
  ((x / horizontalMagnitude)%R, (z / horizontalMagnitude)%R).

(** The grid offset sampled at one angle (degrees) and distance. *)
Definition sweepOffset (horizontal : R * R) (angle : Q) (distance : Z) : Z * Z :=
  let angleRadians := (Q2R angle * (PI / 180))%R in
  let sweepX := (fst horizontal * cos angleRadians - snd horizontal * sin angleRadians)%R in
  let sweepZ := (fst horizontal * sin angleRadians + snd horizontal * cos angleRadians)%R in
  (Math_roundR (sweepX * IZR distance), Math_roundR (sweepZ * IZR distance)).

(** [for (angle = -arcWidth / 2; angle <= arcWidth / 2; angle += 1)] *)
Definition sweepAngles (arcWidth : Q) : list Q :=
  map (fun k => (- arcWidth / 2 + inject_Z (Z.of_nat k))%Q)
      (seq 0 (Z.to_nat (Qfloor arcWidth + 1))).

(** [for (distance = 1; distance <= arcRange; distance++)] *)
Definition sweepDistances (arcRange : Z) : list Z :=
  map (fun k => 1 + Z.of_nat k) (seq 0 (Z.to_nat arcRange)).

(** [blocks.some((b) => b.x === l.x && b.y === l.y && b.z === l.z)]:
    reading a coordinate of an undefined entry throws. *)
Fixpoint someAtLocation (blockList : list (option Block)) (location : Vector3 Z) : M bool :=
  match blockList with
  | [] => ret false
  | None :: _ => throw "TypeError: cannot read properties of undefined (reading 'x')"
  | Some b :: rest =>
      if areVectorsEqual b location then ret true else someAtLocation rest location
  end.

(** The body of the two nested loops of [getBlocksInSweep]. *)
Definition sweepSample (centerX centerY centerZ : Z) (horizontal : R * R)
    (distance : Z) (angle : Q) (blockList : list (option Block)) : M (list (option Block)) :=
  let offset := sweepOffset horizontal angle distance in
  let targetX := centerX + fst offset in
  let targetZ := centerZ + snd offset in
  let currentLevelBlockLocation := mkVector3 targetX centerY targetZ in
  currentLevelBlock <- getBlock currentLevelBlockLocation ;;
  let upperLevelBlockLocation := mkVector3 targetX (centerY + 1) targetZ in
  upperLevelBlock <- getBlock upperLevelBlockLocation ;;
  isCurrentDuplicate <- someAtLocation blockList currentLevelBlockLocation ;;
  isUpperDuplicate <- someAtLocation blockList upperLevelBlockLocation ;;
  let blockList := if isCurrentDuplicate then blockList else blockList ++ [currentLevelBlock] in
  let blockList := if isUpperDuplicate then blockList else blockList ++ [upperLevelBlock] in
  ret blockList.

Fixpoint foldM {A S} (f : A -> S -> M S) (l : list A) (s : S) : M S :=
  match l with
  | [] => ret s
  | a :: rest => s' <- f a s ;; foldM f rest s'
  end.

(** [getBlocksInSweep]; the host resolves a fractional location to the
    cell that holds it. *)
Definition getBlocksInSweep (arcWidth : Q) (arcRange : Z) : M (list (option Block)) :=
  playerLocation <- gets playerLocation ;;
  let centerX := Qfloor (vx playerLocation) in
  let centerY := Qfloor (vy playerLocation) in
  let centerZ := Qfloor (vz playerLocation) in
  view <- gets viewDirection ;;
  let horizontal := horizontalView view in
  blockList <- foldM (fun distance =>
                        foldM (sweepSample centerX centerY centerZ horizontal distance)
                              (sweepAngles arcWidth))
                     (sweepDistances arcRange) [] ;;
  above <- getBlock (floorVector (addVectors playerLocation (mkVector3 0 1 0)%Q)) ;;
  ret (blockList ++ [above]).

(** *** BlockUtils: dispatch over the swept blocks *)

(** The body of the [for (let block of blocksToHarvest)] loop of
    [multiHarvestArc]; an undefined entry has no [typeId] to read. *)
Definition multiHarvest_block (block : option Block) (processedBlockCount : Z) : M Z :=
  match block with
  | None => throw "TypeError: cannot read properties of undefined (reading 'typeId')"
  | Some b =>
      crop <- isBlockCrop b ;;
      if crop then
        ripe <- isCropRipe b ;;
        if ripe then harvestCrop b ;;; ret (processedBlockCount + 1)
        else ret processedBlockCount
      else
        sugarcane <- isBlockSugarcane b ;;
        if sugarcane then harvestSugarcane b ;;; ret (processedBlockCount + 1)
        else
          bamboo <- isBlockBamboo b ;;
          if bamboo then harvestBamboo b ;;; ret (processedBlockCount + 1)
          else
            destructable <- isBlockScytheDestructable b ;;
            if destructable then destroyBlock b ;;; ret (processedBlockCount + 1)
            else ret processedBlockCount
  end.

Definition playSound (sound : string) (pitch volume : option Q) : M unit :=
  emit (PlaySound sound pitch volume).

Definition multiHarvestArc (arcWidth : Q) (arcRange : Z) : M Z :=
  blocksToHarvest <- getBlocksInSweep arcWidth arcRange ;;
  pitch <- getRandomFloat 1 1.5 ;;
  playSound "scythe.whoosh" (Some (doubleValue pitch)) None ;;;
  foldM multiHarvest_block blocksToHarvest 0.

(** The loop body of [destroyBlocksArc]. *)
Definition destroyArc_block (block : option Block) (processedBlockCount : Z) : M Z :=
  match block with
  | None => throw "TypeError: cannot read properties of undefined (reading 'typeId')"
  | Some b =>
      id <- block_typeId b ;;
      if arrayIncludes scytheDestructable id
      then destroyBlock b ;;; ret (processedBlockCount + 1)
      else ret processedBlockCount
  end.

Definition destroyBlocksArc (arcWidth : Q) (arcRange : Z) : M Z :=
  blocksToDestroy <- getBlocksInSweep arcWidth arcRange ;;
  pitch <- getRandomFloat 1 1.5 ;;
  playSound "scythe.whoosh" (Some (doubleValue pitch)) None ;;;
  foldM destroyArc_block blocksToDestroy 0.

(** *** Event handlers: tool wear *)

(** The range handed to the sweep.  [parseInt] yields NaN ([None]) for a
    missing or non-numeric tag; [distance <= NaN] is false at once, the
    loop over distances then runs as for a range of 0. *)
Definition sweepRange (reach : option Z) : Z :=
  match reach with Some r => r | None => 0 end.

Definition withDamage (item : ItemStack) (d : Durability) : ItemStack :=
  mkItemStack (item_typeId item) (amount item) (maxAmount item) (item_tags item)
              (enchantments item) (Some d).

(** The end of both handlers: the clone of the tool takes one point of
    damage and goes back to the held slot, unless that point exceeds the
    tool's maximum, in which case the hand is emptied and the breaking
    sound is played. *)
Definition wearTool (tool : ItemStack) : M unit :=
  let modifiedItem := tool in
  match durability modifiedItem with
  | None => throw "TypeError: cannot read properties of undefined (reading 'damage')"
  | Some d =>
      if maxDurability d <? damage d + 1 then
        clearHeldItem ;;;
        playSound "random.break" None None
      else
        setHeldItem (Some (withDamage modifiedItem
                             (mkDurability (damage d + 1) (maxDurability d))))
  end.

(** The sound cues of [onUseOn] after a pass that processed blocks. *)
Definition shingCues (scythe : ItemStack) (harvestAmount : Z) : M unit :=
  if negb (stringIncludes "wooden" (item_typeId scythe))
     && negb (stringIncludes "stone" (item_typeId scythe))
  then
    pitch <- getRandomInt (8 # 10) (14 # 10) ;;
    playSound "scythe.shing" (Some pitch) (Some (4 # 10)) ;;;
    let chanceForTwo := 1 # 5 in
    r <- Math_random ;;
    if (if Qlt_le_dec chanceForTwo r then true else false) && (1 <? harvestAmount)
    then
      pitch2 <- getRandomInt (8 # 10) (14 # 10) ;;
      playSound "scythe.shing" (Some pitch2) (Some (2 # 10))
    else ret tt
  else ret tt.

(** [OnUseOnScytheHarvest.onUseOn]; [scythe] is [event.itemStack]. *)
Definition onUseOn (scythe : ItemStack) : M unit :=
  let reach := parseInt (getItemPropertyTag scythe "reach") in
  harvestAmount <- multiHarvestArc 180 (sweepRange reach) ;;
  if 0 <? harvestAmount then
    shingCues scythe harvestAmount ;;;
    wearTool scythe
  else ret tt.

(** The [entityHitBlock] subscriber of main; [entityTypeId] is the type
    of [eventData.damagingEntity]. *)
Definition onEntityHitBlock (entityTypeId : string) : M unit :=
  if negb (String.eqb entityTypeId "minecraft:player") then ret tt
  else
    held <- getHeldItem ;;
    match held with
    | None => ret tt
    | Some _ =>
        held' <- getHeldItem ;;
        match held' with
        | None => throw "TypeError: cannot read properties of undefined (reading 'getTags')"
        | Some heldItem =>
            if negb (arrayIncludes (item_tags heldItem) "scythe") then ret tt
            else if negb (String.eqb (item_typeId heldItem) "djc:wooden_scythe") then
              let reach := parseInt (getItemPropertyTag heldItem "reach") in
              processedBlockCount <- destroyBlocksArc 180 (sweepRange reach) ;;
              if 0 <? processedBlockCount then wearTool heldItem
              else ret tt
            else ret tt
        end
    end.

(** *** InventoryLibrary: slots, tags and comparison *)

(** The argument named [containerOrEntity]: the entity of the model, or a
    container handed over as such. *)
Inductive ContainerOrEntity :=
| AnEntity
| AContainer (container : Container).

(** [x instanceof Entity ? getEntityContainer(x) : x] *)
Definition resolveContainer (containerOrEntity : ContainerOrEntity) : M (option Container) :=
  match containerOrEntity with
  | AnEntity => getEntityContainer
  | AContainer container => ret (Some container)
  end.

(** A [ContainerSlot]: whose slot it is, and which one. *)
Record ContainerSlot := mkContainerSlot {
  slot_of : ContainerOrEntity;
  slot_at : nat
}.

Definition containerSlot_getItem (slot : ContainerSlot) : M (option ItemStack) :=
  match slot_of slot with
  | AnEntity => slot_getItem (slot_at slot)
  | AContainer container =>
      ret (match container !! slot_at slot with Some held => held | None => None end)
  end.

(** [{ slot, index }] for every index below [container.size]. *)
Definition getContainerSlots (containerOrEntity : ContainerOrEntity)
    : M (list (ContainerSlot * nat)) :=
  container <- resolveContainer containerOrEntity ;;
  match container with
  | None => ret []
  | Some c => ret (map (fun i => (mkContainerSlot containerOrEntity i, i)) (seq 0 (length c)))
  end.

(** [setEntitySlotItem], for the entity of the model; the host refuses
    an index that is not a slot of the container. *)
Definition setEntitySlotItem (slotIndex : Z) (itemStack : option ItemStack) : M unit :=
  entityContainer <- getEntityContainer ;;
  match entityContainer with
  | None => ret tt
  | Some _ =>
      containerSlot <- (if slotIndex <? 0 then throw "getSlot: index out of bounds"
                        else container_getSlot entityContainer (Z.to_nat slotIndex)) ;;
      slot_setItem containerSlot itemStack
  end.

Definition getInventoryItem (containerOrEntity : ContainerOrEntity) (slotIndex : Z)
    : M (option ItemStack) :=
  container <- resolveContainer containerOrEntity ;;
  match container with
  | None => ret None
  | Some c =>
      if (slotIndex <? 0) || (Z.of_nat (length c) <=? slotIndex) then ret None
      else containerSlot_getItem (mkContainerSlot containerOrEntity (Z.to_nat slotIndex))
  end.

(** [tags.some((tag) => itemTags.includes(tag))] *)
Definition someTagIncluded (itemTags tags : list string) : bool :=
  existsb (arrayIncludes itemTags) tags.

(** [tags.every((tag) => itemTags.includes(tag))] *)
Definition everyTagIncluded (itemTags tags : list string) : bool :=
  forallb (arrayIncludes itemTags) tags.

(** The loop of [containerHasAnyItemTag] and [containerHasAllItemTags]:
    empty slots are skipped, the first item that passes ends the loop. *)
Fixpoint someSlotItem (test : ItemStack -> bool) (slots : list (ContainerSlot * nat)) : M bool :=
  match slots with
  | [] => ret false
  | (slot, _) :: rest =>
      item <- containerSlot_getItem slot ;;
      match item with
      | None => someSlotItem test rest
      | Some found => if test found then ret true else someSlotItem test rest
      end
  end.

Definition containerHasAnyItemTag (entityOrContainer : ContainerOrEntity) (tags : list string)
    : M bool :=
  slots <- getContainerSlots entityOrContainer ;;
  someSlotItem (fun item => someTagIncluded (item_tags item) tags) slots.

Definition containerHasAllItemTags (entityOrContainer : ContainerOrEntity) (tags : list string)
    : M bool :=
  slots <- getContainerSlots entityOrContainer ;;
  someSlotItem (fun item => everyTagIncluded (item_tags item) tags) slots.

Definition slotHasAnyTag (slot : ContainerSlot) (tags : list string) : M bool :=
  item <- containerSlot_getItem slot ;;
  match item with
  | None => ret false
  | Some found => ret (someTagIncluded (item_tags found) tags)
  end.

Definition slotHasAllTags (slot : ContainerSlot) (tags : list string) : M bool :=
  item <- containerSlot_getItem slot ;;
  match item with
  | None => ret false
  | Some found => ret (everyTagIncluded (item_tags found) tags)
  end.

Definition itemHasAnyTag (item : option ItemStack) (tags : list string) : bool :=
  match item with
  | None => false
  | Some found => someTagIncluded (item_tags found) tags
  end.

Definition itemHasAllTags (item : option ItemStack) (tags : list string) : bool :=
  match item with
  | None => false
  | Some found => everyTagIncluded (item_tags found) tags
  end.

(** *** Item behaviours: the wooden scythe *)

(** [WoodenScythe.onUseOn]; [block] is [event.block], the player is
    [event.source]. *)
Definition WoodenScythe_onUseOn (block : Block) : M unit :=
  harvestCrop block.

(** *** BlockUtils: the sweep for entities

    The host knows where the entities are and which of them is the
    player. *)
Section EntitySweep.

Variable host_getEntitiesAtBlockLocation : Vector3 Z -> list Entity.
Variable player : Entity.

(** The body of the two nested loops of [getEntitiesInSweep]: the
    entities at the sampled cell, at the level of the feet only, join the
    set unless they are the player. *)
Definition entitySample (centerX centerY centerZ : Z) (horizontal : R * R)
    (distance : Z) (angle : Q) (foundEntities : list Entity) : list Entity :=
  let offset := sweepOffset horizontal angle distance in
  let targetX := centerX + fst offset in
  let targetZ := centerZ + snd offset in
  let currentLevelLocation := mkVector3 targetX centerY targetZ in
  let entitiesAtCurrent := host_getEntitiesAtBlockLocation currentLevelLocation in
  fold_left (fun found entity =>
               if negb (String.eqb (entity_id entity) (entity_id player))
               then setAdd entity found
               else found)
            entitiesAtCurrent foundEntities.

Definition getEntitiesInSweep (arcWidth : Q) (arcRange : Z) : M (list Entity) :=
  playerLocation <- gets playerLocation ;;
  let centerX := Qfloor (vx playerLocation) in
  let centerY := Qfloor (vy playerLocation) in
  let centerZ := Qfloor (vz playerLocation) in
  view <- gets viewDirection ;;
  let horizontal := horizontalView view in
  let foundEntities :=
    fold_left (fun found distance =>
                 fold_left (fun found' angle =>
                              entitySample centerX centerY centerZ horizontal
                                           distance angle found')
                           (sweepAngles arcWidth) found)
              (sweepDistances arcRange) [] in
  ret foundEntities.

End EntitySweep.

(** *** Block behaviours: the fake crop *)

(** [permutation.withState(stateId, value)] on the states the model
    tracks: the state takes the value, the other states stay.  The host
    refuses a state the block type does not have; the scripts set the
    state [growth] on crops, which have it. *)
Fixpoint withState (blockStates : list (string * StateValue)) (stateId : string)
    (value : StateValue) : list (string * StateValue) :=
  match blockStates with
  | [] => [(stateId, value)]
  | (key, current) :: rest =>
      if String.eqb key stateId then (key, value) :: rest
      else (key, current) :: withState rest stateId value
  end.

(** [block.setPermutation(block.permutation.withState(stateId, value))] *)
Definition block_setState (block : Block) (stateId : string) (value : StateValue) : M unit :=
  d <- block_data block ;;
  modify (withBlocks
            (fun m => <[cellKey block
                        := mkBlockData (typeId d) (withState (states d) stateId value)]> m)).

(** [TickBreakCrop.onTick]; [block] is [event.block].  The command it
    runs is the one of [destroyBlock]. *)
Definition TickBreakCrop_onTick (block : Block) : M unit :=
  id <- block_typeId block ;;
  let blockId := splitSeparator1 "fake_" id in
  modify (withBlocks (fun m => <[cellKey block := mkBlockData "minecraft:air" []]> m)) ;;;
  emit (SetblockAirDestroy block) ;;;
  block_setType block ("minecraft:" +:+ templateText blockId) ;;;
  block_setState block "growth" (SNumber 0).

(** *** InventoryLibrary: comparing two item stacks

    [compareItemStacks] reads of a stack its type, amount and tags, and
    two things the stacks of this development do not carry: its lore and
    its dynamic properties.  The two stacks are therefore taken as handles
    of the host, with the host's readers. *)
Section ItemDetails.

Variable ItemHandle : Type.
Variable stackOf : ItemHandle -> ItemStack.
Variable getLore : ItemHandle -> list string.
Variable DynamicValue : Type.
Variable getDynamicPropertyIds : ItemHandle -> list string.
Variable getDynamicProperty : ItemHandle -> string -> option DynamicValue.
Variable strictEquals : option DynamicValue -> option DynamicValue -> bool.

Definition compareItemStacks (itemStackA itemStackB : ItemHandle)
    (options : option CompareOptions) : bool :=
  let options := match options with Some given => given | None => defaultCompareOptions end in
  let testResults :=
    [String.eqb (item_typeId (stackOf itemStackA)) (item_typeId (stackOf itemStackB))] in
  let testResults :=
    if matchQuantity options
    then testResults ++ [amount (stackOf itemStackA) =? amount (stackOf itemStackB)]
    else testResults in
  let testResults :=
    if matchTags options
    then testResults ++ [compareStringArrays (item_tags (stackOf itemStackA))
                                             (item_tags (stackOf itemStackB))]
    else testResults in
  let testResults :=
    if matchLore options
    then testResults ++ [compareStringArrays (getLore itemStackA) (getLore itemStackB)]
    else testResults in
  if matchDynamicProperties options then
    let propertyNamesA := getDynamicPropertyIds itemStackA in
    let propertyNamesB := getDynamicPropertyIds itemStackB in
    if negb (compareStringArrays propertyNamesA propertyNamesB) then false
    else
      let testResults :=
        testResults
        ++ [forallb (fun propertyID =>
                       strictEquals (getDynamicProperty itemStackA propertyID)
                                    (getDynamicProperty itemStackB propertyID))
                    propertyNamesA] in
      forallb (fun result => Bool.eqb result true) testResults
  else forallb (fun result => Bool.eqb result true) testResults.

End ItemDetails.

(** *** Vocabulary of the properties *)

(** The number of draws below the success probability among the [trials]
    draws that start at index [from]. *)
Fixpoint successes (source : nat -> Q) (from trials : nat) : Z :=
  match trials with
  | O => 0
  | S remaining =>
      (if Qlt_le_dec (source from) successProbability then 1 else 0)
      + successes source (S from) remaining
  end.

(** A slot leaves room for [itemstack]: a stack of its type in the slot
    does not exceed the stack limit. *)
Definition slotFits (itemstack : ItemStack) (slot : option ItemStack) : Prop :=
  match slot with
  | Some current =>
      item_typeId current = item_typeId itemstack -> amount current <= maxAmount itemstack
  | None => True
  end.

(** Every slot leaves room, and the stack limit is not negative. *)
Definition containerFits (container : Container) (itemstack : ItemStack) : Prop :=
  0 <= maxAmount itemstack /\ Forall (slotFits itemstack) container.

(** The number of items handed to [container.addItem] in a call list. *)
Fixpoint deposited (cs : list HostCall) : Z :=
  match cs with
  | [] => 0
  | AddItem _ quantity :: rest => quantity + deposited rest
  | _ :: rest => deposited rest
  end.

(** The number of items handed to [dimension.spawnItem] in a call list. *)
Fixpoint spawned (cs : list HostCall) : Z :=
  match cs with
  | [] => 0
  | SpawnItem _ quantity _ :: rest => quantity + spawned rest
  | _ :: rest => spawned rest
  end.

(** The world after [container.addItem(new ItemStack(itemId, quantity))]. *)
Definition afterAddItem (container : Container) (itemId : string) (quantity : Z)
    (w : World) : World :=
  withCalls (fun cs => cs ++ [AddItem itemId quantity])
    (withInventory (fun _ => Some (host_addItem container (newItemStack itemId quantity))) w).

(** The item in the selected slot of the player's container. *)
Definition heldItemOf (w : World) : option ItemStack :=
  match inventory w with
  | Some c => match c !! selectedSlotIndex w with Some held => held | None => None end
  | None => None
  end.

(** The player has a container and the selected slot is one of its slots. *)
Definition holdsValidSlot (w : World) : Prop :=
  exists c, inventory w = Some c /\ (selectedSlotIndex w < length c)%nat.

(** The cell [k] levels above [location]. *)
Definition raised (location : Block) (k : Z) : Block :=
  addVectors location (mkVector3 0 k 0).

(** The cell is loaded and holds a block of type [id]. *)
Definition hasType (w : World) (b : Block) (id : string) : Prop :=
  exists d, blocks w !! cellKey b = Some d /\ typeId d = id.

(** [n] cells of type [id] stacked from [bottom] upward. *)
Definition isColumn (w : World) (bottom : Block) (id : string) (n : nat) : Prop :=
  forall k, (k < n)%nat -> hasType w (raised bottom (Z.of_nat k)) id.

(** The column stops after [n] cells: the next cell is above the build
    height or is not of the plant's type. *)
Definition columnEnds (w : World) (bottom : Block) (id : string) (n : nat) : Prop :=
  maxY < vy bottom + Z.of_nat n \/ ~ hasType w (raised bottom (Z.of_nat n)) id.

(** The fortune level [getFortuneLevel] reads from an item. *)
Definition fortuneOf (item : ItemStack) : Z :=
  match enchantments item with
  | None => 0
  | Some enchantComponent =>
      match lookupAssoc "fortune" enchantComponent with
      | None => 0
      | Some level => level
      end
  end.

(** The fortune level [getDropCount] works with: 0 for an empty hand. *)
Definition dropFortune (scythe : option ItemStack) : Z :=
  match scythe with Some item => fortuneOf item | None => 0 end.

(** Every stack of the container respects the stack limit of its type. *)
Definition wfContainer (c : Container) : Prop :=
  Forall (fun slot => match slot with
                      | Some item => amount item <= itemMaxAmount (item_typeId item)
                      | None => True
                      end) c.


(** One drop of a harvest: the item, the quantity decided for it, and
    the part of it handed to the player's container. *)
Record CropDrop := mkCropDrop {
  dropItem : string;
  dropQuantity : Z;
  dropGiven : Z
}.

(** The host calls of one drop: the deposit when it is positive, then the
    rest, when positive, spawned at the crop. *)
Definition dropCalls (crop : Block) (drop : CropDrop) : list HostCall :=
  (if 0 <? dropGiven drop then [AddItem (dropItem drop) (dropGiven drop)] else [])
  ++ (if 0 <? dropQuantity drop - dropGiven drop
      then [SpawnItem (dropItem drop) (dropQuantity drop - dropGiven drop) crop]
      else []).







(** The sign of a fraction: 1, 0 or -1. *)
Definition signOf (q : Q) : Z := Z.sgn (Qnum q).

(** How the rounded step [d] along one horizontal axis follows a view
    whose component along that axis is [along] and whose other horizontal
    component is [across].  The step never goes against the view.  It is
    a full step the way the view points when the view is within some 54
    degrees of the axis ([across^2 <= 2 along^2]), and no step when the
    view is more than some 63 degrees off it ([4 along^2 <= across^2]);
    the rounding turns at 60 degrees, and the band around it is left
    open. *)
Definition stepFollows (along across : Q) (d : Z) : Prop :=
  ((0 <= along)%Q -> 0 <= d)
  /\ ((along <= 0)%Q -> d <= 0)
  /\ ((across * across <= 2 * (along * along))%Q -> d = signOf along)
  /\ ((4 * (along * along) <= across * across)%Q -> d = 0).

(** What [dimension.getBlock] answers for a cell of the world. *)
Definition loadedBlock (w : World) (cell : Vector3 Z) : option Block :=
  match blocks w !! cellKey cell with
  | Some _ => Some cell
  | None => None
  end.

(** A script that ends, by return or by throw, in the world it started in. *)
Definition readOnly {A} (m : M A) : Prop := forall w, finalWorld (m w) = w.

(** A shing sound cue, whatever its pitch and volume. *)
Definition isShingCue (c : HostCall) : Prop :=
  exists pitch volume, c = PlaySound "scythe.shing" pitch volume.

(** The item [worn] is the item [tool] with one more point of damage
    than the [damage] of [d]: its durability component reads
    [damage d + 1] against the same maximum, and it agrees with [tool] in
    type, count, stack limit, tags and enchantments. *)
Definition wornOnce (tool : ItemStack) (d : Durability) (worn : ItemStack) : Prop :=
  durability worn = Some (mkDurability (damage d + 1) (maxDurability d))
  /\ item_typeId worn = item_typeId tool
  /\ amount worn = amount tool
  /\ maxAmount worn = maxAmount tool
  /\ item_tags worn = item_tags tool
  /\ enchantments worn = enchantments tool.

(** What a pass that processed blocks does to the held tool, between the
    world [before] (the pass is over) and the world [after] (the handler
    is over): some shing cues, then either the hand emptied and the
    breaking sound, with nothing written back, or the held slot given an
    item that is the tool with one more point of damage, the item the
    player then holds. *)
Definition wearOutcome (tool : ItemStack) (d : Durability) (before after : World) : Prop :=
  exists (c : Container) (cues : list HostCall),
    inventory before = Some c
    /\ Forall isShingCue cues
    /\ let slot := selectedSlotIndex before in
       if maxDurability d <? damage d + 1
       then inventory after = Some (<[slot := None]> c)
            /\ heldItemOf after = None
            /\ calls after
               = calls before ++ cues
                 ++ [SetItem slot None; PlaySound "random.break" None None]
       else exists worn : ItemStack,
              wornOnce tool d worn
              /\ inventory after = Some (<[slot := Some worn]> c)
              /\ heldItemOf after = Some worn
              /\ calls after = calls before ++ cues ++ [SetItem slot (Some worn)].

(** The container an argument [containerOrEntity] stands for in a world. *)
Definition containerOf (w : World) (containerOrEntity : ContainerOrEntity) : option Container :=
  match containerOrEntity with
  | AnEntity => inventory w
  | AContainer container => Some container
  end.

(** The item in slot [index] of a container; [None] for an empty slot and
    for an index that is not a slot. *)
Definition itemAt (container : Container) (index : nat) : option ItemStack :=
  match container !! index with Some held => held | None => None end.

(** The slots of a container that hold no item. *)
Definition emptySlots (container : Container) : Z :=
  Z.of_nat (length (filter (fun slot => slot = None) container)).

(** No character of the text is a colon. *)
Fixpoint colonFree (s : string) : bool :=
  match s with
  | EmptyString => true
  | String c rest => negb (Ascii.eqb c ":"%char) && colonFree rest
  end.

(** What [isBlockWithinDistance] answers in a world. *)
Definition withinDistance (w : World) (block : Block) (distance : Q) : bool :=
  let blockLocation := injectVector block in
  Qle_bool
    ((vx blockLocation - vx (playerLocation w)) ^ 2
     + (vy blockLocation - vy (playerLocation w)) ^ 2
     + (vz blockLocation - vz (playerLocation w)) ^ 2)%Q (distance ^ 2)%Q.

(** The type a harvested block of a stacked plant is set to. *)
Definition harvestedType (w : World) (block : Block) (fakeBlockId : string) : string :=
  if withinDistance w block 10 then fakeBlockId else "minecraft:air".

(** A script that leaves every block outside [cells] as it was, whether
    it returns or throws. *)
Definition keepsBlocksOutside {A} (cells : list Block) (m : M A) : Prop :=
  forall (w : World) (cell : Block),
    ~ In cell cells ->
    blocks (finalWorld (m w)) !! cellKey cell = blocks w !! cellKey cell.

(** Between [w] and [w'] blocks were destroyed, and only blocks of a
    scythe-destructible type: every cell holds what it held, or holds air
    where it held such a block. *)
Definition destroyedSince (w w' : World) : Prop :=
  forall key,
    blocks w' !! key = blocks w !! key
    \/ (blocks w' !! key = Some (mkBlockData "minecraft:air" [])
        /\ exists d, blocks w !! key = Some d
                     /\ arrayIncludes scytheDestructable (typeId d) = true).

(** The block types [isBlockCrop] knows. *)
Definition cropTypes : list string :=
  ["minecraft:wheat"; "minecraft:carrots"; "minecraft:potatoes"; "minecraft:beetroot"].

(** The cells of a list of blocks, without its undefined entries. *)
Definition definedCells (blockList : list (option Block)) : list Block :=
  omap (fun block : option Block => block) blockList.

(** A cell the two loops of a sweep can sample: at the level of [center]
    or one above, at most [arcRange] cells away along X and along Z, and
    not in the column of [center]. *)
Definition inSweep (center : Vector3 Z) (arcRange : Z) (cell : Block) : Prop :=
  (vy cell = vy center \/ vy cell = vy center + 1)
  /\ Z.abs (vx cell - vx center) <= arcRange
  /\ Z.abs (vz cell - vz center) <= arcRange
  /\ (vx cell, vz cell) <> (vx center, vz center).

(** An entity the sweep for entities may report: it is not the player,
    and the host finds it at a cell of the sweep at the level of the
    feet. *)
Definition sweptEntity (entitiesAt : Vector3 Z -> list Entity) (player : Entity)
    (center : Vector3 Z) (arcRange : Z) (mob : Entity) : Prop :=
  entity_id mob <> entity_id player
  /\ exists cell,
       In mob (entitiesAt cell)
       /\ vy cell = vy center
       /\ inSweep center arcRange cell.

(** A shing cue whose pitch is one of the two values [getRandomInt] can
    return between 0.8 and 1.4. *)
Definition isShingAtPitch (c : HostCall) : Prop :=
  exists (pitch volume : Q),
    c = PlaySound "scythe.shing" (Some pitch) (Some volume)
    /\ ((pitch == 8 # 10)%Q \/ (pitch == 18 # 10)%Q).

(** * Properties *)

(** ** Running scripts *)

Lemma bind_Returned {A B} (m : M A) (k : A -> M B) (w w' : World) (a : A) :
  m w = Returned a w' -> bind m k w = k a w'.
Proof. unfold bind. intros ->. reflexivity. Qed.

Lemma block_data_loaded (w : World) (block : Block) (d : BlockData) :
  blocks w !! cellKey block = Some d -> block_data block w = Returned d w.
Proof. intros Hd. unfold block_data, bind, gets. rewrite Hd. reflexivity. Qed.

Lemma block_typeId_loaded (w : World) (block : Block) (d : BlockData) :
  blocks w !! cellKey block = Some d -> block_typeId block w = Returned (typeId d) w.
Proof.
  intros Hd. unfold block_typeId.
  rewrite (bind_Returned _ _ _ _ _ (block_data_loaded _ _ _ Hd)). reflexivity.
Qed.

Lemma getBlockState_loaded (w : World) (block : Block) (d : BlockData) (stateId : string) :
  blocks w !! cellKey block = Some d ->
  getBlockState block stateId w = Returned (lookupAssoc stateId (states d)) w.
Proof.
  intros Hd. unfold getBlockState.
  rewrite (bind_Returned _ _ _ _ _ (block_data_loaded _ _ _ Hd)). reflexivity.
Qed.

Lemma isCropRipe_loaded (w : World) (crop : Block) (d : BlockData) :
  blocks w !! cellKey crop = Some d ->
  isCropRipe crop w
  = Returned (looseEqualsNumber (lookupAssoc "growth" (states d)) 7) w.
Proof.
  intros Hd. unfold isCropRipe.
  rewrite (bind_Returned _ _ _ _ _ (getBlockState_loaded _ _ _ _ Hd)). reflexivity.
Qed.

Lemma getCropDropItemId_loaded (w : World) (crop : Block) (d : BlockData) :
  blocks w !! cellKey crop = Some d ->
  getCropDropItemId crop w = Returned (dropIdsOfType (typeId d)) w.
Proof.
  intros Hd. unfold getCropDropItemId.
  rewrite (bind_Returned _ _ _ _ _ (block_typeId_loaded _ _ _ Hd)). reflexivity.
Qed.

Lemma looseEqualsNumber_spec (value : option StateValue) (n : Z) :
  n <> 0 -> n <> 1 ->
  looseEqualsNumber value n = true <-> value = Some (SNumber n).
Proof.
  intros H0 H1. destruct value as [[m|b]|]; cbn [looseEqualsNumber].
  - rewrite Z.eqb_eq. split; [intros ->; reflexivity | congruence].
  - split; [|discriminate]. rewrite Z.eqb_eq. destruct b; lia.
  - split; discriminate.
Qed.

(** ** Ripeness *)

(** C8. On a loaded block [isCropRipe] returns, changes nothing, and its
    answer is true exactly when the block's [growth] state is the number 7:
    it is false for the stages 0 to 6 and for a block without a [growth]
    state. *)
Theorem isCropRipe_iff_growth_7 (w : World) (crop : Block) (d : BlockData) :
  blocks w !! cellKey crop = Some d ->
  exists ripe : bool,
    isCropRipe crop w = Returned ripe w
    /\ (ripe = true <-> lookupAssoc "growth" (states d) = Some (SNumber 7))
    /\ (forall stage, 0 <= stage <= 6 ->
          lookupAssoc "growth" (states d) = Some (SNumber stage) -> ripe = false)
    /\ (lookupAssoc "growth" (states d) = None -> ripe = false).
Proof.
  intros Hd. eexists. split; [apply (isCropRipe_loaded _ _ _ Hd)|].
  split; [apply looseEqualsNumber_spec; lia|]. split.
  - intros stage Hstage ->. simpl. apply Z.eqb_neq. lia.
  - intros ->. reflexivity.
Qed.

(** ** The drop count *)

Lemma successes_range (source : nat -> Q) (from trials : nat) :
  0 <= successes source from trials <= Z.of_nat trials.
Proof.
  revert from. induction trials as [|k IH]; intros from; cbn [successes]; [lia|].
  specialize (IH (S from)). destruct (Qlt_le_dec _ _); lia.
Qed.

Lemma bonusTrials_runs (trials : nat) (additionalDrops : Z) (w : World) :
  bonusTrials trials additionalDrops w
  = Returned (additionalDrops + successes (randoms w) (drawn w) trials)
             (withDrawn (fun n => (n + trials)%nat) w).
Proof.
  revert additionalDrops w. induction trials as [|k IH]; intros acc w; cbn [bonusTrials successes].
  - unfold ret. f_equal; [lia|]. destruct w; unfold withDrawn; simpl. f_equal. lia.
  - unfold bind, Math_random. rewrite IH. cbn [randoms drawn withDrawn].
    f_equal.
    + destruct (Qlt_le_dec _ _); lia.
    + unfold withDrawn; simpl. f_equal. lia.
Qed.

Lemma floor_scaled_draw (r : Q) (k : Z) :
  (0 <= r)%Q -> (r < 1)%Q -> 0 < k -> 0 <= Qfloor (r * inject_Z k) < k.
Proof.
  intros H0 H1 Hk. split.
  - change 0 with (Qfloor 0). apply Qfloor_resp_le.
    apply Qmult_le_0_compat; [exact H0|]. change 0%Q with (inject_Z 0).
    rewrite <- Zle_Qle. lia.
  - rewrite Zlt_Qlt. eapply Qle_lt_trans; [apply Qfloor_le|].
    rewrite <- (Qmult_1_l (inject_Z k)) at 2.
    apply Qmult_lt_compat_r; [|exact H1].
    change 0%Q with (inject_Z 0). rewrite <- Zlt_Qlt. lia.
Qed.

Lemma calculateDrops_runs (fortuneLevel : Z) (w : World) :
  let clampedFortune := Z.max 0 (Z.min fortuneLevel 3) in
  calculateDrops fortuneLevel w
  = Returned
      (Qfloor (randoms w (drawn w) * inject_Z (clampedFortune + 1)) + 1
       + successes (randoms w) (S (drawn w)) (Z.to_nat (3 + clampedFortune)))
      (withDrawn (fun n => (n + Z.to_nat (4 + clampedFortune))%nat) w).
Proof.
  intros c. unfold calculateDrops. fold c.
  unfold bind at 1. unfold Math_random at 1.
  unfold bind. rewrite bonusTrials_runs. unfold ret. cbn [randoms drawn withDrawn].
  f_equal. unfold withDrawn; simpl. f_equal. lia.
Qed.

(** The interval of the drop count: with [clamped] the fortune level
    brought into [0, 3], a base roll in [1, clamped + 1] plus the
    successes among [3 + clamped] draws. *)
Lemma calculateDrops_interval (fortuneLevel : Z) (w : World) :
  randomsInRange w ->
  let clamped := Z.max 0 (Z.min fortuneLevel 3) in
  let initialDrops := Qfloor (randoms w (drawn w) * inject_Z (clamped + 1)) + 1 in
  let additionalDrops := successes (randoms w) (S (drawn w)) (Z.to_nat (3 + clamped)) in
  calculateDrops fortuneLevel w
  = Returned (initialDrops + additionalDrops)
             (withDrawn (fun n => (n + Z.to_nat (4 + clamped))%nat) w)
  /\ 1 <= initialDrops <= clamped + 1
  /\ 0 <= additionalDrops <= 3 + clamped.
Proof.
  intros Hrange clamped initialDrops additionalDrops.
  split; [apply calculateDrops_runs|].
  assert (Hc : 0 <= clamped <= 3) by (unfold clamped; lia).
  destruct (Hrange (drawn w)) as [H0 H1].
  pose proof (floor_scaled_draw _ (clamped + 1) H0 H1 ltac:(lia)) as Hfloor.
  pose proof (successes_range (randoms w) (S (drawn w)) (Z.to_nat (3 + clamped))) as Hs.
  rewrite Z2Nat.id in Hs by lia.
  unfold initialDrops, additionalDrops. lia.
Qed.

(** C2, as the scripts have it.  For every fortune level, with
    [clamped] the level brought into [0, 3] (the level itself when it is
    0, 1, 2 or 3, else the nearer bound), [calculateDrops] returns after
    [4 + clamped] draws; its count is a base roll in [1, clamped + 1] plus
    the successes among [3 + clamped] draws against 8/15, hence lies in
    [1, 4 + 2 * clamped]. *)
Theorem calculateDrops_range (fortuneLevel : Z) (w : World) :
  randomsInRange w ->
  let clamped := Z.max 0 (Z.min fortuneLevel 3) in
  exists initialDrops additionalDrops : Z,
    calculateDrops fortuneLevel w
    = Returned (initialDrops + additionalDrops)
               (withDrawn (fun n => (n + Z.to_nat (4 + clamped))%nat) w)
    /\ (0 <= fortuneLevel <= 3 -> clamped = fortuneLevel)
    /\ (fortuneLevel < 0 -> clamped = 0)
    /\ (3 < fortuneLevel -> clamped = 3)
    /\ initialDrops = Qfloor (randoms w (drawn w) * inject_Z (clamped + 1)) + 1
    /\ additionalDrops = successes (randoms w) (S (drawn w)) (Z.to_nat (3 + clamped))
    /\ 1 <= initialDrops <= clamped + 1
    /\ 0 <= additionalDrops <= 3 + clamped
    /\ 1 <= initialDrops + additionalDrops <= 4 + 2 * clamped.
Proof.
  intros Hrange clamped.
  destruct (calculateDrops_interval fortuneLevel w Hrange) as (Hrun & Hinitial & Hbonus).
  fold clamped in Hrun, Hinitial, Hbonus.
  assert (Hc : 0 <= clamped <= 3) by (unfold clamped; lia).
  eexists _, _. split; [exact Hrun|].
  repeat split; lia.
Qed.

(** ** Giving items *)

Lemma deposited_app (cs1 cs2 : list HostCall) :
  deposited (cs1 ++ cs2) = deposited cs1 + deposited cs2.
Proof. induction cs1 as [|c cs1 IH]; simpl; [lia|]. destruct c; lia. Qed.

Lemma spawned_app (cs1 cs2 : list HostCall) :
  spawned (cs1 ++ cs2) = spawned cs1 + spawned cs2.
Proof. induction cs1 as [|c cs1 IH]; simpl; [lia|]. destruct c; lia. Qed.

Lemma availableSpace_fold_ge (container : Container) (itemstack : ItemStack)
    (only : bool) (start : Z) :
  containerFits container itemstack ->
  start <=
  fold_left
    (fun totalAvailableSpace currentSlotItem =>
       match currentSlotItem with
       | None =>
           if negb only
           then totalAvailableSpace + maxAmount itemstack
           else totalAvailableSpace
       | Some current =>
           if String.eqb (item_typeId current) (item_typeId itemstack)
           then totalAvailableSpace + (maxAmount itemstack - amount current)
           else totalAvailableSpace
       end)
    container start.
Proof.
  intros [Hmax Hfits]. revert start.
  induction Hfits as [|slot rest Hslot Hrest IH]; intros start; cbn [fold_left]; [lia|].
  etransitivity; [|apply IH].
  destruct slot as [current|]; cbn [slotFits] in Hslot.
  - destruct (String.eqb_spec (item_typeId current) (item_typeId itemstack)) as [Heq|Hne];
      [specialize (Hslot Heq)|]; lia.
  - destruct only; simpl; lia.
Qed.

Lemma availableSpace_nonneg (container : Container) (itemstack : ItemStack) (only : bool) :
  containerFits container itemstack ->
  0 <= getAvailableSpaceForItemStack container itemstack only.
Proof. intros Hfits. unfold getAvailableSpaceForItemStack. apply availableSpace_fold_ge, Hfits. Qed.

Lemma giveEntityItems_runs (itemStack : ItemStack) (w : World) (c : Container) :
  inventory w = Some c ->
  let itemsToAdd := Z.min (amount itemStack) (getAvailableSpaceForItemStack c itemStack false) in
  giveEntityItems itemStack w
  = Returned (amount itemStack - itemsToAdd)
             (if 0 <? itemsToAdd then afterAddItem c (item_typeId itemStack) itemsToAdd w else w).
Proof.
  intros Hinv itemsToAdd. unfold giveEntityItems, getEntityContainer, bind at 1, gets.
  rewrite Hinv. fold itemsToAdd. destruct (0 <? itemsToAdd) eqn:Hpos.
  - unfold bind, container_addItem, bind, modify, emit, modify, ret, afterAddItem.
    unfold withInventory. rewrite Hinv. reflexivity.
  - reflexivity.
Qed.

Lemma giveEntityItems_no_container (itemStack : ItemStack) (w : World) :
  inventory w = None -> giveEntityItems itemStack w = Returned (amount itemStack) w.
Proof.
  intros Hinv. unfold giveEntityItems, getEntityContainer, bind, gets. rewrite Hinv. reflexivity.
Qed.

(** C4.  For a stack of at least one item: an entity without a container
    gets nothing and the whole amount comes back, in the world as it was;
    with a container whose stacks of that type respect the stack limit,
    the deposit is the smaller of the requested amount and the space
    [getAvailableSpaceForItemStack] computes, hence at most that space,
    and remainder plus deposit is the requested amount.  A positive
    deposit is one call of [container.addItem] with a stack of that many
    items, and the player's container afterwards is the one the host
    makes of it by that call; without a deposit the container is the one
    it was.  Blocks and random source are untouched. *)
Theorem giveEntityItems_conserves (itemStack : ItemStack) (w : World) :
  1 <= amount itemStack ->
  (inventory w = None ->
   giveEntityItems itemStack w = Returned (amount itemStack) w)
  /\ (forall c, inventory w = Some c -> containerFits c itemStack ->
      exists (remainder : Z) (w' : World),
        giveEntityItems itemStack w = Returned remainder w'
        /\ let given := deposited (calls w') - deposited (calls w) in
           0 <= given <= getAvailableSpaceForItemStack c itemStack false
           /\ remainder + given = amount itemStack
           /\ calls w' = calls w ++ (if 0 <? given
                                      then [AddItem (item_typeId itemStack) given]
                                      else [])
           /\ given = Z.min (amount itemStack)
                            (getAvailableSpaceForItemStack c itemStack false)
           /\ inventory w'
              = Some (if 0 <? given
                      then host_addItem c (newItemStack (item_typeId itemStack) given)
                      else c)
           /\ blocks w' = blocks w
           /\ drawn w' = drawn w
           /\ selectedSlotIndex w' = selectedSlotIndex w).
Proof.
  intros Hamount. split; [apply giveEntityItems_no_container|].
  intros c Hinv Hfits.
  pose proof (availableSpace_nonneg c itemStack false Hfits) as Havail.
  pose proof (giveEntityItems_runs itemStack w c Hinv) as Hrun. cbv zeta in Hrun.
  set (itemsToAdd := Z.min (amount itemStack) (getAvailableSpaceForItemStack c itemStack false)) in *.
  eexists _, _. split; [exact Hrun|].
  destruct (0 <? itemsToAdd) eqn:Hpos.
  - apply Z.ltb_lt in Hpos. unfold afterAddItem.
    cbn [calls inventory blocks drawn selectedSlotIndex withCalls withInventory].
    rewrite deposited_app. cbn [deposited].
    replace (deposited (calls w) + (itemsToAdd + 0) - deposited (calls w)) with itemsToAdd by lia.
    cbv zeta. apply Z.ltb_lt in Hpos as Hpos'. rewrite Hpos'.
    repeat split; try reflexivity; lia.
  - apply Z.ltb_ge in Hpos. rewrite Z.sub_diag. cbv zeta. cbn [Z.ltb Z.compare].
    rewrite app_nil_r. repeat split; try reflexivity; try exact Hinv; lia.
Qed.

(** ** The held item *)

Lemma getHeldSlot_runs (w : World) :
  holdsValidSlot w -> getHeldSlot w = Returned (selectedSlotIndex w) w.
Proof.
  intros (c & Hinv & Hlt). unfold getHeldSlot, bind, gets, getEntityContainer, gets.
  rewrite Hinv. unfold container_getSlot.
  apply Nat.ltb_lt in Hlt. rewrite Hlt. reflexivity.
Qed.

Lemma getHeldSlot_frame (w : World) : finalWorld (getHeldSlot w) = w.
Proof.
  unfold getHeldSlot, bind, gets, getEntityContainer, gets, container_getSlot.
  destruct (inventory w) as [c|]; [|reflexivity].
  destruct (selectedSlotIndex w <? length c)%nat; reflexivity.
Qed.

Lemma getHeldItem_runs (w : World) :
  holdsValidSlot w -> getHeldItem w = Returned (heldItemOf w) w.
Proof.
  intros Hslot. unfold getHeldItem.
  rewrite (bind_Returned _ _ _ _ _ (getHeldSlot_runs w Hslot)). reflexivity.
Qed.

Lemma getHeldItem_frame (w : World) : finalWorld (getHeldItem w) = w.
Proof.
  unfold getHeldItem, bind. pose proof (getHeldSlot_frame w) as Hframe.
  destruct (getHeldSlot w) as [slot w'|e w']; simpl in Hframe; subst w'; reflexivity.
Qed.

(** ** Harvesting a crop that is not ripe *)

(** C10.  On a loaded block whose [growth] state is not the number 7,
    [harvestCrop] leaves the world as it found it: no host call, no change
    of inventory, blocks or random source; and it returns normally
    whenever the player holds a slot of a container. *)
Theorem harvestCrop_unripe_noop (w : World) (crop : Block) (d : BlockData) :
  blocks w !! cellKey crop = Some d ->
  lookupAssoc "growth" (states d) <> Some (SNumber 7) ->
  finalWorld (harvestCrop crop w) = w
  /\ (holdsValidSlot w -> harvestCrop crop w = Returned tt w).
Proof.
  intros Hd Hgrowth.
  assert (Hripe : looseEqualsNumber (lookupAssoc "growth" (states d)) 7 = false).
  { apply not_true_is_false. intros Hr. apply Hgrowth.
    apply looseEqualsNumber_spec in Hr; [exact Hr|lia|lia]. }
  assert (Hrest : forall scythe,
    (id <- block_typeId crop ;;
     let cropName := splitColon1 id in
     ripe <- isCropRipe crop ;;
     if negb ripe then ret tt
     else
       dropItemIds <- getCropDropItemId crop ;;
       forEach (harvestCrop_drop crop scythe) dropItemIds ;;;
       block_setType crop ("djc:fake_" +:+ templateText cropName)) w = Returned tt w).
  { intros scythe.
    rewrite (bind_Returned _ _ _ _ _ (block_typeId_loaded _ _ _ Hd)). cbv zeta.
    rewrite (bind_Returned _ _ _ _ _ (isCropRipe_loaded _ _ _ Hd)).
    rewrite Hripe. reflexivity. }
  split.
  - unfold harvestCrop, bind at 1. pose proof (getHeldItem_frame w) as Hframe.
    destruct (getHeldItem w) as [scythe w'|e w']; simpl in Hframe; subst w'.
    + rewrite Hrest. reflexivity.
    + reflexivity.
  - intros Hslot. unfold harvestCrop.
    rewrite (bind_Returned _ _ _ _ _ (getHeldItem_runs w Hslot)). apply Hrest.
Qed.

(** ** A stacked plant without a support block *)

(** C5.  When the downward ray from a loaded stacked-plant block hits no
    block, [getSupportBlock] returns undefined after one console warning
    and throws nothing; [harvestSugarcane] and [harvestBamboo] then stop
    at the first use of that value, in a world that differs from the
    initial one by that warning alone: no item deposited or spawned, no
    block changed. *)
Theorem harvestStacked_no_support (w : World) (block : Block) (d : BlockData) :
  blocks w !! cellKey block = Some d ->
  host_getBlockFromRay (blocks w) (block_center block) (mkVector3 0 (-1) 0) [typeId d] = None ->
  let warned :=
    withCalls
      (fun cs => cs ++ [ConsoleWarn ("Support block could not be found for: " +:+ typeId d)])
      w in
  getSupportBlock block w = Returned None warned
  /\ (exists e, harvestSugarcane block w = Thrown e warned)
  /\ (exists e, harvestBamboo block w = Thrown e warned)
  /\ blocks warned = blocks w
  /\ inventory warned = inventory w
  /\ deposited (calls warned) = deposited (calls w)
  /\ spawned (calls warned) = spawned (calls w).
Proof.
  intros Hd Hray warned.
  assert (Hsupport : getSupportBlock block w = Returned None warned).
  { unfold getSupportBlock.
    rewrite (bind_Returned _ _ _ _ _ (block_typeId_loaded _ _ _ Hd)). cbv zeta.
    unfold bind at 1, gets. rewrite Hray. reflexivity. }
  split; [exact Hsupport|].
  split; [|split].
  - eexists. unfold harvestSugarcane, harvestStacked.
    rewrite (bind_Returned _ _ _ _ _ Hsupport). reflexivity.
  - eexists. unfold harvestBamboo, harvestStacked.
    rewrite (bind_Returned _ _ _ _ _ Hsupport). reflexivity.
  - subst warned. cbn [blocks inventory calls withCalls].
    rewrite deposited_app, spawned_app. cbn [deposited spawned].
    repeat split; lia.
Qed.

(** ** Columns of a stacked plant *)

Lemma getBlock_runs (w : World) (location : Vector3 Z) :
  getBlock location w
  = Returned (match blocks w !! cellKey location with
              | Some _ => Some location
              | None => None
              end) w.
Proof. reflexivity. Qed.

Lemma marchUp_column (w : World) (location : Block) (id : string) (m : nat) :
  forall (budget : nat) (step : Z) (acc : list Block),
    (forall j, (j < m)%nat ->
       hasType w (raised location (step + Z.of_nat j)) id
       /\ vy location + step + Z.of_nat j <= maxY) ->
    (maxY < vy location + step + Z.of_nat m
     \/ ~ hasType w (raised location (step + Z.of_nat m)) id) ->
    maxY - (vy location + step) + 1 <= Z.of_nat budget ->
    marchUp budget location id step acc w
    = Returned (acc ++ map (fun j => raised location (step + Z.of_nat j)) (seq 0 m)) w.
Proof.
  induction m as [|m IH]; intros budget step acc Hcells Hend Hbudget.
  - cbn [seq map]. rewrite app_nil_r. change (Z.of_nat 0) with 0 in Hend. rewrite !Z.add_0_r in Hend.
    destruct budget as [|budget]; cbn [marchUp]; fold (raised location step);
      change (vy (raised location step)) with (vy location + step).
    + destruct (maxY <? vy location + step) eqn:Hy; [reflexivity|].
      apply Z.ltb_ge in Hy. lia.
    + destruct (maxY <? vy location + step) eqn:Hy; [reflexivity|].
      apply Z.ltb_ge in Hy. destruct Hend as [Hend|Hend]; [lia|].
      unfold bind at 1. rewrite getBlock_runs.
      destruct (blocks w !! cellKey (raised location step)) as [d|] eqn:Hd; [|reflexivity].
      rewrite (bind_Returned _ _ _ _ _ (block_typeId_loaded _ _ _ Hd)).
      destruct (String.eqb_spec (typeId d) id) as [Heq|Hne]; [|reflexivity].
      exfalso. apply Hend. exists d. split; assumption.
  - destruct (Hcells O ltac:(lia)) as [(d & Hd & Hid) Hy]. change (Z.of_nat 0) with 0 in Hd, Hy.
    rewrite !Z.add_0_r in Hd, Hy.
    destruct budget as [|budget]; [lia|].
    cbn [marchUp]; fold (raised location step);
      change (vy (raised location step)) with (vy location + step).
    destruct (maxY <? vy location + step) eqn:Hlt; [apply Z.ltb_lt in Hlt; lia|].
    unfold bind at 1. rewrite getBlock_runs, Hd.
    rewrite (bind_Returned _ _ _ _ _ (block_typeId_loaded _ _ _ Hd)).
    rewrite Hid, String.eqb_refl. cbn [negb].
    rewrite (IH budget (step + 1) (acc ++ [raised location step])).
    + f_equal. rewrite <- app_assoc. f_equal. cbn [seq map app]. rewrite Z.add_0_r.
      f_equal. rewrite <- seq_shift, map_map. apply map_ext. intros j. f_equal. lia.
    + intros j Hj. specialize (Hcells (S j) ltac:(lia)).
      replace (step + 1 + Z.of_nat j) with (step + Z.of_nat (S j)) by lia.
      split; [apply Hcells|lia].
    + replace (step + 1 + Z.of_nat m) with (step + Z.of_nat (S m)) by lia.
      destruct Hend as [Hend|Hend]; [left; lia|right; exact Hend].
    + lia.
Qed.

(** What column discovery yields on a column of [S n] cells that starts
    at [bottom], stays within the build height and ends there: the [n]
    cells above the bottom cell, lowest first; never the bottom cell. *)
Lemma getStackedPlant_column (w : World) (bottom : Block) (id : string) (n : nat) :
  isColumn w bottom id (S n) ->
  vy bottom + Z.of_nat n <= maxY ->
  columnEnds w bottom id (S n) ->
  getStackedPlant bottom w
  = Returned (map (fun k => raised bottom (Z.of_nat k)) (seq 1 n)) w.
Proof.
  intros Hcol Htop Hend. unfold getStackedPlant.
  destruct (Hcol O ltac:(lia)) as (d & Hd & Hid).
  assert (Hbottom : raised bottom 0 = bottom).
  { destruct bottom as [x y z]. unfold raised, addVectors. cbn. f_equal; lia. }
  change (Z.of_nat 0) with 0 in Hd. rewrite Hbottom in Hd.
  rewrite (bind_Returned _ _ _ _ _ (block_typeId_loaded _ _ _ Hd)). rewrite Hid.
  rewrite (marchUp_column w bottom id n).
  - cbn [app]. f_equal. rewrite <- seq_shift, map_map. apply map_ext.
    intros j. f_equal. lia.
  - intros j Hj. split.
    + replace (1 + Z.of_nat j) with (Z.of_nat (S j)) by lia. apply Hcol. lia.
    + lia.
  - unfold columnEnds in Hend.
    replace (1 + Z.of_nat n) with (Z.of_nat (S n)) by lia.
    destruct Hend as [Hend|Hend]; [left; lia|right; exact Hend].
  - lia.
Qed.

(** ** Harvesting a ripe crop *)

Lemma getFortuneLevel_runs (item : ItemStack) (w : World) :
  getFortuneLevel (Some item) w = Returned (fortuneOf item) w.
Proof.
  unfold getFortuneLevel, fortuneOf. destruct (enchantments item) as [l|]; [|reflexivity].
  destruct (lookupAssoc "fortune" l); reflexivity.
Qed.

Lemma getDropCount_runs (scythe : option ItemStack) (w : World) :
  randomsInRange w ->
  let clamped := Z.max 0 (Z.min (dropFortune scythe) 3) in
  exists n : Z,
    getDropCount scythe w
    = Returned n (withDrawn (fun k => (k + Z.to_nat (4 + clamped))%nat) w)
    /\ 1 <= n <= 4 + 2 * clamped.
Proof.
  intros Hrange clamped.
  destruct (calculateDrops_interval (dropFortune scythe) w Hrange) as (Hrun & Hi & Hb).
  fold clamped in Hrun, Hi, Hb.
  eexists. split; [|split; [|]].
  - unfold getDropCount. destruct scythe as [item|].
    + rewrite (bind_Returned _ _ _ _ _ (getFortuneLevel_runs item w)). exact Hrun.
    + unfold bind at 1, ret at 1. exact Hrun.
  - lia.
  - lia.
Qed.

Lemma wfContainer_fits (c : Container) (itemId : string) (quantity : Z) :
  (forall id, 0 <= itemMaxAmount id) ->
  wfContainer c -> containerFits c (newItemStack itemId quantity).
Proof.
  intros Hmax Hwf. split; [apply Hmax|].
  unfold wfContainer in Hwf. rewrite Forall_forall in Hwf |- *.
  intros [current|] Hin; cbn; [|exact I].
  intros <-. exact (Hwf _ Hin).
Qed.







(** ** The narrow sweep *)

Lemma Qfloor_add_Z (q : Q) (k : Z) : Qfloor (q + inject_Z k) = Qfloor q + k.
Proof.
  assert (Hlow : (inject_Z (Qfloor q + k) <= q + inject_Z k)%Q).
  { rewrite inject_Z_plus. apply Qplus_le_l, Qfloor_le. }
  assert (Hhigh : (q + inject_Z k < inject_Z (Qfloor q + k + 1))%Q).
  { replace (Qfloor q + k + 1) with ((Qfloor q + 1) + k) by lia.
    rewrite inject_Z_plus. apply Qplus_lt_l, Qlt_floor. }
  pose proof (Qfloor_le (q + inject_Z k)) as H1.
  pose proof (Qlt_floor (q + inject_Z k)) as H2.
  assert (Qfloor q + k < Qfloor (q + inject_Z k) + 1).
  { rewrite Zlt_Qlt. eapply Qle_lt_trans; [exact Hlow|exact H2]. }
  assert (Qfloor (q + inject_Z k) < Qfloor q + k + 1).
  { rewrite Zlt_Qlt. eapply Qle_lt_trans; [exact H1|exact Hhigh]. }
  lia.
Qed.

Lemma floorVector_above (location : Vector3 Q) :
  floorVector (addVectors location (mkVector3 0 1 0)%Q)
  = mkVector3 (Qfloor (vx location)) (Qfloor (vy location) + 1) (Qfloor (vz location)).
Proof.
  unfold floorVector, addVectors. cbn [vx vy vz num_add Arith_Q].
  f_equal.
  - apply Qfloor_comp. apply Qplus_0_r.
  - apply (Qfloor_add_Z (vy location) 1).
  - apply Qfloor_comp. apply Qplus_0_r.
Qed.

Lemma horizontalView_unit (view : Vector3 Q) :
  ~ (vx view == 0)%Q \/ ~ (vz view == 0)%Q ->
  (fst (horizontalView view) ^ 2 + snd (horizontalView view) ^ 2 = 1)%R.
Proof.
  intros Hview. unfold horizontalView. cbn [fst snd].
  set (x := Q2R (vx view)). set (z := Q2R (vz view)).
  assert (Hnz : (x <> 0 \/ z <> 0)%R).
  { destruct Hview as [Hx|Hz]; [left|right]; intros H0; [apply Hx|apply Hz];
      apply Qreals.eqR_Qeq; rewrite RMicromega.Q2R_0; exact H0. }
  assert (Hpos : (0 < x ^ 2 + z ^ 2)%R) by (destruct Hnz; nra).
  pose proof (sqrt_lt_R0 _ Hpos) as Hm.
  pose proof (sqrt_sqrt (x ^ 2 + z ^ 2) ltac:(lra)) as Hsq.
  set (m := R_sqrt.sqrt (x ^ 2 + z ^ 2)) in *.
  assert (Hm0 : m <> 0%R) by lra.
  replace ((x / m) ^ 2 + (z / m) ^ 2)%R with ((x ^ 2 + z ^ 2) / (m * m))%R by (field; exact Hm0).
  rewrite Hsq. field. lra.
Qed.

Lemma Math_roundR_unit (a b : R) :
  (a ^ 2 + b ^ 2 = 1)%R ->
  (Math_roundR a, Math_roundR b) <> (0, 0)
  /\ -1 <= Math_roundR a <= 1 /\ -1 <= Math_roundR b <= 1.
Proof.
  intros Hunit. unfold Math_roundR.
  pose proof (Zfloor_bound (a + / 2)) as Ha. pose proof (Zfloor_bound (b + / 2)) as Hb.
  assert (Hab : (-1 <= a <= 1 /\ -1 <= b <= 1)%R) by (split; nra).
  split; [|split].
  - intros Heq. injection Heq as Ha0 Hb0. rewrite Ha0 in Ha. rewrite Hb0 in Hb. nra.
  - split.
    + apply Zfloor_lub. lra.
    + apply Z.lt_succ_r. apply lt_IZR. change (IZR (Z.succ 1)) with 2%R. lra.
  - split.
    + apply Zfloor_lub. lra.
    + apply Z.lt_succ_r. apply lt_IZR. change (IZR (Z.succ 1)) with 2%R. lra.
Qed.

Lemma sweepOffset_ahead (horizontal : R * R) :
  sweepOffset horizontal (- 0 / 2 + inject_Z (Z.of_nat 0))%Q (1 + Z.of_nat 0)
  = (Math_roundR (fst horizontal), Math_roundR (snd horizontal)).
Proof.
  unfold sweepOffset.
  assert (Hangle : Q2R (- 0 / 2 + inject_Z (Z.of_nat 0)) = 0%R).
  { rewrite <- RMicromega.Q2R_0. apply Qreals.Qeq_eqR. unfold Qeq. reflexivity. }
  rewrite Hangle, Rmult_0_l, cos_0, sin_0.
  change (1 + Z.of_nat 0) with 1.
  f_equal; f_equal; ring.
Qed.

(** A sweep of range 0, whatever its width, samples the cell above the
    actor and nothing else. *)
Lemma getBlocksInSweep_range_0 (arcWidth : Q) (w : World) :
  let center := floorVector (playerLocation w) in
  getBlocksInSweep arcWidth 0 w
  = Returned [loadedBlock w (mkVector3 (vx center) (vy center + 1) (vz center))] w.
Proof.
  intros center. unfold getBlocksInSweep, bind, gets.
  cbn [sweepDistances Z.to_nat seq map foldM ret].
  rewrite floorVector_above. reflexivity.
Qed.

Lemma horizontalView_component (x z : R) :
  (x <> 0 \/ z <> 0)%R ->
  let u := (x / R_sqrt.sqrt (x ^ 2 + z ^ 2))%R in
  ((0 <= x)%R -> 0 <= Math_roundR u)
  /\ ((x <= 0)%R -> Math_roundR u <= 0)
  /\ ((z * z <= 2 * (x * x))%R -> (0 < x)%R -> Math_roundR u = 1)
  /\ ((z * z <= 2 * (x * x))%R -> (x < 0)%R -> Math_roundR u = -1)
  /\ ((4 * (x * x) <= z * z)%R -> Math_roundR u = 0).
Proof.
  intros Hnz u.
  assert (Hpos : (0 < x ^ 2 + z ^ 2)%R) by (destruct Hnz; nra).
  pose proof (sqrt_lt_R0 _ Hpos) as Hm.
  pose proof (sqrt_sqrt (x ^ 2 + z ^ 2) ltac:(lra)) as Hsq.
  set (m := R_sqrt.sqrt (x ^ 2 + z ^ 2)) in *.
  assert (Hum : (u * m = x)%R) by (unfold u; field; lra).
  assert (Hu2 : (u * u * (x ^ 2 + z ^ 2) = x * x)%R).
  { rewrite <- Hsq, <- Hum. ring. }
  assert (Huu : (u * u <= 1)%R).
  { apply Rnot_lt_le. intros Hgt.
    assert (0 < (u * u - 1) * (x ^ 2 + z ^ 2))%R by (apply Rmult_lt_0_compat; lra).
    nra. }
  assert (Hu1 : (-1 <= u <= 1)%R) by (split; nra).
  assert (Hnear : ((z * z <= 2 * (x * x)) -> x <> 0 -> 1 <= 3 * (u * u))%R).
  { intros Hz Hx.
    assert (0 < x * x)%R by nra.
    assert (u * u * (z * z) <= u * u * (2 * (x * x)))%R
      by (apply Rmult_le_compat_l; [nra|exact Hz]).
    apply Rnot_lt_le. intros Hlt.
    assert (0 < (1 - 3 * (u * u)) * (x * x))%R by (apply Rmult_lt_0_compat; lra).
    nra. }
  assert (Hfar : ((4 * (x * x) <= z * z) -> 5 * (u * u) <= 1)%R).
  { intros Hx.
    assert (u * u * (4 * (x * x)) <= u * u * (z * z))%R
      by (apply Rmult_le_compat_l; [nra|exact Hx]).
    apply Rnot_lt_le. intros Hlt.
    assert (0 < (5 * (u * u) - 1) * (x ^ 2 + z ^ 2))%R by (apply Rmult_lt_0_compat; lra).
    nra. }
  clearbody u m. unfold Math_roundR.
  split; [|split; [|split; [|split]]].
  - intros Hx. assert (0 <= u)%R by nra. apply Zfloor_lub. simpl. lra.
  - intros Hx. assert (u <= 0)%R by nra.
    apply Z.lt_succ_r. apply lt_IZR.
    pose proof (Zfloor_bound (u + / 2)) as Hb. change (IZR (Z.succ 0)) with 1%R. lra.
  - intros Hz Hx. assert (0 < u)%R by nra.
    pose proof (Hnear Hz ltac:(lra)) as Hthird.
    assert (/ 2 <= u)%R by nra.
    apply Zfloor_eq. simpl. lra.
  - intros Hz Hx. assert (u < 0)%R by nra.
    pose proof (Hnear Hz ltac:(lra)) as Hthird.
    assert (u < - / 2)%R by nra.
    apply Zfloor_eq. simpl. lra.
  - intros Hx. pose proof (Hfar Hx) as Hfifth.
    assert (- / 2 < u < / 2)%R by (split; nra).
    apply Zfloor_eq. simpl. lra.
Qed.

Lemma stepFollows_horizontalView (along across : Q) :
  ~ (along == 0)%Q \/ ~ (across == 0)%Q ->
  stepFollows along across
    (Math_roundR (Q2R along / R_sqrt.sqrt (Q2R along ^ 2 + Q2R across ^ 2))).
Proof.
  intros Hview.
  assert (Hnz : (Q2R along <> 0 \/ Q2R across <> 0)%R).
  { destruct Hview as [Hx|Hz]; [left|right]; intros H0; [apply Hx|apply Hz];
      apply Qreals.eqR_Qeq; rewrite RMicromega.Q2R_0; exact H0. }
  destruct (horizontalView_component (Q2R along) (Q2R across) Hnz)
    as (Hpos & Hneg & Hfull & Hback & Hnone).
  assert (H0 : Q2R 0 = 0%R) by apply RMicromega.Q2R_0.
  unfold stepFollows. split; [|split; [|split]].
  - intros H. apply Hpos. apply Qreals.Qle_Rle in H. lra.
  - intros H. apply Hneg. apply Qreals.Qle_Rle in H. lra.
  - intros H.
    assert (HR : (Q2R across * Q2R across <= 2 * (Q2R along * Q2R along))%R).
    { apply Qreals.Qle_Rle in H. rewrite !Qreals.Q2R_mult in H.
      replace (Q2R 2) with 2%R in H; [exact H|]. unfold Q2R. cbn [Qnum Qden]. field. }
    unfold signOf. destruct (Qlt_le_dec 0 along) as [Hgt|Hle].
    + rewrite Z.sgn_pos by (unfold Qlt in Hgt; simpl in Hgt; lia).
      apply (Hfull HR). apply Qreals.Qlt_Rlt in Hgt. lra.
    + destruct (Qlt_le_dec along 0) as [Hlt|Hge].
      * rewrite Z.sgn_neg by (unfold Qlt in Hlt; simpl in Hlt; lia).
        apply (Hback HR). apply Qreals.Qlt_Rlt in Hlt. lra.
      * exfalso. apply Qreals.Qle_Rle in Hle, Hge.
        assert (Q2R along = 0)%R by lra. destruct Hnz as [Hx|Hz]; [lra|]. nra.
  - intros H. apply Hnone.
    apply Qreals.Qle_Rle in H. rewrite !Qreals.Q2R_mult in H.
    replace (Q2R 4) with 4%R in H; [exact H|]. unfold Q2R. cbn [Qnum Qden]. field.
Qed.

(** C6.  With arc range 0 the block sweep returns the cell above the
    actor and nothing else.  With arc width 0 and arc range 1, for a view
    direction whose horizontal part is not zero, it returns three cells:
    the cell one rounded step ahead at foot level, the same cell one
    level up, and the cell above the actor.  Their coordinates are
    pairwise distinct, and the step ahead is a neighbouring cell, never
    the actor's own.  The step follows the view: along neither axis does
    it go against the view, along an axis the view keeps close to it is
    a full step the way the view points, and along an axis the view is
    far from it is no step; so a player who faces along +X sweeps the
    cell at +X, and one who faces the diagonal sweeps the diagonal
    cell. *)
Theorem getBlocksInSweep_straight_ahead (w : World) :
  let center := floorVector (playerLocation w) in
  let horizontal := horizontalView (viewDirection w) in
  let dx := Math_roundR (fst horizontal) in
  let dz := Math_roundR (snd horizontal) in
  let forward := mkVector3 (vx center + dx) (vy center) (vz center + dz) in
  let forwardUp := mkVector3 (vx center + dx) (vy center + 1) (vz center + dz) in
  let aboveActor := mkVector3 (vx center) (vy center + 1) (vz center) in
  getBlocksInSweep 0 0 w = Returned [loadedBlock w aboveActor] w
  /\ (~ (vx (viewDirection w) == 0)%Q \/ ~ (vz (viewDirection w) == 0)%Q ->
      getBlocksInSweep 0 1 w
      = Returned [loadedBlock w forward; loadedBlock w forwardUp; loadedBlock w aboveActor] w
      /\ NoDup [forward; forwardUp; aboveActor]
      /\ (dx, dz) <> (0, 0)
      /\ -1 <= dx <= 1 /\ -1 <= dz <= 1
      /\ stepFollows (vx (viewDirection w)) (vz (viewDirection w)) dx
      /\ stepFollows (vz (viewDirection w)) (vx (viewDirection w)) dz).
Proof.
  intros center horizontal dx dz forward forwardUp aboveActor.
  assert (Habove : floorVector (addVectors (playerLocation w) (mkVector3 0 1 0)%Q) = aboveActor).
  { rewrite floorVector_above. reflexivity. }
  split.
  - apply getBlocksInSweep_range_0.
  - intros Hview.
    destruct (Math_roundR_unit _ _ (horizontalView_unit _ Hview)) as (Hne & Hdx & Hdz).
    fold horizontal in Hne, Hdx, Hdz. fold dx in Hne, Hdx. fold dz in Hne, Hdz.
    split; [|split; [|split; [exact Hne|split; [exact Hdx|split; [exact Hdz|split]]]]].
    + unfold getBlocksInSweep, bind at 1 2, gets.
      change (sweepDistances 1) with [1 + Z.of_nat 0].
      change (sweepAngles 0) with [(- 0 / 2 + inject_Z (Z.of_nat 0))%Q].
      cbn [foldM]. unfold sweepSample. rewrite sweepOffset_ahead.
      unfold bind, getBlock, gets, ret. cbn [someAtLocation fst snd app].
      unfold ret. rewrite Habove. reflexivity.
    + assert (Hstep : dx <> 0 \/ dz <> 0).
      { destruct (Z.eq_dec dx 0) as [Hx|Hx]; [|left; exact Hx].
        destruct (Z.eq_dec dz 0) as [Hz|Hz]; [|right; exact Hz].
        exfalso. apply Hne. rewrite Hx, Hz. reflexivity. }
      repeat constructor.
      * rewrite !elem_of_cons, elem_of_nil. unfold forward, forwardUp, aboveActor.
        intros [Heq|[Heq|[]]]; injection Heq; lia.
      * rewrite !elem_of_cons, elem_of_nil. unfold forwardUp, aboveActor.
        intros [Heq|[]]; injection Heq; lia.
      * rewrite elem_of_nil. tauto.
    + exact (stepFollows_horizontalView _ _ Hview).
    + unfold dz, horizontal, horizontalView. cbn [snd].
      rewrite Rplus_comm.
      apply stepFollows_horizontalView. destruct Hview as [Hx|Hz]; [right|left]; assumption.
Qed.

(** ** Scripts that only read the world *)

Lemma readOnly_Returned {A} (m : M A) (w w' : World) (a : A) :
  readOnly m -> m w = Returned a w' -> w' = w.
Proof. intros Hm Hrun. specialize (Hm w). rewrite Hrun in Hm. exact Hm. Qed.

Lemma readOnly_ret {A} (a : A) : readOnly (ret a).
Proof. intros w. reflexivity. Qed.

Lemma readOnly_throw {A} (e : string) : readOnly (@throw A e).
Proof. intros w. reflexivity. Qed.

Lemma readOnly_gets {A} (f : World -> A) : readOnly (gets f).
Proof. intros w. reflexivity. Qed.

Lemma readOnly_bind {A B} (m : M A) (k : A -> M B) :
  readOnly m -> (forall a, readOnly (k a)) -> readOnly (bind m k).
Proof.
  intros Hm Hk w. unfold bind. specialize (Hm w).
  destruct (m w) as [a w'|e w']; simpl in Hm; subst w'; [apply Hk|reflexivity].
Qed.

Lemma readOnly_foldM {A S} (f : A -> S -> M S) (l : list A) :
  (forall a s, readOnly (f a s)) -> forall s, readOnly (foldM f l s).
Proof.
  intros Hf. induction l as [|a l IH]; intros s; cbn [foldM].
  - apply readOnly_ret.
  - apply readOnly_bind; [apply Hf|exact IH].
Qed.

Lemma bind_inv {A B} (m : M A) (k : A -> M B) (w w' : World) (b : B) :
  bind m k w = Returned b w' ->
  exists a w1, m w = Returned a w1 /\ k a w1 = Returned b w'.
Proof.
  unfold bind. destruct (m w) as [a w1|e w1]; [|discriminate].
  intros Hk. exists a, w1. split; [reflexivity|exact Hk].
Qed.

Lemma readOnly_block_data (block : Block) : readOnly (block_data block).
Proof.
  unfold block_data. apply readOnly_bind; [apply readOnly_gets|].
  intros m. destruct (m !! cellKey block); [apply readOnly_ret|apply readOnly_throw].
Qed.

Lemma readOnly_block_typeId (block : Block) : readOnly (block_typeId block).
Proof.
  unfold block_typeId. apply readOnly_bind; [apply readOnly_block_data|].
  intros d. apply readOnly_ret.
Qed.

Lemma readOnly_isBlockCrop (block : Block) : readOnly (isBlockCrop block).
Proof.
  unfold isBlockCrop. apply readOnly_bind; [apply readOnly_block_typeId|].
  intros id. apply readOnly_ret.
Qed.

Lemma readOnly_isCropRipe (block : Block) : readOnly (isCropRipe block).
Proof.
  unfold isCropRipe, getBlockState.
  apply readOnly_bind; [|intros growthStage; apply readOnly_ret].
  apply readOnly_bind; [apply readOnly_block_data|intros d; apply readOnly_ret].
Qed.

Lemma readOnly_isBlockSugarcane (block : Block) : readOnly (isBlockSugarcane block).
Proof.
  unfold isBlockSugarcane.
  apply readOnly_bind; [apply readOnly_gets|intros reeds].
  apply readOnly_bind; [apply readOnly_block_typeId|intros id; apply readOnly_ret].
Qed.

Lemma readOnly_isBlockBamboo (block : Block) : readOnly (isBlockBamboo block).
Proof.
  unfold isBlockBamboo. apply readOnly_bind; [apply readOnly_block_typeId|].
  intros id. apply readOnly_ret.
Qed.

Lemma readOnly_isBlockScytheDestructable (block : Block) :
  readOnly (isBlockScytheDestructable block).
Proof.
  unfold isBlockScytheDestructable. apply readOnly_bind; [apply readOnly_block_typeId|].
  intros id. apply readOnly_ret.
Qed.

Lemma readOnly_someAtLocation (blockList : list (option Block)) (location : Vector3 Z) :
  readOnly (someAtLocation blockList location).
Proof.
  induction blockList as [|[b|] rest IH]; cbn [someAtLocation].
  - apply readOnly_ret.
  - destruct (areVectorsEqual b location); [apply readOnly_ret|exact IH].
  - apply readOnly_throw.
Qed.

Lemma readOnly_getBlocksInSweep (arcWidth : Q) (arcRange : Z) :
  readOnly (getBlocksInSweep arcWidth arcRange).
Proof.
  unfold getBlocksInSweep.
  apply readOnly_bind; [apply readOnly_gets|]. intros location.
  apply readOnly_bind; [apply readOnly_gets|]. intros view.
  apply readOnly_bind.
  - apply readOnly_foldM. intros distance blockList.
    apply readOnly_foldM. intros angle blockList'. unfold sweepSample, getBlock.
    apply readOnly_bind; [apply readOnly_gets|intros current].
    apply readOnly_bind; [apply readOnly_gets|intros upper].
    apply readOnly_bind; [apply readOnly_someAtLocation|intros isCurrentDuplicate].
    apply readOnly_bind; [apply readOnly_someAtLocation|intros isUpperDuplicate].
    apply readOnly_ret.
  - intros blockList. apply readOnly_bind; [apply readOnly_gets|].
    intros above. apply readOnly_ret.
Qed.

(** ** The count of a pass *)

Lemma multiHarvest_block_count (block : option Block) (n n' : Z) (w w' : World) :
  multiHarvest_block block n w = Returned n' w' ->
  n' = n + 1 \/ (n' = n /\ w' = w).
Proof.
  destruct block as [b|]; [|discriminate]. unfold multiHarvest_block.
  intros Hrun.
  apply bind_inv in Hrun as (crop & w1 & Hcrop & Hrun).
  apply (readOnly_Returned _ _ _ _ (readOnly_isBlockCrop b)) in Hcrop as ->.
  destruct crop.
  - apply bind_inv in Hrun as (ripe & w1 & Hripe & Hrun).
    apply (readOnly_Returned _ _ _ _ (readOnly_isCropRipe b)) in Hripe as ->.
    destruct ripe.
    + apply bind_inv in Hrun as (? & w1 & _ & Hrun). injection Hrun as <- _. left; reflexivity.
    + injection Hrun as <- <-. right; split; reflexivity.
  - apply bind_inv in Hrun as (sugarcane & w1 & Hsugar & Hrun).
    apply (readOnly_Returned _ _ _ _ (readOnly_isBlockSugarcane b)) in Hsugar as ->.
    destruct sugarcane.
    { apply bind_inv in Hrun as (? & w1 & _ & Hrun). injection Hrun as <- _. left; reflexivity. }
    apply bind_inv in Hrun as (bamboo & w1 & Hbamboo & Hrun).
    apply (readOnly_Returned _ _ _ _ (readOnly_isBlockBamboo b)) in Hbamboo as ->.
    destruct bamboo.
    { apply bind_inv in Hrun as (? & w1 & _ & Hrun). injection Hrun as <- _. left; reflexivity. }
    apply bind_inv in Hrun as (destructable & w1 & Hdes & Hrun).
    apply (readOnly_Returned _ _ _ _ (readOnly_isBlockScytheDestructable b)) in Hdes as ->.
    destruct destructable.
    { apply bind_inv in Hrun as (? & w1 & _ & Hrun). injection Hrun as <- _. left; reflexivity. }
    injection Hrun as <- <-. right; split; reflexivity.
Qed.

Lemma destroyArc_block_count (block : option Block) (n n' : Z) (w w' : World) :
  destroyArc_block block n w = Returned n' w' ->
  inventory w' = inventory w
  /\ selectedSlotIndex w' = selectedSlotIndex w
  /\ (n' = n + 1 \/ (n' = n /\ w' = w)).
Proof.
  destruct block as [b|]; [|discriminate]. unfold destroyArc_block.
  intros Hrun.
  apply bind_inv in Hrun as (id & w1 & Hid & Hrun).
  apply (readOnly_Returned _ _ _ _ (readOnly_block_typeId b)) in Hid as ->.
  destruct (arrayIncludes scytheDestructable id).
  - unfold destroyBlock, bind, modify, emit, modify, ret in Hrun.
    injection Hrun as <- <-. cbn. repeat split. left; reflexivity.
  - injection Hrun as <- <-. repeat split. right; split; reflexivity.
Qed.

(** A loop whose rounds either add one to the count or change nothing
    returns the count it started with only by changing nothing. *)
Lemma foldM_count (f : option Block -> Z -> M Z) (l : list (option Block)) :
  (forall b n n' w w', f b n w = Returned n' w' -> n' = n + 1 \/ (n' = n /\ w' = w)) ->
  forall n n' w w',
    foldM f l n w = Returned n' w' -> n <= n' /\ (n' = n -> w' = w).
Proof.
  intros Hf. induction l as [|b l IH]; intros n n' w w' Hrun; cbn [foldM] in Hrun.
  - injection Hrun as <- <-. split; [lia|reflexivity].
  - apply bind_inv in Hrun as (n1 & w1 & Hstep & Hrest).
    apply Hf in Hstep. apply IH in Hrest as [Hle Hsame].
    destruct Hstep as [->|[-> ->]]; split; try lia; exact Hsame.
Qed.

Lemma foldM_destroy_inventory (l : list (option Block)) :
  forall n n' w w',
    foldM destroyArc_block l n w = Returned n' w' ->
    inventory w' = inventory w /\ selectedSlotIndex w' = selectedSlotIndex w.
Proof.
  induction l as [|b l IH]; intros n n' w w' Hrun; cbn [foldM] in Hrun.
  - injection Hrun as <- <-. split; reflexivity.
  - apply bind_inv in Hrun as (n1 & w1 & Hstep & Hrest).
    apply destroyArc_block_count in Hstep as (Hinv & Hsel & _).
    apply IH in Hrest as [Hinv' Hsel']. split; congruence.
Qed.

Lemma getRandomFloat_runs (min max : float) (w : World) :
  PrimFloat.ltb max min = false ->
  exists value, getRandomFloat min max w = Returned value (withDrawn S w).
Proof.
  intros Hle. unfold getRandomFloat. rewrite Hle. eexists. reflexivity.
Qed.

(** The pitch of the whoosh: its bounds, 1 and 1.5, are in order. *)
Lemma getRandomFloat_pitch (w : World) :
  exists pitch, getRandomFloat 1 1.5 w = Returned pitch (withDrawn S w).
Proof. apply getRandomFloat_runs. reflexivity. Qed.

Lemma getRandomInt_runs (min max : Q) (w : World) :
  (min <= max)%Q ->
  exists value, getRandomInt min max w = Returned value (withDrawn S w).
Proof.
  intros Hle. unfold getRandomInt. destruct (Qlt_le_dec max min) as [Hlt|_].
  - exfalso. apply (Qlt_not_le _ _ Hlt), Hle.
  - eexists. reflexivity.
Qed.

(** The world in which the loop of a pass starts: the sweep has read the
    world, one value was drawn for the pitch, the whoosh was played. *)
Lemma pass_start (arcWidth : Q) (arcRange : Z) (loopBody : option Block -> Z -> M Z)
    (w w1 : World) (n : Z) :
  (blocksInSweep <- getBlocksInSweep arcWidth arcRange ;;
   pitch <- getRandomFloat 1 1.5 ;;
   playSound "scythe.whoosh" (Some (doubleValue pitch)) None ;;;
   foldM loopBody blocksInSweep 0) w = Returned n w1 ->
  exists (swept : list (option Block)) (w0 : World),
    foldM loopBody swept 0 w0 = Returned n w1
    /\ inventory w0 = inventory w
    /\ selectedSlotIndex w0 = selectedSlotIndex w
    /\ blocks w0 = blocks w.
Proof.
  intros Hrun.
  apply bind_inv in Hrun as (swept & w' & Hsweep & Hrun).
  apply (readOnly_Returned _ _ _ _ (readOnly_getBlocksInSweep _ _)) in Hsweep as ->.
  destruct (getRandomFloat_pitch w) as (pitch & Hpitch).
  rewrite (bind_Returned _ _ _ _ _ Hpitch) in Hrun.
  unfold bind at 1, playSound, emit, modify in Hrun.
  eexists _, _. split; [exact Hrun|]. repeat split.
Qed.

(** ** Tool wear *)

Lemma slot_setItem_runs (slot : nat) (item : option ItemStack) (w : World) (c : Container) :
  inventory w = Some c ->
  slot_setItem slot item w
  = Returned tt (withCalls (fun cs => cs ++ [SetItem slot item])
                   (withInventory (fun _ => Some (<[slot := item]> c)) w)).
Proof.
  intros Hinv. unfold slot_setItem, bind, modify, emit, modify, withInventory.
  rewrite Hinv. reflexivity.
Qed.

Lemma heldItemOf_after_set (w w' : World) (c : Container) (item : option ItemStack) :
  (selectedSlotIndex w < length c)%nat ->
  selectedSlotIndex w' = selectedSlotIndex w ->
  inventory w' = Some (<[selectedSlotIndex w := item]> c) ->
  heldItemOf w' = item.
Proof.
  intros Hlt Hsel Hinv. unfold heldItemOf. rewrite Hinv, Hsel.
  rewrite list_lookup_insert_eq by exact Hlt. reflexivity.
Qed.

Lemma clearHeldItem_runs (w : World) (c : Container) :
  inventory w = Some c -> (selectedSlotIndex w < length c)%nat ->
  clearHeldItem w
  = Returned tt (withCalls (fun cs => cs ++ [SetItem (selectedSlotIndex w) None])
                   (withInventory (fun _ => Some (<[selectedSlotIndex w := None]> c)) w)).
Proof.
  intros Hinv Hlt. unfold clearHeldItem.
  assert (Hheld : holdsValidSlot w) by (exists c; split; assumption).
  rewrite (bind_Returned _ _ _ _ _ (getHeldSlot_runs w Hheld)).
  apply slot_setItem_runs, Hinv.
Qed.

Lemma wearTool_runs (tool : ItemStack) (d : Durability) (w : World) (c : Container) :
  durability tool = Some d ->
  inventory w = Some c -> (selectedSlotIndex w < length c)%nat ->
  let slot := selectedSlotIndex w in
  let worn := withDamage tool (mkDurability (damage d + 1) (maxDurability d)) in
  exists w',
    wearTool tool w = Returned tt w'
    /\ selectedSlotIndex w' = slot
    /\ if maxDurability d <? damage d + 1
       then inventory w' = Some (<[slot := None]> c)
            /\ calls w' = calls w ++ [SetItem slot None; PlaySound "random.break" None None]
       else inventory w' = Some (<[slot := Some worn]> c)
            /\ calls w' = calls w ++ [SetItem slot (Some worn)].
Proof.
  intros Hd Hinv Hlt slot worn.
  assert (Hheld : holdsValidSlot w) by (exists c; split; assumption).
  unfold wearTool. rewrite Hd. destruct (maxDurability d <? damage d + 1).
  - eexists. split.
    { rewrite (bind_Returned _ _ _ _ _ (clearHeldItem_runs w c Hinv Hlt)). reflexivity. }
    cbn [selectedSlotIndex inventory calls withCalls withInventory].
    rewrite <- app_assoc. repeat split.
  - eexists. split.
    { unfold setHeldItem.
      rewrite (bind_Returned _ _ _ _ _ (getHeldSlot_runs w Hheld)).
      apply slot_setItem_runs, Hinv. }
    cbn [selectedSlotIndex inventory calls withCalls withInventory]. repeat split.
Qed.

Lemma withDamage_wornOnce (tool : ItemStack) (d : Durability) :
  wornOnce tool d (withDamage tool (mkDurability (damage d + 1) (maxDurability d))).
Proof. repeat split. Qed.

Lemma shingCues_runs (scythe : ItemStack) (harvestAmount : Z) (w : World) :
  exists (cues : list HostCall) (w' : World),
    shingCues scythe harvestAmount w = Returned tt w'
    /\ Forall isShingCue cues
    /\ calls w' = calls w ++ cues
    /\ inventory w' = inventory w
    /\ selectedSlotIndex w' = selectedSlotIndex w.
Proof.
  unfold shingCues.
  destruct (negb (stringIncludes "wooden" (item_typeId scythe))
            && negb (stringIncludes "stone" (item_typeId scythe))).
  - destruct (getRandomInt_runs (8 # 10) (14 # 10) w ltac:(unfold Qle; simpl; lia))
      as (pitch & Hpitch).
    rewrite (bind_Returned _ _ _ _ _ Hpitch).
    unfold bind at 1, playSound at 1, emit, modify.
    unfold bind at 1, Math_random.
    destruct ((if Qlt_le_dec (1 # 5) _ then true else false) && (1 <? harvestAmount)).
    + match goal with |- context [bind (getRandomInt _ _) _ ?w1] =>
        destruct (getRandomInt_runs (8 # 10) (14 # 10) w1 ltac:(unfold Qle; simpl; lia))
          as (pitch2 & Hpitch2)
      end.
      rewrite (bind_Returned _ _ _ _ _ Hpitch2).
      eexists [_; _], _. split; [reflexivity|].
      cbn [calls inventory selectedSlotIndex withCalls withDrawn].
      rewrite <- app_assoc.
      repeat split; repeat constructor; eexists _, _; reflexivity.
    + eexists [_], _. split; [reflexivity|].
      cbn [calls inventory selectedSlotIndex withCalls withDrawn].
      repeat split; repeat constructor; eexists _, _; reflexivity.
  - exists [], w. rewrite app_nil_r. repeat split. constructor.
Qed.

(** C7.  [onUseOn], for a tool with a durability component: when the
    harvest pass returns a positive count and the player still holds a
    slot of a container, the handler returns, and after its shing cues
    either [damage + 1] exceeds the maximum, the held slot is emptied and
    random.break is played with nothing written back, or the held slot
    is given an item whose durability component reads [damage + 1]
    against the same maximum and which is the tool in every other
    respect, and this is the item the player then holds; when the pass
    returns 0 the handler returns in the world of the pass, whose
    inventory and held item are the initial ones.  The [entityHitBlock]
    subscriber, for a player holding such a tool tagged scythe other than
    the wooden one, does the same around its destroy pass, without
    cues. *)
Theorem tool_wear_after_pass (tool : ItemStack) (d : Durability) (w : World) :
  durability tool = Some d ->
  (forall (n : Z) (w1 : World),
     multiHarvestArc 180 (sweepRange (parseInt (getItemPropertyTag tool "reach"))) w
     = Returned n w1 ->
     (0 < n -> holdsValidSlot w1 ->
      exists w2, onUseOn tool w = Returned tt w2 /\ wearOutcome tool d w1 w2)
     /\ (n = 0 -> onUseOn tool w = Returned tt w1 /\ inventory w1 = inventory w
                  /\ heldItemOf w1 = heldItemOf w))
  /\ (holdsValidSlot w -> heldItemOf w = Some tool ->
      arrayIncludes (item_tags tool) "scythe" = true ->
      item_typeId tool <> "djc:wooden_scythe" ->
      forall (n : Z) (w1 : World),
        destroyBlocksArc 180 (sweepRange (parseInt (getItemPropertyTag tool "reach"))) w
        = Returned n w1 ->
        (0 < n ->
         exists w2, onEntityHitBlock "minecraft:player" w = Returned tt w2
                    /\ wearOutcome tool d w1 w2)
        /\ (n = 0 -> onEntityHitBlock "minecraft:player" w = Returned tt w1
                     /\ inventory w1 = inventory w
                     /\ heldItemOf w1 = heldItemOf w)).
Proof.
  intros Hd. split.
  - intros n w1 Hpass. split.
    + intros Hn (c & Hinv & Hlt).
      destruct (shingCues_runs tool n w1) as (cues & wc & Hcues & Hall & Hcalls & Hinvc & Hselc).
      assert (Hinvc' : inventory wc = Some c) by congruence.
      assert (Hltc : (selectedSlotIndex wc < length c)%nat) by (rewrite Hselc; exact Hlt).
      destruct (wearTool_runs tool d wc c Hd Hinvc' Hltc) as (w2 & Hwear & Hsel2 & Hout).
      cbv zeta in Hout.
      exists w2. split.
      { unfold onUseOn. rewrite (bind_Returned _ _ _ _ _ Hpass).
        apply Z.ltb_lt in Hn. rewrite Hn.
        rewrite (bind_Returned _ _ _ _ _ Hcues). exact Hwear. }
      exists c, cues. split; [exact Hinv|]. split; [exact Hall|]. cbv zeta.
      rewrite Hselc in Hout, Hsel2.
      destruct (maxDurability d <? damage d + 1); destruct Hout as [Hinv2 Hcalls2];
        [|eexists; split; [apply withDamage_wornOnce|]];
        (split; [exact Hinv2|]);
        (split; [exact (heldItemOf_after_set w1 w2 c _ Hlt Hsel2 Hinv2)|]);
        rewrite Hcalls2, Hcalls, <- app_assoc; reflexivity.
    + intros ->. split.
      * unfold onUseOn. rewrite (bind_Returned _ _ _ _ _ Hpass). reflexivity.
      * apply pass_start in Hpass as (swept & w0 & Hloop & Hinv0 & Hsel0 & _).
        apply (foldM_count _ _ multiHarvest_block_count) in Hloop as [_ Hsame].
        rewrite (Hsame eq_refl). split; [exact Hinv0|].
        unfold heldItemOf. rewrite Hinv0, Hsel0. reflexivity.
  - intros Hheld Htool Htag Hwooden n w1 Hpass.
    assert (Hhandler : onEntityHitBlock "minecraft:player" w
                       = (if 0 <? n then wearTool tool w1 else Returned tt w1)).
    { unfold onEntityHitBlock. cbn [String.eqb Ascii.eqb Bool.eqb negb].
      rewrite (bind_Returned _ _ _ _ _ (getHeldItem_runs w Hheld)), Htool.
      rewrite (bind_Returned _ _ _ _ _ (getHeldItem_runs w Hheld)), Htool.
      rewrite Htag. cbn [negb].
      apply String.eqb_neq in Hwooden. rewrite Hwooden. cbn [negb].
      rewrite (bind_Returned _ _ _ _ _ Hpass). destruct (0 <? n); reflexivity. }
    apply pass_start in Hpass as (swept & w0 & Hloop & Hinv0 & Hsel0 & _).
    destruct (foldM_destroy_inventory _ _ _ _ _ Hloop) as [Hinv1 Hsel1].
    split.
    + intros Hn. destruct Hheld as (c & Hinv & Hlt).
      assert (Hinv1' : inventory w1 = Some c) by congruence.
      assert (Hlt1 : (selectedSlotIndex w1 < length c)%nat) by (rewrite Hsel1, Hsel0; exact Hlt).
      destruct (wearTool_runs tool d w1 c Hd Hinv1' Hlt1) as (w2 & Hwear & Hsel2 & Hout).
      cbv zeta in Hout. exists w2. split.
      { rewrite Hhandler. apply Z.ltb_lt in Hn. rewrite Hn. exact Hwear. }
      exists c, []. split; [exact Hinv1'|]. split; [constructor|]. cbv zeta.
      destruct (maxDurability d <? damage d + 1); destruct Hout as [Hinv2 Hcalls2];
        [|eexists; split; [apply withDamage_wornOnce|]];
        (split; [exact Hinv2|]);
        (split; [exact (heldItemOf_after_set w1 w2 c _ Hlt1 Hsel2 Hinv2)|]);
        exact Hcalls2.
    + intros ->. split; [rewrite Hhandler; reflexivity|].
      split; [congruence|]. unfold heldItemOf. rewrite Hinv1, Hinv0, Hsel1, Hsel0. reflexivity.
Qed.

(** ** Arrays of strings *)

Lemma string_leb_trans (s1 s2 s3 : string) :
  String.leb s1 s2 = true -> String.leb s2 s3 = true -> String.leb s1 s3 = true.
Proof.
  unfold String.leb. revert s2 s3.
  induction s1 as [|c1 s1 IH]; intros [|c2 s2] [|c3 s3]; cbn; try congruence.
  unfold Ascii.compare.
  destruct (N.compare_spec (N_of_ascii c1) (N_of_ascii c2)) as [E12|L12|G12];
    destruct (N.compare_spec (N_of_ascii c2) (N_of_ascii c3)) as [E23|L23|G23];
    try congruence; intros H12 H23.
  - rewrite E12, E23, N.compare_refl. eapply IH; eassumption.
  - rewrite E12. apply N.compare_lt_iff in L23. rewrite L23. reflexivity.
  - rewrite <- E23. apply N.compare_lt_iff in L12. rewrite L12. reflexivity.
  - assert (L13 : (N_of_ascii c1 < N_of_ascii c3)%N) by lia.
    apply N.compare_lt_iff in L13. rewrite L13. reflexivity.
Qed.

Lemma insertSorted_perm (value : string) (sorted : list string) :
  Permutation (insertSorted value sorted) (value :: sorted).
Proof.
  induction sorted as [|first rest IH]; cbn; [reflexivity|].
  destruct (String.leb value first); [reflexivity|].
  rewrite IH. apply Permutation_swap.
Qed.

Lemma sortStrings_perm (arr : list string) : Permutation (sortStrings arr) arr.
Proof.
  induction arr as [|value rest IH]; cbn; [reflexivity|].
  rewrite insertSorted_perm, IH. reflexivity.
Qed.

Lemma insertSorted_sorted (value : string) (sorted : list string) :
  StronglySorted (fun a b => String.leb a b = true) sorted ->
  StronglySorted (fun a b => String.leb a b = true) (insertSorted value sorted).
Proof.
  induction 1 as [|first rest Hrest IH Hfirst]; cbn.
  - repeat constructor.
  - destruct (String.leb value first) eqn:Hle.
    + constructor; [constructor; assumption|].
      constructor; [exact Hle|].
      eapply Forall_impl; [exact Hfirst|].
      intros other Hother. eapply string_leb_trans; eassumption.
    + constructor; [exact IH|].
      rewrite insertSorted_perm. constructor; [|exact Hfirst].
      destruct (String.leb_total value first) as [H|H]; congruence.
Qed.

Lemma sortStrings_sorted (arr : list string) :
  StronglySorted (fun a b => String.leb a b = true) (sortStrings arr).
Proof.
  induction arr as [|value rest IH]; cbn; [constructor|].
  apply insertSorted_sorted, IH.
Qed.

Lemma everyIndexed_sameAt (other arr : list string) :
  forall (before : list string),
    everyIndexed (sameAt (before ++ other)) (length before) arr = true
    <-> arr = take (length arr) other.
Proof.
  revert other. induction arr as [|value rest IH]; intros other before; cbn.
  - split; reflexivity.
  - unfold sameAt at 1. rewrite lookup_app_r, Nat.sub_diag by lia.
    destruct other as [|found others]; cbn.
    + split; discriminate.
    + specialize (IH others (before ++ [found])).
      rewrite <- app_assoc, length_app, Nat.add_1_r in IH. cbn in IH.
      rewrite andb_true_iff, IH, String.eqb_eq.
      split; [intros [-> <-]; reflexivity|].
      intros Heq. injection Heq as -> Hrest. split; [reflexivity | exact Hrest].
Qed.

Lemma sortStrings_equal_iff (arr1 arr2 : list string) :
  sortStrings arr1 = sortStrings arr2 <-> Permutation arr1 arr2.
Proof.
  split.
  - intros Heq. rewrite <- (sortStrings_perm arr1), Heq. apply sortStrings_perm.
  - intros Hperm.
    assert (Hanti : AntiSymm eq (fun a b : string => String.leb a b = true)).
    { intros a b. apply String.leb_antisym. }
    apply (@StronglySorted_unique _ _ Hanti).
    + apply sortStrings_sorted.
    + apply sortStrings_sorted.
    + rewrite !sortStrings_perm. exact Hperm.
Qed.

Lemma compareStringArrays_spec (arr1 arr2 : list string) :
  compareStringArrays arr1 arr2 = true <-> Permutation arr1 arr2.
Proof.
  unfold compareStringArrays.
  destruct (length arr1 =? length arr2)%nat eqn:Hlen; cbn [negb].
  - apply Nat.eqb_eq in Hlen.
    rewrite (everyIndexed_sameAt (sortStrings arr2) (sortStrings arr1) []).
    rewrite <- sortStrings_equal_iff.
    assert (Hsorted : length (sortStrings arr1) = length (sortStrings arr2)).
    { rewrite !sortStrings_perm. exact Hlen. }
    rewrite Hsorted, firstn_all. reflexivity.
  - apply Nat.eqb_neq in Hlen. split; [discriminate|].
    intros Hperm. apply Permutation_length in Hperm. contradiction.
Qed.

(** X1. [compareStringArrays] answers true exactly when the second array
    is a rearrangement of the first: the same strings, each as many times,
    in any order.  In particular the answer does not depend on the order of
    either array, and arrays of different lengths never compare equal. *)
Theorem compareStringArrays_iff_permutation (arr1 arr2 : list string) :
  (compareStringArrays arr1 arr2 = true <-> Permutation arr1 arr2)
  /\ (length arr1 <> length arr2 -> compareStringArrays arr1 arr2 = false)
  /\ (forall arr1' arr2', Permutation arr1 arr1' -> Permutation arr2 arr2' ->
      compareStringArrays arr1' arr2' = compareStringArrays arr1 arr2).
Proof.
  split; [apply compareStringArrays_spec|]. split.
  - intros Hlen. destruct (compareStringArrays arr1 arr2) eqn:Hcmp; [|reflexivity].
    apply compareStringArrays_spec, Permutation_length in Hcmp. contradiction.
  - intros arr1' arr2' H1 H2.
    destruct (compareStringArrays arr1 arr2) eqn:Hcmp.
    + apply compareStringArrays_spec. apply compareStringArrays_spec in Hcmp.
      rewrite <- H1, <- H2. exact Hcmp.
    + destruct (compareStringArrays arr1' arr2') eqn:Hcmp'; [|reflexivity].
      apply compareStringArrays_spec in Hcmp'.
      rewrite <- H1, <- H2 in Hcmp'. apply compareStringArrays_spec in Hcmp'. congruence.
Qed.

(** ** Slots of a container *)

Lemma resolveContainer_runs (containerOrEntity : ContainerOrEntity) (w : World) :
  resolveContainer containerOrEntity w = Returned (containerOf w containerOrEntity) w.
Proof. destruct containerOrEntity; reflexivity. Qed.

Lemma containerSlot_getItem_runs (containerOrEntity : ContainerOrEntity) (index : nat)
    (w : World) :
  containerSlot_getItem (mkContainerSlot containerOrEntity index) w
  = Returned (match containerOf w containerOrEntity with
              | Some c => itemAt c index
              | None => None
              end) w.
Proof. destruct containerOrEntity; reflexivity. Qed.

Lemma getContainerSlots_runs (containerOrEntity : ContainerOrEntity) (w : World) :
  getContainerSlots containerOrEntity w
  = Returned (match containerOf w containerOrEntity with
              | Some c => map (fun i => (mkContainerSlot containerOrEntity i, i))
                              (seq 0 (length c))
              | None => []
              end) w.
Proof.
  unfold getContainerSlots.
  rewrite (bind_Returned _ _ _ _ _ (resolveContainer_runs _ _)).
  destruct (containerOf w containerOrEntity); reflexivity.
Qed.

Lemma getInventoryItem_runs (containerOrEntity : ContainerOrEntity) (slotIndex : Z)
    (w : World) :
  getInventoryItem containerOrEntity slotIndex w
  = Returned (match containerOf w containerOrEntity with
              | Some c =>
                  if (slotIndex <? 0) || (Z.of_nat (length c) <=? slotIndex) then None
                  else itemAt c (Z.to_nat slotIndex)
              | None => None
              end) w.
Proof.
  unfold getInventoryItem.
  rewrite (bind_Returned _ _ _ _ _ (resolveContainer_runs _ _)).
  destruct (containerOf w containerOrEntity) as [c|] eqn:Hc; [|reflexivity].
  destruct ((slotIndex <? 0) || (Z.of_nat (length c) <=? slotIndex)); [reflexivity|].
  rewrite containerSlot_getItem_runs, Hc. reflexivity.
Qed.

(** X2. [getInventoryItem] never throws and changes nothing.  Its answer
    is undefined when no container is found and when the index is
    negative or not below the size of the container; for an index of the
    container it is the content of that slot (undefined for an empty
    slot). *)
Theorem getInventoryItem_within_bounds (containerOrEntity : ContainerOrEntity)
    (slotIndex : Z) (w : World) :
  exists item : option ItemStack,
    getInventoryItem containerOrEntity slotIndex w = Returned item w
    /\ (containerOf w containerOrEntity = None -> item = None)
    /\ (forall c, containerOf w containerOrEntity = Some c ->
        (slotIndex < 0 \/ Z.of_nat (length c) <= slotIndex -> item = None)
        /\ (0 <= slotIndex < Z.of_nat (length c) -> c !! Z.to_nat slotIndex = Some item)).
Proof.
  eexists. split; [apply getInventoryItem_runs|]. split.
  - intros ->. reflexivity.
  - intros c ->. split.
    + intros Hout.
      destruct (Z.ltb_spec slotIndex 0); [reflexivity|].
      destruct (Z.leb_spec (Z.of_nat (length c)) slotIndex); [reflexivity | lia].
    + intros Hin.
      destruct (Z.ltb_spec slotIndex 0); [lia|].
      destruct (Z.leb_spec (Z.of_nat (length c)) slotIndex); [lia|]. cbn [orb].
      unfold itemAt.
      assert (Hlt : (Z.to_nat slotIndex < length c)%nat) by lia.
      destruct (lookup_lt_is_Some_2 _ _ Hlt) as [held Hheld].
      rewrite Hheld. reflexivity.
Qed.

Lemma container_getSlot_runs (c : Container) (index : nat) (w : World) :
  (index < length c)%nat -> container_getSlot (Some c) index w = Returned index w.
Proof.
  intros Hlt. unfold container_getSlot.
  destruct (Nat.ltb_spec index (length c)); [reflexivity | lia].
Qed.

Lemma setEntitySlotItem_runs (slotIndex : Z) (itemStack : option ItemStack) (w : World)
    (c : Container) :
  inventory w = Some c -> 0 <= slotIndex < Z.of_nat (length c) ->
  setEntitySlotItem slotIndex itemStack w
  = Returned tt (withCalls (fun cs => cs ++ [SetItem (Z.to_nat slotIndex) itemStack])
                   (withInventory (fun _ => Some (<[Z.to_nat slotIndex := itemStack]> c)) w)).
Proof.
  intros Hinv Hin. unfold setEntitySlotItem, getEntityContainer.
  unfold bind at 1. unfold gets. rewrite Hinv.
  destruct (Z.ltb_spec slotIndex 0); [lia|].
  assert (Hlt : (Z.to_nat slotIndex < length c)%nat) by lia.
  rewrite (bind_Returned _ _ _ _ _ (container_getSlot_runs c _ w Hlt)).
  apply slot_setItem_runs. exact Hinv.
Qed.

(** X3. Writing a slot and reading it back.  For an entity with a
    container and an index of that container, [setEntitySlotItem] returns
    after one [setItem]; [getInventoryItem] then answers the item just
    written for that index and what the container held before for every
    other index, and the size of the container and the blocks of the world
    are as before. *)
Theorem setEntitySlotItem_then_getInventoryItem (slotIndex : Z)
    (itemStack : option ItemStack) (w : World) (c : Container) :
  inventory w = Some c -> 0 <= slotIndex < Z.of_nat (length c) ->
  exists (w' : World) (c' : Container),
    setEntitySlotItem slotIndex itemStack w = Returned tt w'
    /\ inventory w' = Some c' /\ length c' = length c
    /\ getInventoryItem AnEntity slotIndex w' = Returned itemStack w'
    /\ (forall other item, other <> slotIndex ->
        getInventoryItem AnEntity other w = Returned item w ->
        getInventoryItem AnEntity other w' = Returned item w')
    /\ blocks w' = blocks w
    /\ calls w' = calls w ++ [SetItem (Z.to_nat slotIndex) itemStack].
Proof.
  intros Hinv Hin. eexists _, _.
  split; [apply (setEntitySlotItem_runs _ _ _ _ Hinv Hin)|].
  split; [reflexivity|]. split; [apply length_insert|]. split; [|split; [|split]].
  - rewrite getInventoryItem_runs. cbn [containerOf inventory withCalls withInventory].
    rewrite length_insert.
    destruct (Z.ltb_spec slotIndex 0); [lia|].
    destruct (Z.leb_spec (Z.of_nat (length c)) slotIndex); [lia|]. cbn [orb].
    unfold itemAt. rewrite list_lookup_insert_eq by lia. reflexivity.
  - intros other item Hother. rewrite !getInventoryItem_runs.
    cbn [containerOf inventory withCalls withInventory]. rewrite Hinv, length_insert.
    intros Hread. injection Hread as <-.
    destruct ((other <? 0) || (Z.of_nat (length c) <=? other)) eqn:Hout; [reflexivity|].
    apply orb_false_iff in Hout. destruct Hout as [Hneg Hbig].
    apply Z.ltb_ge in Hneg. apply Z.leb_gt in Hbig.
    unfold itemAt. rewrite list_lookup_insert_ne by lia. reflexivity.
  - reflexivity.
  - reflexivity.
Qed.

(** X4. The edges of [setEntitySlotItem].  For an entity without a
    container it returns at once and nothing changes.  For an index that
    is not a slot of the container the host's [getSlot] throws and nothing
    has changed: no slot is written. *)
Theorem setEntitySlotItem_without_slot (slotIndex : Z) (itemStack : option ItemStack)
    (w : World) :
  (inventory w = None -> setEntitySlotItem slotIndex itemStack w = Returned tt w)
  /\ (forall c, inventory w = Some c ->
      slotIndex < 0 \/ Z.of_nat (length c) <= slotIndex ->
      exists e, setEntitySlotItem slotIndex itemStack w = Thrown e w).
Proof.
  split.
  - intros Hinv. unfold setEntitySlotItem, getEntityContainer, bind, gets.
    rewrite Hinv. reflexivity.
  - intros c Hinv Hout. unfold setEntitySlotItem, getEntityContainer.
    unfold bind at 1. unfold gets. rewrite Hinv.
    destruct (Z.ltb_spec slotIndex 0) as [Hneg|Hpos].
    + eexists. reflexivity.
    + unfold bind, container_getSlot.
      destruct (Nat.ltb_spec (Z.to_nat slotIndex) (length c)); [lia|].
      eexists. reflexivity.
Qed.

(** X5. The held item, written and read back.  For a player whose
    selected slot is a slot of the container: after [setHeldItem] with an
    item [getHeldItem] answers that item; after [clearHeldItem], and after
    [setHeldItem] without an item, it answers undefined; and [getHeldItem]
    agrees with [getInventoryItem] at the selected slot. *)
Theorem setHeldItem_then_getHeldItem (item : ItemStack) (w : World) :
  holdsValidSlot w ->
  (exists w', setHeldItem (Some item) w = Returned tt w'
              /\ getHeldItem w' = Returned (Some item) w')
  /\ (exists w', clearHeldItem w = Returned tt w'
                 /\ getHeldItem w' = Returned None w')
  /\ setHeldItem None w = clearHeldItem w
  /\ getHeldItem w = getInventoryItem AnEntity (Z.of_nat (selectedSlotIndex w)) w.
Proof.
  intros Hvalid. pose proof Hvalid as [c [Hinv Hlt]].
  assert (Hset : forall held : option ItemStack,
            exists w', slot_setItem (selectedSlotIndex w) held w = Returned tt w'
                       /\ getHeldItem w' = Returned held w').
  { intros held. eexists. split; [apply (slot_setItem_runs _ _ _ _ Hinv)|].
    rewrite getHeldItem_runs.
    - f_equal. apply (heldItemOf_after_set w _ c); [exact Hlt | reflexivity | reflexivity].
    - exists (<[selectedSlotIndex w := held]> c). split; [reflexivity|].
      cbn. rewrite length_insert. exact Hlt. }
  split; [|split; [|split]].
  - unfold setHeldItem. rewrite (bind_Returned _ _ _ _ _ (getHeldSlot_runs _ Hvalid)).
    apply Hset.
  - unfold clearHeldItem. rewrite (bind_Returned _ _ _ _ _ (getHeldSlot_runs _ Hvalid)).
    apply Hset.
  - reflexivity.
  - rewrite (getHeldItem_runs _ Hvalid), getInventoryItem_runs.
    cbn [containerOf]. unfold heldItemOf, itemAt. rewrite Hinv, Nat2Z.id.
    destruct (Z.ltb_spec (Z.of_nat (selectedSlotIndex w)) 0); [lia|].
    destruct (Z.leb_spec (Z.of_nat (length c)) (Z.of_nat (selectedSlotIndex w))); [lia|].
    reflexivity.
Qed.

(** ** Tags of the items of a container *)

Lemma arrayIncludes_In (l : list string) (x : string) :
  arrayIncludes l x = true <-> In x l.
Proof.
  unfold arrayIncludes. rewrite existsb_exists. split.
  - intros (y & Hy & Heq). apply String.eqb_eq in Heq. subst. exact Hy.
  - intros Hx. exists x. split; [exact Hx | apply String.eqb_refl].
Qed.

Lemma someTagIncluded_spec (itemTags tags : list string) :
  someTagIncluded itemTags tags = true <-> exists tag, In tag tags /\ In tag itemTags.
Proof.
  unfold someTagIncluded. rewrite existsb_exists.
  split; intros (tag & Htag & Hin); exists tag; (split; [exact Htag|]);
    apply arrayIncludes_In; exact Hin.
Qed.

Lemma everyTagIncluded_spec (itemTags tags : list string) :
  everyTagIncluded itemTags tags = true <-> forall tag, In tag tags -> In tag itemTags.
Proof.
  unfold everyTagIncluded. rewrite forallb_forall.
  split; intros Hall tag Htag; apply arrayIncludes_In, Hall, Htag.
Qed.

Lemma someSlotItem_runs (containerOrEntity : ContainerOrEntity) (test : ItemStack -> bool)
    (w : World) (c : Container) (indices : list nat) :
  containerOf w containerOrEntity = Some c ->
  someSlotItem test (map (fun i => (mkContainerSlot containerOrEntity i, i)) indices) w
  = Returned (existsb (fun i => match itemAt c i with
                               | Some found => test found
                               | None => false
                               end) indices) w.
Proof.
  intros Hc. induction indices as [|i rest IH]; [reflexivity|].
  cbn [map someSlotItem existsb].
  rewrite (bind_Returned _ _ _ _ _ (containerSlot_getItem_runs _ _ _)), Hc.
  destruct (itemAt c i) as [found|]; [|exact IH].
  destruct (test found); [reflexivity | exact IH].
Qed.

Lemma someSlotItem_container (containerOrEntity : ContainerOrEntity)
    (test : ItemStack -> bool) (w : World) :
  exists answer : bool,
    (slots <- getContainerSlots containerOrEntity ;; someSlotItem test slots) w
    = Returned answer w
    /\ (answer = true
        <-> exists c i item, containerOf w containerOrEntity = Some c
                             /\ c !! i = Some (Some item) /\ test item = true).
Proof.
  rewrite (bind_Returned _ _ _ _ _ (getContainerSlots_runs _ _)).
  destruct (containerOf w containerOrEntity) as [c|] eqn:Hc.
  - eexists. split; [apply (someSlotItem_runs _ _ _ _ _ Hc)|].
    rewrite existsb_exists. split.
    + intros (i & Hi & Htest). unfold itemAt in Htest.
      destruct (c !! i) as [[item|]|] eqn:Hlook; try discriminate.
      exists c, i, item. repeat split; assumption.
    + intros (c' & i & item & Hc' & Hlook & Htest). injection Hc' as <-.
      exists i. split.
      * apply in_seq. apply lookup_lt_Some in Hlook. lia.
      * unfold itemAt. rewrite Hlook. exact Htest.
  - exists false. split; [reflexivity|]. split; [discriminate|].
    intros (c & _ & _ & Hc' & _). discriminate.
Qed.

(** X6. What the tag tests answer.  None throws or changes anything.
    [containerHasAnyItemTag] is true exactly when some slot holds an item
    that carries at least one of the tags; [containerHasAllItemTags] is
    true exactly when some slot holds one item that carries every one of
    the tags: tags spread over several items do not count.  On a slot of
    the container [slotHasAnyTag] and [slotHasAllTags] answer what
    [itemHasAnyTag] and [itemHasAllTags] answer on the content of the
    slot, false for an empty slot. *)
Theorem containerHasItemTags_one_item (entityOrContainer : ContainerOrEntity)
    (tags : list string) (w : World) :
  exists any all : bool,
    containerHasAnyItemTag entityOrContainer tags w = Returned any w
    /\ containerHasAllItemTags entityOrContainer tags w = Returned all w
    /\ (any = true
        <-> exists c i item tag,
              containerOf w entityOrContainer = Some c /\ c !! i = Some (Some item)
              /\ In tag tags /\ In tag (item_tags item))
    /\ (all = true
        <-> exists c i item,
              containerOf w entityOrContainer = Some c /\ c !! i = Some (Some item)
              /\ forall tag, In tag tags -> In tag (item_tags item))
    /\ (forall c i item,
          containerOf w entityOrContainer = Some c -> c !! i = Some item ->
          slotHasAnyTag (mkContainerSlot entityOrContainer i) tags w
          = Returned (itemHasAnyTag item tags) w
          /\ slotHasAllTags (mkContainerSlot entityOrContainer i) tags w
             = Returned (itemHasAllTags item tags) w).
Proof.
  destruct (someSlotItem_container entityOrContainer
              (fun item => someTagIncluded (item_tags item) tags) w) as (any & Hany & Hanyiff).
  destruct (someSlotItem_container entityOrContainer
              (fun item => everyTagIncluded (item_tags item) tags) w) as (all & Hall & Halliff).
  exists any, all. split; [exact Hany|]. split; [exact Hall|].
  assert (Hslots : forall c i item,
            containerOf w entityOrContainer = Some c -> c !! i = Some item ->
            slotHasAnyTag (mkContainerSlot entityOrContainer i) tags w
            = Returned (itemHasAnyTag item tags) w
            /\ slotHasAllTags (mkContainerSlot entityOrContainer i) tags w
               = Returned (itemHasAllTags item tags) w).
  { intros c i item Hc Hlook. unfold slotHasAnyTag, slotHasAllTags.
    rewrite !(bind_Returned _ _ _ _ _ (containerSlot_getItem_runs _ _ _)), Hc.
    unfold itemAt. rewrite Hlook. destruct item; split; reflexivity. }
  split; [|split; [|exact Hslots]].
  - rewrite Hanyiff. split.
    + intros (c & i & item & Hc & Hlook & Htest).
      apply someTagIncluded_spec in Htest. destruct Htest as (tag & Htag & Hin).
      exists c, i, item, tag. repeat split; assumption.
    + intros (c & i & item & tag & Hc & Hlook & Htag & Hin).
      exists c, i, item. repeat split; try assumption.
      apply someTagIncluded_spec. exists tag. split; assumption.
  - rewrite Halliff. split.
    + intros (c & i & item & Hc & Hlook & Htest).
      exists c, i, item. repeat split; try assumption.
      apply everyTagIncluded_spec. exact Htest.
    + intros (c & i & item & Hc & Hlook & Hevery).
      exists c, i, item. repeat split; try assumption.
      apply everyTagIncluded_spec. exact Hevery.
Qed.

(** X7. The tag tests on an empty list of tags, and one against the
    other.  With no tag to look for, [containerHasAnyItemTag] is false
    whatever the container holds, while [containerHasAllItemTags] is true
    as soon as one slot holds an item.  With at least one tag, a container
    that passes the all-tags test passes the any-tag test. *)
Theorem containerHasItemTags_empty_list (entityOrContainer : ContainerOrEntity)
    (tags : list string) (w : World) :
  exists any all : bool,
    containerHasAnyItemTag entityOrContainer tags w = Returned any w
    /\ containerHasAllItemTags entityOrContainer tags w = Returned all w
    /\ (tags = [] ->
        any = false
        /\ (all = true
            <-> exists c i item,
                  containerOf w entityOrContainer = Some c /\ c !! i = Some (Some item)))
    /\ (tags <> [] -> all = true -> any = true).
Proof.
  destruct (someSlotItem_container entityOrContainer
              (fun item => someTagIncluded (item_tags item) tags) w) as (any & Hany & Hanyiff).
  destruct (someSlotItem_container entityOrContainer
              (fun item => everyTagIncluded (item_tags item) tags) w) as (all & Hall & Halliff).
  exists any, all. split; [exact Hany|]. split; [exact Hall|]. split.
  - intros ->. split.
    + destruct any; [|reflexivity].
      destruct (proj1 Hanyiff eq_refl) as (c & i & item & _ & _ & Htest). discriminate.
    + rewrite Halliff. split.
      * intros (c & i & item & Hc & Hlook & _). exists c, i, item. split; assumption.
      * intros (c & i & item & Hc & Hlook). exists c, i, item. repeat split; assumption.
  - intros Htags Hyes. apply Hanyiff.
    destruct (proj1 Halliff Hyes) as (c & i & item & Hc & Hlook & Htest).
    exists c, i, item. repeat split; try assumption.
    destruct tags as [|tag rest]; [contradiction|].
    apply someTagIncluded_spec. exists tag. split; [left; reflexivity|].
    apply (proj1 (everyTagIncluded_spec _ _) Htest). left. reflexivity.
Qed.

(** ** Room for a stack, with and without the empty slots *)

Lemma availableSpace_fold_shift (itemstack : ItemStack) (only : bool) (container : Container) :
  forall start : Z,
    fold_left
      (fun totalAvailableSpace currentSlotItem =>
         match currentSlotItem with
         | None =>
             if negb only
             then totalAvailableSpace + maxAmount itemstack
             else totalAvailableSpace
         | Some current =>
             if String.eqb (item_typeId current) (item_typeId itemstack)
             then totalAvailableSpace + (maxAmount itemstack - amount current)
             else totalAvailableSpace
         end)
      container start
    = start + getAvailableSpaceForItemStack container itemstack only.
Proof.
  unfold getAvailableSpaceForItemStack.
  induction container as [|slot rest IH]; intros start; cbn [fold_left]; [lia|].
  rewrite IH. rewrite (IH (match slot with None => _ | Some _ => _ end)).
  destruct slot as [current|].
  - destruct (String.eqb (item_typeId current) (item_typeId itemstack)); lia.
  - destruct (negb only); lia.
Qed.

Lemma availableSpace_cons (itemstack : ItemStack) (only : bool) (slot : option ItemStack)
    (rest : Container) :
  getAvailableSpaceForItemStack (slot :: rest) itemstack only
  = getAvailableSpaceForItemStack [slot] itemstack only
    + getAvailableSpaceForItemStack rest itemstack only.
Proof.
  unfold getAvailableSpaceForItemStack at 1. cbn [fold_left].
  rewrite availableSpace_fold_shift. reflexivity.
Qed.

(** X8. Room counted with and without the empty slots.  The room
    [getAvailableSpaceForItemStack] finds when empty slots count is the
    room it finds in the existing stacks alone plus one full stack for
    every empty slot; and the room of a container is the sum of the rooms
    of its parts. *)
Theorem getAvailableSpaceForItemStack_empty_slots (container : Container)
    (itemstack : ItemStack) :
  getAvailableSpaceForItemStack container itemstack false
  = getAvailableSpaceForItemStack container itemstack true
    + maxAmount itemstack * emptySlots container
  /\ (forall (left right : Container) (only : bool),
      container = left ++ right ->
      getAvailableSpaceForItemStack container itemstack only
      = getAvailableSpaceForItemStack left itemstack only
        + getAvailableSpaceForItemStack right itemstack only).
Proof.
  split.
  - induction container as [|slot rest IH];
      [unfold getAvailableSpaceForItemStack, emptySlots; cbn; lia|].
    rewrite (availableSpace_cons _ false), (availableSpace_cons _ true), IH.
    unfold emptySlots. destruct slot as [current|].
    + rewrite filter_cons_False by discriminate.
      assert (Hsame : getAvailableSpaceForItemStack [Some current] itemstack false
                      = getAvailableSpaceForItemStack [Some current] itemstack true)
        by reflexivity.
      lia.
    + rewrite filter_cons_True by reflexivity. cbn [length].
      assert (Hfull : getAvailableSpaceForItemStack [None] itemstack false
                      = maxAmount itemstack) by reflexivity.
      assert (Hnone : getAvailableSpaceForItemStack [None] itemstack true = 0)
        by reflexivity.
      lia.
  - intros left right only ->. induction left as [|slot rest IH]; [reflexivity|].
    cbn [app]. rewrite availableSpace_cons, IH, (availableSpace_cons _ _ slot rest). lia.
Qed.

(** ** Property tags *)

Lemma append_String (c : ascii) (s rest : string) :
  String c s +:+ rest = String c (s +:+ rest).
Proof. reflexivity. Qed.

Lemma append_assoc (s1 s2 s3 : string) : (s1 +:+ s2) +:+ s3 = s1 +:+ s2 +:+ s3.
Proof.
  induction s1 as [|c s1 IH]; [reflexivity|].
  rewrite !append_String, IH. reflexivity.
Qed.

Lemma prefix_append (s rest : string) : String.prefix s (s +:+ rest) = true.
Proof.
  induction s as [|c s IH]; simpl.
  - destruct rest; reflexivity.
  - destruct (ascii_dec c c) as [_|Hne]; [exact IH | contradiction].
Qed.

Lemma afterColon_append (s rest : string) :
  colonFree s = true -> afterColon (s +:+ ":" +:+ rest) = Some rest.
Proof.
  induction s as [|c s IH]; simpl; [reflexivity|].
  destruct (Ascii.eqb c ":"%char); simpl; [discriminate | exact IH].
Qed.

Lemma untilColon_colonFree (s : string) : colonFree s = true -> untilColon s = s.
Proof.
  induction s as [|c s IH]; simpl; [reflexivity|].
  destruct (Ascii.eqb c ":"%char); simpl; [discriminate|].
  intros Hfree. rewrite (IH Hfree). reflexivity.
Qed.

Lemma afterColon_colonFree (s : string) : colonFree s = true -> afterColon s = None.
Proof.
  induction s as [|c s IH]; simpl; [reflexivity|].
  destruct (Ascii.eqb c ":"%char); simpl; [discriminate | exact IH].
Qed.

Lemma find_first_match {A} (test : A -> bool) (before after : list A) (x : A) :
  Forall (fun y => test y = false) before -> test x = true ->
  find test (before ++ x :: after) = Some x.
Proof.
  intros Hbefore Hx. induction Hbefore as [|y rest Hy _ IH]; cbn.
  - rewrite Hx. reflexivity.
  - rewrite Hy. exact IH.
Qed.

Lemma find_no_match {A} (test : A -> bool) (l : list A) :
  Forall (fun y => test y = false) l -> find test l = None.
Proof.
  induction 1 as [|y rest Hy _ IH]; cbn; [reflexivity|]. rewrite Hy. exact IH.
Qed.

(** X9. Reading a property tag.  A tag is written [name:value].
    [getItemPropertyTag] answers the value of the first tag of the item
    that starts with the property name, when the text of that tag before
    its colon and the value hold no further colon; the tag may start with
    the property name without being named exactly so ([more] is then not
    empty).  It answers undefined when no tag starts with the name, and
    also when the first tag that does has no colon. *)
Theorem getItemPropertyTag_reads_first (itemStack : ItemStack)
    (propertyName more value : string) (before after : list string) :
  Forall (fun tag => String.prefix propertyName tag = false) before ->
  colonFree (propertyName +:+ more) = true ->
  (colonFree value = true ->
   item_tags itemStack = before ++ (propertyName +:+ more +:+ ":" +:+ value) :: after ->
   getItemPropertyTag itemStack propertyName = Some value)
  /\ (item_tags itemStack = before ++ (propertyName +:+ more) :: after ->
      getItemPropertyTag itemStack propertyName = None)
  /\ (item_tags itemStack = before ->
      getItemPropertyTag itemStack propertyName = None).
Proof.
  intros Hbefore Hname. unfold getItemPropertyTag. split; [|split].
  - intros Hvalue ->.
    rewrite (find_first_match _ _ _ _ Hbefore (prefix_append _ _)).
    unfold splitColon1.
    rewrite <- append_assoc.
    rewrite (afterColon_append _ _ Hname), (untilColon_colonFree _ Hvalue). reflexivity.
  - intros ->.
    rewrite (find_first_match _ _ _ _ Hbefore (prefix_append _ _)).
    unfold splitColon1. rewrite (afterColon_colonFree _ Hname). reflexivity.
  - intros ->. rewrite (find_no_match _ _ Hbefore). reflexivity.
Qed.

(** ** The random helpers *)

Lemma getRandomInt_steps (min max : Q) (w : World) :
  randomsInRange w -> (min <= max)%Q ->
  exists j : Z,
    getRandomInt min max w = Returned (inject_Z j + min)%Q (withDrawn S w)
    /\ 0 <= j
    /\ (inject_Z j + min < max + 1)%Q
    /\ (forall lo hi : Z, (min == inject_Z lo)%Q -> (max == inject_Z hi)%Q ->
        lo <= lo + j <= hi /\ (inject_Z j + min == inject_Z (lo + j))%Q).
Proof.
  intros Hrange Hle. unfold getRandomInt.
  destruct (Qlt_le_dec max min) as [Hlt|_].
  { exfalso. apply (Qlt_not_le _ _ Hlt), Hle. }
  destruct (Hrange (drawn w)) as [H0 H1].
  set (r := randoms w (drawn w)) in *.
  exists (Qfloor (r * (max - min + 1))). split; [reflexivity|].
  pose proof (Qfloor_le (r * (max - min + 1))) as Hfloor.
  assert (Hj : 0 <= Qfloor (r * (max - min + 1))).
  { change 0 with (Qfloor 0). apply Qfloor_resp_le. nra. }
  assert (Hbelow : (inject_Z (Qfloor (r * (max - min + 1))) + min < max + 1)%Q) by nra.
  split; [exact Hj|]. split; [exact Hbelow|].
  intros lo hi Hlo Hhi. split.
  - split; [lia|].
    assert (Hlt : (inject_Z (lo + Qfloor (r * (max - min + 1))) < inject_Z (hi + 1))%Q).
    { rewrite !inject_Z_plus. rewrite <- Hlo, <- Hhi. change (inject_Z 1) with 1%Q. lra. }
    rewrite <- Zlt_Qlt in Hlt. lia.
  - rewrite inject_Z_plus. lra.
Qed.

(** X10. [getRandomInt].  With [max] below [min] it throws before it
    draws.  Otherwise it draws once and returns [min] plus a whole number
    of steps [j >= 0], a value below [max + 1]; for whole bounds the value
    is a whole number from [min] to [max], both included. *)
Theorem getRandomInt_range (min max : Q) (w : World) :
  randomsInRange w ->
  ((max < min)%Q -> exists e, getRandomInt min max w = Thrown e w)
  /\ ((min <= max)%Q ->
      exists j : Z,
        getRandomInt min max w = Returned (inject_Z j + min)%Q (withDrawn S w)
        /\ 0 <= j
        /\ (inject_Z j + min < max + 1)%Q
        /\ (forall lo hi : Z, (min == inject_Z lo)%Q -> (max == inject_Z hi)%Q ->
            lo <= lo + j <= hi /\ (inject_Z j + min == inject_Z (lo + j))%Q)).
Proof.
  intros Hrange. split.
  - intros Hlt. unfold getRandomInt. destruct (Qlt_le_dec max min) as [_|Hle].
    + eexists. reflexivity.
    + exfalso. apply (Qlt_not_le _ _ Hlt), Hle.
  - apply getRandomInt_steps, Hrange.
Qed.

(** Fractions that are doubles are read as themselves, and read back. *)
Lemma fractions_as_doubles :
  toDouble (1 # 2) = 0.5%float
  /\ toDouble (3 # 2) = 1.5%float
  /\ toDouble (-7 # 4) = (-1.75)%float
  /\ (doubleValue 1.5 == 3 # 2)%Q
  /\ (doubleValue (toDouble (-7 # 4)) == -7 # 4)%Q
  /\ Math_round_double 11.5 = 12%float
  /\ Math_round_double (-2.5) = (-2)%float.
Proof. repeat split; vm_compute; reflexivity. Qed.

(** A finite double is a zero or a signed mantissa with an exponent. *)
Lemma finite_shape (x : float) :
  is_finite x = true ->
  (exists s, Prim2SF x = S754_zero s) \/ (exists s m e, Prim2SF x = S754_finite s m e).
Proof.
  unfold is_finite, is_nan, is_infinity.
  rewrite !FloatAxioms.eqb_spec, FloatAxioms.abs_spec.
  destruct (Prim2SF x) as [s|s| |s m e].
  - intros _. left. exists s. reflexivity.
  - intros H. exfalso. destruct s; vm_compute in H; discriminate.
  - intros H. exfalso. vm_compute in H. discriminate.
  - intros _. right. exists s, m, e. reflexivity.
Qed.

(** A double less itself is zero. *)
Lemma sub_self_zero (b : float) :
  is_finite b = true -> Prim2SF (b - b)%float = S754_zero false.
Proof.
  intros Hb. rewrite FloatAxioms.sub_spec.
  destruct (finite_shape b Hb) as [[s ->]|(s & m & e & ->)].
  - destruct s; reflexivity.
  - unfold SF64sub. cbn [SFsub]. rewrite Z.sub_diag. reflexivity.
Qed.

(** A finite double times zero is a zero. *)
Lemma mul_zero (r z : float) :
  is_finite r = true -> Prim2SF z = S754_zero false ->
  exists s, Prim2SF (r * z)%float = S754_zero s.
Proof.
  intros Hr Hz. rewrite FloatAxioms.mul_spec, Hz. unfold SF64mul.
  destruct (finite_shape r Hr) as [[s ->]|(s & m & e & ->)]; eexists; reflexivity.
Qed.

(** With both bounds the same double, the draw has no part in the
    result. *)
Lemma degenerate_range (r b : float) :
  is_finite r = true -> is_finite b = true ->
  doubleValue (Math_round_double ((r * (b - b) + b) * 10) / 10)%float
  = doubleValue (Math_round_double (b * 10) / 10)%float.
Proof.
  intros Hr Hb.
  destruct (mul_zero r (b - b) Hr (sub_self_zero b Hb)) as [sz Hz].
  destruct (finite_shape b Hb) as [[s Hzero]|(s & m & e & Hfinite)].
  - assert (Hb0 : b = SF2Prim (S754_zero s)).
    { rewrite <- Hzero. symmetry. apply FloatAxioms.SF2Prim_Prim2SF. }
    assert (Hsum0 : (r * (b - b) + b)%float = SF2Prim (SFadd prec emax (S754_zero sz) (S754_zero s))).
    { rewrite <- Hz, <- Hzero. fold (SF64add (Prim2SF (r * (b - b))) (Prim2SF b)).
      rewrite <- FloatAxioms.add_spec.
      symmetry. apply FloatAxioms.SF2Prim_Prim2SF. }
    rewrite Hsum0, Hb0. destruct sz, s; vm_compute; reflexivity.
  - assert (Hsum : (r * (b - b) + b)%float = b).
    { apply FloatAxioms.Prim2SF_inj. rewrite FloatAxioms.add_spec, Hz, Hfinite. reflexivity. }
    rewrite Hsum. reflexivity.
Qed.

(** X11. [getRandomFloat], as doubles have it.  With [max] below [min]
    it throws before it draws, in the world as it was.  Otherwise it
    draws once and returns.  When the two bounds are the same finite
    double, the draw, any finite double, has no part in the result: read
    as a fraction, it is that bound scaled by 10, rounded and divided by
    10, in doubles.  The result need not lie between the bounds: for 1.15
    as both bounds it is 1.2, since ten times the double 1.15 is the
    double 11.5. *)
Theorem getRandomFloat_equal_bounds (min max : float) (w : World) :
  (PrimFloat.ltb max min = true -> exists e, getRandomFloat min max w = Thrown e w)
  /\ (PrimFloat.ltb max min = false ->
      exists value : float,
        getRandomFloat min max w = Returned value (withDrawn S w)
        /\ (max = min ->
            is_finite min = true ->
            is_finite (toDouble (randoms w (drawn w))) = true ->
            doubleValue value = doubleValue (Math_round_double (min * 10) / 10)%float)).
Proof.
  unfold getRandomFloat. split.
  - intros ->. eexists. reflexivity.
  - intros ->. eexists. split; [reflexivity|].
    intros -> Hmin Hdraw. apply degenerate_range; assumption.
Qed.

(** ** Harvesting one block of a stacked plant *)

Lemma getRandomInt_bonus (fortuneLevel : Z) (w : World) :
  randomsInRange w -> 0 <= fortuneLevel ->
  exists bonus : Q,
    getRandomInt 0 (inject_Z fortuneLevel) w = Returned bonus (withDrawn S w)
    /\ 0 <= toInteger bonus <= fortuneLevel.
Proof.
  intros Hrange Hlevel.
  destruct (getRandomInt_steps 0 (inject_Z fortuneLevel) w Hrange) as (j & Hrun & Hj & _ & Hwhole).
  { change 0%Q with (inject_Z 0). rewrite <- Zle_Qle. exact Hlevel. }
  eexists. split; [exact Hrun|].
  destruct (Hwhole 0 fortuneLevel) as [Hin Heq]; [reflexivity | reflexivity |].
  unfold toInteger. rewrite (Qfloor_comp _ _ Heq), Qfloor_Z. lia.
Qed.

Lemma isBlockWithinDistance_runs (block : Block) (distance : Q) (w : World) :
  isBlockWithinDistance block distance w = Returned (withinDistance w block distance) w.
Proof. reflexivity. Qed.

Lemma harvestSinglePlant_finish (block : Block) (dropId fakeBlockId : string)
    (remainder : Z) (w : World) :
  ((if 0 <? remainder then spawnItems block dropId remainder else ret tt) ;;;
   near <- isBlockWithinDistance block 10 ;;
   if near then block_setType block fakeBlockId
   else block_setType block "minecraft:air") w
  = Returned tt
      (withCalls
         (fun cs => cs ++ (if 0 <? remainder then [SpawnItem dropId remainder block] else [])
                       ++ [SetType block (harvestedType w block fakeBlockId)])
         (withBlocks
            (fun m => <[cellKey block
                        := mkBlockData (harvestedType w block fakeBlockId) []]> m) w)).
Proof.
  unfold harvestedType.
  destruct (0 <? remainder); destruct (withinDistance w block 10) eqn:Hnear;
    unfold bind, spawnItems, block_setType, bind, emit, modify, ret;
    rewrite isBlockWithinDistance_runs;
    change (withinDistance (withCalls _ w) block 10) with (withinDistance w block 10);
    rewrite ?Hnear; unfold withCalls, withBlocks; cbn;
    rewrite <- ?app_assoc; reflexivity.
Qed.

Lemma harvestSinglePlant_runs (block : Block) (dropId fakeBlockId : string)
    (defaultQuantity : Z) (tool : ItemStack) (w : World) (c : Container) :
  randomsInRange w ->
  inventory w = Some c -> (selectedSlotIndex w < length c)%nat ->
  heldItemOf w = Some tool -> 0 <= fortuneOf tool ->
  exists bonus : Z,
    0 <= bonus <= fortuneOf tool
    /\ let quantity := defaultQuantity + bonus in
       let itemsToAdd :=
         Z.min quantity
               (getAvailableSpaceForItemStack c (newItemStack dropId quantity) false) in
       let given := withDrawn S w in
       let w2 := if 0 <? itemsToAdd then afterAddItem c dropId itemsToAdd given else given in
       harvestSinglePlant block dropId fakeBlockId defaultQuantity w
       = Returned tt
           (withCalls
              (fun cs => cs ++ (if 0 <? quantity - itemsToAdd
                                then [SpawnItem dropId (quantity - itemsToAdd) block]
                                else [])
                            ++ [SetType block (harvestedType w block fakeBlockId)])
              (withBlocks
                 (fun m => <[cellKey block
                             := mkBlockData (harvestedType w block fakeBlockId) []]> m) w2)).
Proof.
  intros Hrange Hinv Hslot Hheld Hfortune.
  assert (Hvalid : holdsValidSlot w) by (exists c; split; assumption).
  destruct (getRandomInt_bonus (fortuneOf tool) w Hrange Hfortune)
    as (bonusValue & Hbonus & Hbounds).
  exists (toInteger bonusValue). split; [exact Hbounds|]. intros quantity itemsToAdd w1 w2.
  assert (Hinv1 : inventory w1 = Some c) by exact Hinv.
  pose proof (giveEntityItems_runs (newItemStack dropId quantity) w1 c Hinv1) as Hgive.
  cbv zeta in Hgive. cbn [amount item_typeId newItemStack] in Hgive.
  fold itemsToAdd in Hgive. fold w2 in Hgive.
  unfold harvestSinglePlant.
  rewrite (bind_Returned _ _ _ _ _ (getHeldItem_runs _ Hvalid)), Hheld.
  rewrite (bind_Returned _ _ _ _ _ (getFortuneLevel_runs _ _)).
  rewrite (bind_Returned _ _ _ _ _ Hbonus).
  fold quantity.
  rewrite (bind_Returned _ _ _ _ _ Hgive).
  rewrite harvestSinglePlant_finish.
  replace (harvestedType w2 block fakeBlockId) with (harvestedType w block fakeBlockId);
    [reflexivity|].
  unfold w2. destruct (0 <? itemsToAdd); reflexivity.
Qed.

(** X12. One block of a stacked plant.  For a player who holds a tool
    whose fortune level is not negative, in a container that respects the
    stack limits, [harvestSinglePlant] draws once and returns.  The
    quantity is the default quantity, at least one, plus a bonus between
    0 and the fortune level.  The deposit is the smaller of the quantity
    and the space [getAvailableSpaceForItemStack] finds in the container:
    a positive deposit is placed by the host, which makes the player's
    container afterwards, the rest is spawned at the block, and nothing
    is lost.  The block is then set to the fake block when it lies
    within 10 of the player and to air otherwise; no other block
    changes. *)
Theorem harvestSinglePlant_yield (block : Block) (dropId fakeBlockId : string)
    (defaultQuantity : Z) (tool : ItemStack) (w : World) (c : Container) :
  (forall id, 0 <= itemMaxAmount id) ->
  randomsInRange w ->
  inventory w = Some c -> (selectedSlotIndex w < length c)%nat -> wfContainer c ->
  heldItemOf w = Some tool -> 0 <= fortuneOf tool -> 1 <= defaultQuantity ->
  exists (bonus given : Z) (w' : World),
    harvestSinglePlant block dropId fakeBlockId defaultQuantity w = Returned tt w'
    /\ 0 <= bonus <= fortuneOf tool
    /\ 0 <= given <= defaultQuantity + bonus
    /\ given = Z.min (defaultQuantity + bonus)
                     (getAvailableSpaceForItemStack
                        c (newItemStack dropId (defaultQuantity + bonus)) false)
    /\ inventory w'
       = Some (if 0 <? given then host_addItem c (newItemStack dropId given) else c)
    /\ let newType := if withinDistance w block 10 then fakeBlockId else "minecraft:air" in
       calls w'
       = calls w ++ dropCalls block (mkCropDrop dropId (defaultQuantity + bonus) given)
                 ++ [SetType block newType]
       /\ deposited (calls w') - deposited (calls w)
          + (spawned (calls w') - spawned (calls w)) = defaultQuantity + bonus
       /\ blocks w' = <[cellKey block := mkBlockData newType []]> (blocks w)
       /\ drawn w' = S (drawn w).
Proof.
  intros Hmax Hrange Hinv Hslot Hwf Hheld Hfortune Hdefault.
  destruct (harvestSinglePlant_runs block dropId fakeBlockId defaultQuantity tool w c
              Hrange Hinv Hslot Hheld Hfortune) as (bonus & Hbonus & Hrun).
  cbv zeta in Hrun.
  pose proof (availableSpace_nonneg c (newItemStack dropId (defaultQuantity + bonus)) false
                (wfContainer_fits c dropId _ Hmax Hwf)) as Havail.
  set (quantity := defaultQuantity + bonus) in *.
  set (itemsToAdd := Z.min quantity
                       (getAvailableSpaceForItemStack c (newItemStack dropId quantity) false))
    in *.
  assert (Hitems : 0 <= itemsToAdd <= quantity) by lia.
  exists bonus, itemsToAdd. eexists. split; [exact Hrun|].
  split; [exact Hbonus|]. split; [exact Hitems|]. split; [reflexivity|].
  split; [destruct (0 <? itemsToAdd); [reflexivity|exact Hinv]|].
  fold (harvestedType w block fakeBlockId).
  assert (Hcalls :
    calls (withCalls
             (fun cs => cs ++ (if 0 <? quantity - itemsToAdd
                               then [SpawnItem dropId (quantity - itemsToAdd) block]
                               else [])
                           ++ [SetType block (harvestedType w block fakeBlockId)])
             (withBlocks
                (fun m => <[cellKey block
                            := mkBlockData (harvestedType w block fakeBlockId) []]> m)
                (if 0 <? itemsToAdd
                 then afterAddItem c dropId itemsToAdd (withDrawn S w)
                 else withDrawn S w)))
    = calls w ++ dropCalls block (mkCropDrop dropId quantity itemsToAdd)
              ++ [SetType block (harvestedType w block fakeBlockId)]).
  { unfold dropCalls. cbn [dropItem dropQuantity dropGiven].
    destruct (0 <? itemsToAdd); cbn; rewrite <- ?app_assoc; reflexivity. }
  split; [exact Hcalls|]. split; [|split].
  - rewrite Hcalls, !deposited_app, !spawned_app. unfold dropCalls.
    cbn [dropItem dropQuantity dropGiven].
    destruct (Z.ltb_spec 0 itemsToAdd); destruct (Z.ltb_spec 0 (quantity - itemsToAdd));
      cbn [deposited spawned app]; lia.
  - destruct (0 <? itemsToAdd); reflexivity.
  - destruct (0 <? itemsToAdd); reflexivity.
Qed.

(** X13. A stacked plant and an empty hand.  When the selected slot of
    the player is empty, [harvestSinglePlant] throws while it reads the
    fortune level of the missing item: nothing was drawn, given, spawned
    or changed.  [harvestCrop], which reads the fortune level through
    [getDropCount], takes an empty hand for fortune level 0 instead. *)
Theorem harvestSinglePlant_empty_hand (block : Block) (dropId fakeBlockId : string)
    (defaultQuantity : Z) (w : World) :
  holdsValidSlot w -> heldItemOf w = None ->
  (exists e, harvestSinglePlant block dropId fakeBlockId defaultQuantity w = Thrown e w)
  /\ (randomsInRange w ->
      exists n w', getDropCount None w = Returned n w' /\ 1 <= n <= 4).
Proof.
  intros Hvalid Hheld. split.
  - unfold harvestSinglePlant.
    rewrite (bind_Returned _ _ _ _ _ (getHeldItem_runs _ Hvalid)), Hheld.
    eexists. reflexivity.
  - intros Hrange. destruct (getDropCount_runs None w Hrange) as (n & Hrun & Hn).
    exists n. eexists. split; [exact Hrun|]. cbn in Hn. lia.
Qed.

(** ** Column discovery always ends *)

Lemma column_height (w : World) (location : Block) (id : string) :
  forall (n : nat) (step : Z),
    maxY - (vy location + step) + 1 <= Z.of_nat n ->
    exists m : nat,
      (forall j, (j < m)%nat ->
         hasType w (raised location (step + Z.of_nat j)) id
         /\ vy location + step + Z.of_nat j <= maxY)
      /\ (maxY < vy location + step + Z.of_nat m
          \/ ~ hasType w (raised location (step + Z.of_nat m)) id).
Proof.
  induction n as [|n IH]; intros step Hn.
  - exists O. split; [intros j Hj; lia|]. left. lia.
  - destruct (Z_lt_le_dec maxY (vy location + step)) as [Habove|Hbelow].
    { exists O. split; [intros j Hj; lia|]. left. lia. }
    assert (Hdec : hasType w (raised location step) id
                   \/ ~ hasType w (raised location step) id).
    { unfold hasType. destruct (blocks w !! cellKey (raised location step)) as [d|].
      - destruct (string_dec (typeId d) id) as [Heq|Hne].
        + left. exists d. split; [reflexivity | exact Heq].
        + right. intros (d' & Hd' & Hid). congruence.
      - right. intros (d' & Hd' & _). discriminate. }
    destruct Hdec as [Hyes|Hno].
    + destruct (IH (step + 1)) as (m & Hcells & Hend); [lia|].
      exists (S m). split.
      * intros [|j] Hj.
        -- change (Z.of_nat 0) with 0. rewrite !Z.add_0_r. split; [exact Hyes | lia].
        -- replace (step + Z.of_nat (S j)) with (step + 1 + Z.of_nat j) by lia.
           destruct (Hcells j ltac:(lia)) as [Htype Hy]. split; [exact Htype | lia].
      * replace (step + Z.of_nat (S m)) with (step + 1 + Z.of_nat m) by lia.
        destruct Hend as [Hend|Hend]; [left; lia | right; exact Hend].
    + exists O. split; [intros j Hj; lia|]. right.
      change (Z.of_nat 0) with 0. rewrite Z.add_0_r. exact Hno.
Qed.

Lemma getStackedPlant_runs (w : World) (bottom : Block) (d : BlockData) :
  blocks w !! cellKey bottom = Some d ->
  exists n : nat,
    getStackedPlant bottom w
    = Returned (map (fun k => raised bottom (Z.of_nat k)) (seq 1 n)) w
    /\ (forall k, (1 <= k <= n)%nat ->
        hasType w (raised bottom (Z.of_nat k)) (typeId d)
        /\ vy bottom + Z.of_nat k <= maxY)
    /\ (maxY < vy bottom + Z.of_nat (S n)
        \/ ~ hasType w (raised bottom (Z.of_nat (S n))) (typeId d)).
Proof.
  intros Hd.
  destruct (column_height w bottom (typeId d) (Z.to_nat (maxY - vy bottom)) 1)
    as (n & Hcells & Hend); [lia|].
  exists n. split; [|split].
  - unfold getStackedPlant.
    rewrite (bind_Returned _ _ _ _ _ (block_typeId_loaded _ _ _ Hd)).
    rewrite (marchUp_column w bottom (typeId d) n _ _ _ Hcells Hend); [|lia].
    cbn [app]. f_equal. rewrite <- seq_shift, map_map. apply map_ext.
    intros j. f_equal. lia.
  - intros k Hk. destruct (Hcells (k - 1)%nat ltac:(lia)) as [Htype Hy].
    replace (1 + Z.of_nat (k - 1)) with (Z.of_nat k) in Htype by lia.
    split; [exact Htype | lia].
  - replace (Z.of_nat (S n)) with (1 + Z.of_nat n) by lia.
    destruct Hend as [Hend|Hend]; [left; lia | right; exact Hend].
Qed.

(** X14. Column discovery always ends, and where.  On a loaded block
    [getStackedPlant] returns and changes nothing, whatever the world
    holds above the block: the list is the run of cells directly above the
    block that are loaded, of the type of the block and within the build
    height, lowest first, up to the first cell that is not; it holds at
    most as many cells as lie between the block and the build height, and
    never the block itself.  On a block that is not loaded it throws at the
    first read and changes nothing. *)
Theorem getStackedPlant_stops_at_first_gap (w : World) (bottomPlant : Block) :
  (forall d, blocks w !! cellKey bottomPlant = Some d ->
   exists n : nat,
     getStackedPlant bottomPlant w
     = Returned (map (fun k => raised bottomPlant (Z.of_nat k)) (seq 1 n)) w
     /\ (forall k, (1 <= k <= n)%nat ->
         hasType w (raised bottomPlant (Z.of_nat k)) (typeId d))
     /\ (maxY < vy bottomPlant + Z.of_nat (S n)
         \/ ~ hasType w (raised bottomPlant (Z.of_nat (S n))) (typeId d))
     /\ Z.of_nat n <= Z.max 0 (maxY - vy bottomPlant)
     /\ ~ In bottomPlant (map (fun k => raised bottomPlant (Z.of_nat k)) (seq 1 n)))
  /\ (blocks w !! cellKey bottomPlant = None ->
      exists e, getStackedPlant bottomPlant w = Thrown e w).
Proof.
  split.
  - intros d Hd. destruct (getStackedPlant_runs w bottomPlant d Hd) as (n & Hrun & Hcells & Hend).
    exists n. split; [exact Hrun|]. split; [|split; [exact Hend|split]].
    + intros k Hk. apply Hcells, Hk.
    + destruct n as [|n]; [lia|]. destruct (Hcells (S n) ltac:(lia)) as [_ Hy]. lia.
    + rewrite in_map_iff. intros (k & Hk & Hin). apply in_seq in Hin.
      apply (f_equal vy) in Hk. unfold raised, addVectors in Hk. cbn in Hk. lia.
  - intros Hnone. unfold getStackedPlant, block_typeId, block_data, bind, gets.
    rewrite Hnone. eexists. reflexivity.
Qed.

(** ** What a harvest of a stacked plant leaves alone *)

Lemma keepsBlocksOutside_bind {A B} (cells : list Block) (m : M A) (k : A -> M B) :
  keepsBlocksOutside cells m -> (forall a, keepsBlocksOutside cells (k a)) ->
  keepsBlocksOutside cells (bind m k).
Proof.
  intros Hm Hk w cell Hout. specialize (Hm w cell Hout). unfold bind.
  destruct (m w) as [a w1|e w1]; cbn [finalWorld] in *.
  - rewrite (Hk a w1 cell Hout). exact Hm.
  - exact Hm.
Qed.

Lemma keepsBlocksOutside_readOnly {A} (cells : list Block) (m : M A) :
  readOnly m -> keepsBlocksOutside cells m.
Proof. intros Hm w cell _. rewrite (Hm w). reflexivity. Qed.

Lemma keepsBlocksOutside_same {A} (cells : list Block) (m : M A) :
  (forall w, blocks (finalWorld (m w)) = blocks w) -> keepsBlocksOutside cells m.
Proof. intros Hm w cell _. rewrite (Hm w). reflexivity. Qed.

Lemma cellKey_inj (a b : Vector3 Z) : cellKey a = cellKey b -> a = b.
Proof. destruct a, b. unfold cellKey. cbn. congruence. Qed.

Lemma keepsBlocksOutside_setType (cells : list Block) (block : Block) (newType : string) :
  In block cells -> keepsBlocksOutside cells (block_setType block newType).
Proof.
  intros Hin w cell Hout. cbn.
  apply lookup_insert_ne. intros Heq. apply cellKey_inj in Heq. subst. contradiction.
Qed.

Lemma keepsBlocksOutside_giveEntityItems (cells : list Block) (itemStack : ItemStack) :
  keepsBlocksOutside cells (giveEntityItems itemStack).
Proof.
  apply keepsBlocksOutside_same. intros w.
  unfold giveEntityItems, getEntityContainer, bind, gets, ret.
  destruct (inventory w) as [c|]; [|reflexivity].
  destruct (0 <? _); reflexivity.
Qed.

Lemma keepsBlocksOutside_harvestSinglePlant (cells : list Block) (block : Block)
    (dropId fakeBlockId : string) (defaultQuantity : Z) :
  In block cells ->
  keepsBlocksOutside cells (harvestSinglePlant block dropId fakeBlockId defaultQuantity).
Proof.
  intros Hin. unfold harvestSinglePlant.
  apply keepsBlocksOutside_bind.
  { apply keepsBlocksOutside_readOnly. intros w. apply getHeldItem_frame. }
  intros held. apply keepsBlocksOutside_bind.
  { apply keepsBlocksOutside_same. intros w. unfold getFortuneLevel.
    destruct held as [item|]; [|reflexivity].
    destruct (enchantments item) as [component|]; [|reflexivity].
    destruct (lookupAssoc "fortune" component); reflexivity. }
  intros fortuneLevel. apply keepsBlocksOutside_bind.
  { apply keepsBlocksOutside_same. intros w. unfold getRandomInt.
    destruct (Qlt_le_dec _ _); reflexivity. }
  intros bonus. apply keepsBlocksOutside_bind.
  { apply keepsBlocksOutside_giveEntityItems. }
  intros remainder. apply keepsBlocksOutside_bind.
  { apply keepsBlocksOutside_same. intros w. destruct (0 <? remainder); reflexivity. }
  intros _. apply keepsBlocksOutside_bind.
  { apply keepsBlocksOutside_same. intros w. reflexivity. }
  intros near. destruct near; apply keepsBlocksOutside_setType, Hin.
Qed.

Lemma keepsBlocksOutside_forEach {A} (cells : list Block) (f : A -> M unit) (l : list A) :
  (forall a, In a l -> keepsBlocksOutside cells (f a)) ->
  keepsBlocksOutside cells (forEach f l).
Proof.
  induction l as [|a rest IH]; intros Hf.
  - intros w cell _. reflexivity.
  - cbn [forEach]. apply keepsBlocksOutside_bind.
    + apply Hf. left. reflexivity.
    + intros _. apply IH. intros b Hb. apply Hf. right. exact Hb.
Qed.

Lemma getSupportBlock_cases (startBlock : Block) (w : World) :
  (exists e, getSupportBlock startBlock w = Thrown e w)
  \/ (exists w', getSupportBlock startBlock w = Returned None w' /\ blocks w' = blocks w)
  \/ (exists d support,
        blocks w !! cellKey startBlock = Some d
        /\ host_getBlockFromRay (blocks w) (block_center startBlock) (mkVector3 0 (-1) 0)
             [typeId d] = Some support
        /\ getSupportBlock startBlock w = Returned (Some support) w).
Proof.
  unfold getSupportBlock.
  destruct (blocks w !! cellKey startBlock) as [d|] eqn:Hd.
  - rewrite (bind_Returned _ _ _ _ _ (block_typeId_loaded _ _ _ Hd)).
    unfold bind, gets. cbv beta iota.
    destruct (host_getBlockFromRay (blocks w) (block_center startBlock)
                (mkVector3 0 (-1) 0) [typeId d]) as [support|] eqn:Hray.
    + right. right. exists d, support. repeat split; assumption || reflexivity.
    + right. left. eexists. split; reflexivity.
  - left. unfold block_typeId, block_data, bind, gets. rewrite Hd. eexists. reflexivity.
Qed.

(** X15. What the harvest of a stacked plant leaves alone.  Whether
    [harvestSugarcane] and [harvestBamboo] return or throw on the way, the
    only blocks they can have changed lie in the column of the support
    block the ray found, two or more cells above it.  The support block,
    the bottom block of the plant right above it, and every block outside
    that column are as they were. *)
Theorem harvestStacked_spares_bottom (block : Block) (w : World) (cell : Block) :
  (forall d support k,
     blocks w !! cellKey block = Some d ->
     host_getBlockFromRay (blocks w) (block_center block) (mkVector3 0 (-1) 0) [typeId d]
     = Some support ->
     2 <= k -> cell <> raised support k) ->
  blocks (finalWorld (harvestSugarcane block w)) !! cellKey cell = blocks w !! cellKey cell
  /\ blocks (finalWorld (harvestBamboo block w)) !! cellKey cell = blocks w !! cellKey cell.
Proof.
  intros Hcell.
  assert (Hboth : forall dropId fakeBlockId,
            blocks (finalWorld (harvestStacked block dropId fakeBlockId w)) !! cellKey cell
            = blocks w !! cellKey cell).
  { intros dropId fakeBlockId. unfold harvestStacked.
    destruct (getSupportBlock_cases block w)
      as [(e & Hthrown) | [(w' & Hnone & Hsame) | (d & support & Hd & Hray & Hfound)]].
    - unfold bind. rewrite Hthrown. reflexivity.
    - rewrite (bind_Returned _ _ _ _ _ Hnone). cbn. rewrite Hsame. reflexivity.
    - rewrite (bind_Returned _ _ _ _ _ Hfound).
      unfold block_above. unfold bind at 1. rewrite getBlock_runs.
      set (bottomPlant := mkVector3 (vx support) (vy support + 1) (vz support)).
      destruct (blocks w !! cellKey bottomPlant) as [bottomData|] eqn:Hbottom; [|reflexivity].
      destruct (getStackedPlant_runs w bottomPlant bottomData Hbottom) as (n & Hrun & _).
      rewrite (bind_Returned _ _ _ _ _ Hrun).
      apply (keepsBlocksOutside_forEach
               (map (fun k => raised bottomPlant (Z.of_nat k)) (seq 1 n))).
      + intros plant Hplant. apply keepsBlocksOutside_harvestSinglePlant. exact Hplant.
      + rewrite in_map_iff. intros (k & Hk & Hin). apply in_seq in Hin.
        apply (Hcell d support (Z.of_nat k + 1) Hd Hray); [lia|].
        rewrite <- Hk. unfold raised, addVectors, bottomPlant. cbn. f_equal; lia. }
  split; apply Hboth.
Qed.

(** ** The destroy pass *)

Lemma bind_Thrown {A B} (m : M A) (k : A -> M B) (w w' : World) (e : string) :
  m w = Thrown e w' -> bind m k w = Thrown e w'.
Proof. unfold bind. intros ->. reflexivity. Qed.

Lemma destroyedSince_refl (w w' : World) : blocks w' = blocks w -> destroyedSince w w'.
Proof. intros Hsame key. left. rewrite Hsame. reflexivity. Qed.

Lemma destroyedSince_trans (w w1 w2 : World) :
  destroyedSince w w1 -> destroyedSince w1 w2 -> destroyedSince w w2.
Proof.
  intros H1 H2 key. destruct (H2 key) as [Hsame|(Hair & d1 & Hd1 & Hlisted)].
  - rewrite Hsame. apply H1.
  - destruct (H1 key) as [Hsame1|(_ & d & Hd & Hlisted0)].
    + right. split; [exact Hair|]. exists d1. rewrite <- Hsame1. split; assumption.
    + right. split; [exact Hair|]. exists d. split; assumption.
Qed.

Lemma destroyArc_block_cases (block : option Block) (n : Z) (w : World) :
  (exists e, destroyArc_block block n w = Thrown e w)
  \/ destroyArc_block block n w = Returned n w
  \/ (exists b d,
        block = Some b /\ blocks w !! cellKey b = Some d
        /\ arrayIncludes scytheDestructable (typeId d) = true
        /\ destroyArc_block block n w
           = Returned (n + 1)
               (withCalls (fun cs => cs ++ [SetblockAirDestroy b])
                  (withBlocks (fun m => <[cellKey b := mkBlockData "minecraft:air" []]> m) w))).
Proof.
  destruct block as [b|]; [|left; eexists; reflexivity].
  unfold destroyArc_block.
  destruct (blocks w !! cellKey b) as [d|] eqn:Hd.
  - rewrite (bind_Returned _ _ _ _ _ (block_typeId_loaded _ _ _ Hd)).
    destruct (arrayIncludes scytheDestructable (typeId d)) eqn:Hlisted.
    + right. right. exists b, d. repeat split; try assumption; reflexivity.
    + right. left. reflexivity.
  - left. unfold block_typeId, block_data, bind, gets. rewrite Hd. eexists. reflexivity.
Qed.

Lemma foldM_destroyArc_block (blocksToDestroy : list (option Block)) :
  forall (n : Z) (w : World),
    exists destroyed : list Block,
      let outcome := foldM destroyArc_block blocksToDestroy n w in
      calls (finalWorld outcome) = calls w ++ map SetblockAirDestroy destroyed
      /\ inventory (finalWorld outcome) = inventory w
      /\ drawn (finalWorld outcome) = drawn w
      /\ destroyedSince w (finalWorld outcome)
      /\ (forall n' w', outcome = Returned n' w' -> n' = n + Z.of_nat (length destroyed)).
Proof.
  induction blocksToDestroy as [|block rest IH]; intros n w; cbn [foldM].
  - exists []. cbn. rewrite app_nil_r. repeat split; try reflexivity.
    + apply destroyedSince_refl. reflexivity.
    + intros n' w' Hret. injection Hret as <- _. lia.
  - destruct (destroyArc_block_cases block n w)
      as [(e & Hthrown) | [Hskip | (b & d & _ & Hd & Hlisted & Hdestroy)]].
    + exists []. unfold bind. rewrite Hthrown. cbn. rewrite app_nil_r.
      repeat split; try reflexivity.
      * apply destroyedSince_refl. reflexivity.
      * intros n' w' Hret. discriminate.
    + rewrite (bind_Returned _ _ _ _ _ Hskip). apply IH.
    + rewrite (bind_Returned _ _ _ _ _ Hdestroy).
      set (w1 := withCalls (fun cs => cs ++ [SetblockAirDestroy b])
                   (withBlocks (fun m => <[cellKey b := mkBlockData "minecraft:air" []]> m) w)).
      destruct (IH (n + 1) w1) as (destroyed & Hcalls & Hinv & Hdrawn & Hsince & Hcount).
      exists (b :: destroyed). cbv zeta in *. split; [|split; [|split; [|split]]].
      * rewrite Hcalls. cbn. rewrite <- app_assoc. reflexivity.
      * rewrite Hinv. reflexivity.
      * rewrite Hdrawn. reflexivity.
      * apply (destroyedSince_trans w w1); [|exact Hsince].
        intros key. destruct (decide (key = cellKey b)) as [->|Hne].
        -- right. split; [apply lookup_insert_eq|]. exists d. split; assumption.
        -- left. apply lookup_insert_ne. congruence.
      * intros n' w' Hret. rewrite (Hcount n' w' Hret). cbn [length]. lia.
Qed.

(** X16. The destroy pass destroys blocks of the configured types and
    nothing else.  Whether [destroyBlocksArc] returns or throws on the
    way, the inventory is as it was, no item was given or spawned, and
    every cell holds what it held or holds air where it held a block whose
    type is in the list of scythe-destructible types: a crop, a sugarcane
    or any other block is never touched by this pass.  When it returns,
    the count is the number of [setblock ... air destroy] commands it ran,
    the only host calls after the whoosh. *)
Theorem destroyBlocksArc_only_listed (arcWidth : Q) (arcRange : Z) (w : World) :
  let outcome := destroyBlocksArc arcWidth arcRange w in
  inventory (finalWorld outcome) = inventory w
  /\ deposited (calls (finalWorld outcome)) = deposited (calls w)
  /\ spawned (calls (finalWorld outcome)) = spawned (calls w)
  /\ destroyedSince w (finalWorld outcome)
  /\ (forall n w', outcome = Returned n w' ->
      exists (pitch : Q) (destroyed : list Block),
        calls w' = calls w ++ PlaySound "scythe.whoosh" (Some pitch) None
                              :: map SetblockAirDestroy destroyed
        /\ n = Z.of_nat (length destroyed)).
Proof.
  assert (Hquiet : forall destroyed : list Block,
            deposited (map SetblockAirDestroy destroyed) = 0
            /\ spawned (map SetblockAirDestroy destroyed) = 0).
  { induction destroyed as [|b rest [IHd IHs]]; split; cbn; assumption || reflexivity. }
  cbv zeta. unfold destroyBlocksArc.
  destruct (getBlocksInSweep arcWidth arcRange w) as [swept w0|e w0] eqn:Hsweep.
  - assert (Hw0 : w0 = w).
    { apply (readOnly_Returned _ _ _ _ (readOnly_getBlocksInSweep arcWidth arcRange) Hsweep). }
    subst w0. rewrite (bind_Returned _ _ _ _ _ Hsweep).
    destruct (getRandomFloat_pitch w) as (pitch & Hpitch).
    rewrite (bind_Returned _ _ _ _ _ Hpitch).
    set (w1 := withCalls (fun cs => cs ++ [PlaySound "scythe.whoosh"
                                             (Some (doubleValue pitch)) None])
                 (withDrawn S w)).
    change ((playSound "scythe.whoosh" (Some (doubleValue pitch)) None ;;;
             foldM destroyArc_block swept 0) (withDrawn S w))
      with (foldM destroyArc_block swept 0 w1).
    destruct (foldM_destroyArc_block swept 0 w1)
      as (destroyed & Hcalls & Hinv & _ & Hsince & Hcount).
    cbv zeta in *. destruct (Hquiet destroyed) as [Hdep Hspawn].
    assert (Hall : calls (finalWorld (foldM destroyArc_block swept 0 w1))
                   = calls w ++ PlaySound "scythe.whoosh" (Some (doubleValue pitch)) None
                                 :: map SetblockAirDestroy destroyed).
    { rewrite Hcalls. cbn. rewrite <- app_assoc. reflexivity. }
    split; [exact Hinv|]. split; [|split; [|split]].
    + rewrite Hall, deposited_app. cbn [deposited]. lia.
    + rewrite Hall, spawned_app. cbn [spawned]. lia.
    + apply (destroyedSince_trans w w1); [|exact Hsince].
      apply destroyedSince_refl. reflexivity.
    + intros n w' Hret. exists (doubleValue pitch), destroyed. split.
      * rewrite Hret in Hall. exact Hall.
      * rewrite (Hcount n w' Hret). lia.
  - assert (Hw0 : w0 = w).
    { pose proof (readOnly_getBlocksInSweep arcWidth arcRange w) as Hread.
      rewrite Hsweep in Hread. exact Hread. }
    subst w0. rewrite (bind_Thrown _ _ _ _ _ Hsweep). cbn [finalWorld].
    repeat split; try reflexivity.
    + apply destroyedSince_refl. reflexivity.
    + intros n w' Hret. discriminate.
Qed.

(** ** Which blocks a pass takes for a crop *)

Lemma isBlockCrop_loaded (w : World) (block : Block) (d : BlockData) :
  blocks w !! cellKey block = Some d ->
  isBlockCrop block w = Returned (arrayIncludes cropTypes (typeId d)) w.
Proof.
  intros Hd. unfold isBlockCrop.
  rewrite (bind_Returned _ _ _ _ _ (block_typeId_loaded _ _ _ Hd)). reflexivity.
Qed.

Lemma isBlockSugarcane_loaded (w : World) (block : Block) (d : BlockData) :
  blocks w !! cellKey block = Some d ->
  isBlockSugarcane block w
  = Returned (String.eqb (typeId d)
                (if reedsRegistered w then "minecraft:reeds" else "minecraft:sugarcane")) w.
Proof.
  intros Hd. unfold isBlockSugarcane, block_typeId, block_data, bind, gets, ret.
  rewrite Hd. reflexivity.
Qed.

Lemma isBlockBamboo_loaded (w : World) (block : Block) (d : BlockData) :
  blocks w !! cellKey block = Some d ->
  isBlockBamboo block w = Returned (String.eqb (typeId d) "minecraft:bamboo") w.
Proof.
  intros Hd. unfold isBlockBamboo.
  rewrite (bind_Returned _ _ _ _ _ (block_typeId_loaded _ _ _ Hd)). reflexivity.
Qed.

Lemma isBlockScytheDestructable_loaded (w : World) (block : Block) (d : BlockData) :
  blocks w !! cellKey block = Some d ->
  isBlockScytheDestructable block w
  = Returned (arrayIncludes scytheDestructable (typeId d)) w.
Proof.
  intros Hd. unfold isBlockScytheDestructable.
  rewrite (bind_Returned _ _ _ _ _ (block_typeId_loaded _ _ _ Hd)). reflexivity.
Qed.

Lemma dropIdsOfType_other (id : string) :
  arrayIncludes cropTypes id = false -> dropIdsOfType id = [].
Proof.
  unfold arrayIncludes, cropTypes, dropIdsOfType. cbn [existsb].
  destruct (String.eqb id "minecraft:wheat"); [discriminate|].
  destruct (String.eqb id "minecraft:carrots"); [discriminate|].
  destruct (String.eqb id "minecraft:potatoes"); [discriminate|].
  destruct (String.eqb id "minecraft:beetroot"); [discriminate|].
  reflexivity.
Qed.

Lemma not_ripe (value : option StateValue) :
  value <> Some (SNumber 7) -> looseEqualsNumber value 7 = false.
Proof.
  intros Hne. destruct (looseEqualsNumber value 7) eqn:Hripe; [|reflexivity].
  apply looseEqualsNumber_spec in Hripe; [contradiction | lia | lia].
Qed.

(** X17. A crop that is not ripe is left standing by the harvest pass,
    whatever the list of scythe-destructible types says.  The loop body of
    [multiHarvestArc] asks whether the block is a crop first, and a crop
    whose growth is not 7 is skipped: the count and the world are as
    before, even when the type of the crop is in the list.  The loop body of
    [destroyBlocksArc] looks at the list alone and destroys such a crop. *)
Theorem multiHarvest_block_skips_unripe_crop (block : Block) (d : BlockData)
    (processedBlockCount : Z) (w : World) :
  blocks w !! cellKey block = Some d ->
  arrayIncludes cropTypes (typeId d) = true ->
  lookupAssoc "growth" (states d) <> Some (SNumber 7) ->
  multiHarvest_block (Some block) processedBlockCount w = Returned processedBlockCount w
  /\ (arrayIncludes scytheDestructable (typeId d) = true ->
      exists w',
        destroyArc_block (Some block) processedBlockCount w
        = Returned (processedBlockCount + 1) w'
        /\ blocks w' !! cellKey block = Some (mkBlockData "minecraft:air" [])
        /\ calls w' = calls w ++ [SetblockAirDestroy block]).
Proof.
  intros Hd Hcrop Hgrowth. split.
  - unfold multiHarvest_block.
    rewrite (bind_Returned _ _ _ _ _ (isBlockCrop_loaded _ _ _ Hd)), Hcrop.
    rewrite (bind_Returned _ _ _ _ _ (isCropRipe_loaded _ _ _ Hd)), (not_ripe _ Hgrowth).
    reflexivity.
  - intros Hlisted. unfold destroyArc_block.
    rewrite (bind_Returned _ _ _ _ _ (block_typeId_loaded _ _ _ Hd)), Hlisted.
    eexists. split; [reflexivity|]. split; [apply lookup_insert_eq | reflexivity].
Qed.

(** X18. The wooden scythe does not ask whether the block is a crop.
    [WoodenScythe.onUseOn] hands the block to [harvestCrop], which tests
    the growth state alone.  Used on a loaded block whose growth is 7 and
    whose type is none of the four crops, it gives and spawns nothing: its
    one host call is [setType] with the fake block named after the block,
    whether or not the add-on defines such a block, and the inventory is
    untouched, so the tool takes no wear.  The loop body of
    [multiHarvestArc], which tests for a crop first, leaves the same block
    alone when it is no sugarcane, no bamboo and not in the list. *)
Theorem WoodenScythe_onUseOn_any_ripe_block (block : Block) (d : BlockData) (w : World) :
  holdsValidSlot w ->
  blocks w !! cellKey block = Some d ->
  lookupAssoc "growth" (states d) = Some (SNumber 7) ->
  arrayIncludes cropTypes (typeId d) = false ->
  let fake := "djc:fake_" +:+ templateText (splitColon1 (typeId d)) in
  let after := finalWorld (WoodenScythe_onUseOn block w) in
  calls after = calls w ++ [SetType block fake]
  /\ inventory after = inventory w
  /\ drawn after = drawn w
  /\ (forall n,
        typeId d <> (if reedsRegistered w then "minecraft:reeds" else "minecraft:sugarcane") ->
        typeId d <> "minecraft:bamboo" ->
        arrayIncludes scytheDestructable (typeId d) = false ->
        multiHarvest_block (Some block) n w = Returned n w).
Proof.
  intros Hvalid Hd Hgrowth Hother fake after.
  assert (Hrun : WoodenScythe_onUseOn block w
                 = block_setType block fake w).
  { unfold WoodenScythe_onUseOn, harvestCrop.
    rewrite (bind_Returned _ _ _ _ _ (getHeldItem_runs _ Hvalid)).
    rewrite (bind_Returned _ _ _ _ _ (block_typeId_loaded _ _ _ Hd)).
    rewrite (bind_Returned _ _ _ _ _ (isCropRipe_loaded _ _ _ Hd)), Hgrowth.
    cbn [looseEqualsNumber Z.eqb Pos.eqb negb].
    rewrite (bind_Returned _ _ _ _ _ (getCropDropItemId_loaded _ _ _ Hd)).
    rewrite (dropIdsOfType_other _ Hother). reflexivity. }
  unfold after. rewrite Hrun.
  split; [reflexivity|]. split; [reflexivity|]. split; [reflexivity|].
  intros n Hcane Hbamboo Hlisted. unfold multiHarvest_block.
  rewrite (bind_Returned _ _ _ _ _ (isBlockCrop_loaded _ _ _ Hd)), Hother.
  rewrite (bind_Returned _ _ _ _ _ (isBlockSugarcane_loaded _ _ _ Hd)).
  destruct (String.eqb_spec (typeId d)
              (if reedsRegistered w then "minecraft:reeds" else "minecraft:sugarcane"))
    as [Heq|_]; [contradiction|].
  rewrite (bind_Returned _ _ _ _ _ (isBlockBamboo_loaded _ _ _ Hd)).
  destruct (String.eqb_spec (typeId d) "minecraft:bamboo") as [Heq|_]; [contradiction|].
  rewrite (bind_Returned _ _ _ _ _ (isBlockScytheDestructable_loaded _ _ _ Hd)), Hlisted.
  reflexivity.
Qed.

(** ** The cells of a sweep *)

Lemma sweepOffset_bounds (horizontal : R * R) (angle : Q) (distance : Z) :
  (fst horizontal ^ 2 + snd horizontal ^ 2 = 1)%R -> 1 <= distance ->
  sweepOffset horizontal angle distance <> (0, 0)
  /\ Z.abs (fst (sweepOffset horizontal angle distance)) <= distance
  /\ Z.abs (snd (sweepOffset horizontal angle distance)) <= distance.
Proof.
  intros Hunit Hdistance. unfold sweepOffset. cbn [fst snd].
  set (theta := (Q2R angle * (PI / 180))%R).
  pose proof (sin2_cos2 theta) as Htrig. unfold Rsqr in Htrig.
  set (c := cos theta) in *. set (s := sin theta) in *.
  destruct horizontal as [hx hz]. cbn [fst snd] in *.
  assert (Hd : (1 <= IZR distance)%R) by (apply IZR_le; exact Hdistance).
  set (d := IZR distance) in *.
  set (a := ((hx * c - hz * s) * d)%R). set (b := ((hx * s + hz * c) * d)%R).
  assert (Hnorm : (a ^ 2 + b ^ 2 = d ^ 2)%R).
  { unfold a, b.
    replace (((hx * c - hz * s) * d) ^ 2 + ((hx * s + hz * c) * d) ^ 2)%R
      with ((hx ^ 2 + hz ^ 2) * (s * s + c * c) * d ^ 2)%R by ring.
    rewrite Hunit, Htrig. ring. }
  assert (Hab : (- d <= a <= d /\ - d <= b <= d)%R) by (split; nra).
  unfold Math_roundR.
  pose proof (Zfloor_bound (a + / 2)) as Ha. pose proof (Zfloor_bound (b + / 2)) as Hb.
  assert (Hrange : forall x : R, (- d <= x <= d)%R ->
            - distance <= Zfloor (x + / 2) <= distance).
  { intros x Hx. split.
    - apply Zfloor_lub. rewrite opp_IZR. fold d. lra.
    - apply Z.lt_succ_r. apply lt_IZR. rewrite succ_IZR. fold d.
      pose proof (Zfloor_bound (x + / 2)). lra. }
  split; [|split].
  - intros Heq. injection Heq as Ha0 Hb0. rewrite Ha0 in Ha. rewrite Hb0 in Hb. nra.
  - apply Z.abs_le. apply Hrange, Hab.
  - apply Z.abs_le. apply Hrange, Hab.
Qed.

Lemma areVectorsEqual_Z (a b : Vector3 Z) : areVectorsEqual a b = true <-> a = b.
Proof.
  destruct a as [ax ay az], b as [bx by' bz]. unfold areVectorsEqual. cbn.
  rewrite !andb_true_iff, !Z.eqb_eq. split.
  - intros [[-> ->] ->]. reflexivity.
  - intros Heq. injection Heq as -> -> ->. repeat split.
Qed.

Lemma someAtLocation_false (blockList : list (option Block)) (location : Vector3 Z)
    (w w' : World) :
  someAtLocation blockList location w = Returned false w' ->
  ~ In location (definedCells blockList).
Proof.
  induction blockList as [|[b|] rest IH]; cbn [someAtLocation].
  - intros _ [].
  - destruct (areVectorsEqual b location) eqn:Heq; [discriminate|].
    intros Hrest [Hhere|Hlater].
    + subst b. assert (Hsame : areVectorsEqual location location = true)
        by (apply areVectorsEqual_Z; reflexivity). congruence.
    + apply (IH Hrest). exact Hlater.
  - discriminate.
Qed.

Lemma definedCells_snoc (blockList : list (option Block)) (w : World) (cell : Vector3 Z) :
  definedCells (blockList ++ [loadedBlock w cell]) = definedCells blockList
  \/ definedCells (blockList ++ [loadedBlock w cell]) = definedCells blockList ++ [cell].
Proof.
  unfold definedCells, loadedBlock. rewrite omap_app.
  destruct (blocks w !! cellKey cell); cbn; [right; reflexivity|].
  left. apply app_nil_r.
Qed.

Lemma NoDup_snoc_In (l : list Block) (cell : Block) :
  NoDup l -> ~ In cell l -> NoDup (l ++ [cell]).
Proof.
  intros Hl Hcell. apply NoDup_app. split; [exact Hl|]. split.
  - intros x Hx Hin. apply list_elem_of_singleton in Hin. subst x.
    apply Hcell, list_elem_of_In. exact Hx.
  - apply NoDup_singleton.
Qed.

Lemma sweepSample_keeps (center : Vector3 Z) (arcRange : Z) (horizontal : R * R)
    (distance : Z) (angle : Q) (blockList blockList' : list (option Block)) (w w' : World) :
  (fst horizontal ^ 2 + snd horizontal ^ 2 = 1)%R -> 1 <= distance <= arcRange ->
  sweepSample (vx center) (vy center) (vz center) horizontal distance angle blockList w
  = Returned blockList' w' ->
  NoDup (definedCells blockList) /\ Forall (inSweep center arcRange) (definedCells blockList) ->
  NoDup (definedCells blockList') /\ Forall (inSweep center arcRange) (definedCells blockList').
Proof.
  intros Hunit Hdistance Hrun [Hnodup Hall].
  destruct (sweepOffset_bounds horizontal angle distance Hunit ltac:(lia))
    as (Hnonzero & Hdx & Hdz).
  unfold sweepSample in Hrun.
  destruct (sweepOffset horizontal angle distance) as [dx dz]. cbn [fst snd] in *.
  set (current := mkVector3 (vx center + dx) (vy center) (vz center + dz)) in *.
  set (upper := mkVector3 (vx center + dx) (vy center + 1) (vz center + dz)) in *.
  rewrite (bind_Returned _ _ _ _ _ (getBlock_runs w current)) in Hrun.
  rewrite (bind_Returned _ _ _ _ _ (getBlock_runs w upper)) in Hrun.
  apply bind_inv in Hrun. destruct Hrun as (isCurrentDuplicate & w1 & Hcurrent & Hrun).
  apply bind_inv in Hrun. destruct Hrun as (isUpperDuplicate & w2 & Hupper & Hrun).
  injection Hrun as <- _.
  assert (HinCurrent : inSweep center arcRange current).
  { unfold inSweep, current. cbn [vx vy vz]. repeat split.
    - left. reflexivity.
    - replace (vx center + dx - vx center) with dx by lia. lia.
    - replace (vz center + dz - vz center) with dz by lia. lia.
    - intros Heq. apply Hnonzero. injection Heq as Hx Hz. f_equal; lia. }
  assert (HinUpper : inSweep center arcRange upper).
  { unfold inSweep, upper. cbn [vx vy vz]. repeat split.
    - right. reflexivity.
    - replace (vx center + dx - vx center) with dx by lia. lia.
    - replace (vz center + dz - vz center) with dz by lia. lia.
    - intros Heq. apply Hnonzero. injection Heq as Hx Hz. f_equal; lia. }
  assert (Hdistinct : upper <> current).
  { unfold upper, current. intros Heq. injection Heq as Hy. lia. }
  set (afterCurrent := if isCurrentDuplicate then blockList
                       else blockList ++ [loadedBlock w current]).
  assert (Hfirst : NoDup (definedCells afterCurrent)
                   /\ Forall (inSweep center arcRange) (definedCells afterCurrent)
                   /\ (isUpperDuplicate = false -> ~ In upper (definedCells afterCurrent))).
  { unfold afterCurrent. destruct isCurrentDuplicate.
    - split; [exact Hnodup|]. split; [exact Hall|].
      intros ->. apply (someAtLocation_false _ _ _ _ Hupper).
    - pose proof (someAtLocation_false _ _ _ _ Hcurrent) as Hfresh.
      destruct (definedCells_snoc blockList w current) as [Hsame|Hsnoc].
      + rewrite Hsame. split; [exact Hnodup|]. split; [exact Hall|].
        intros ->. apply (someAtLocation_false _ _ _ _ Hupper).
      + rewrite Hsnoc. split; [apply NoDup_snoc_In; assumption|]. split.
        * apply Forall_app. split; [exact Hall|]. constructor; [exact HinCurrent | constructor].
        * intros ->. rewrite in_app_iff. intros [Hold|[Hnew|[]]].
          -- apply (someAtLocation_false _ _ _ _ Hupper). exact Hold.
          -- apply Hdistinct. symmetry. exact Hnew. }
  destruct Hfirst as (Hnodup1 & Hall1 & Hfresh1).
  destruct isUpperDuplicate.
  - change (NoDup (definedCells afterCurrent)
            /\ Forall (inSweep center arcRange) (definedCells afterCurrent)).
    split; assumption.
  - change (NoDup (definedCells (afterCurrent ++ [loadedBlock w upper]))
            /\ Forall (inSweep center arcRange)
                 (definedCells (afterCurrent ++ [loadedBlock w upper]))).
    destruct (definedCells_snoc afterCurrent w upper) as [Hsame|Hsnoc].
    + rewrite Hsame. split; assumption.
    + rewrite Hsnoc. split; [apply NoDup_snoc_In; [exact Hnodup1 | apply Hfresh1; reflexivity]|].
      apply Forall_app. split; [exact Hall1|]. constructor; [exact HinUpper | constructor].
Qed.

Lemma foldM_keeps {A S} (f : A -> S -> M S) (P : S -> Prop) (l : list A) :
  (forall a s s' w w', In a l -> f a s w = Returned s' w' -> P s -> P s') ->
  forall s s' w w', foldM f l s w = Returned s' w' -> P s -> P s'.
Proof.
  induction l as [|a rest IH]; intros Hstep s s' w w' Hrun Hs; cbn [foldM] in Hrun.
  - injection Hrun as <- _. exact Hs.
  - apply bind_inv in Hrun. destruct Hrun as (s1 & w1 & Hfirst & Hrest).
    apply (IH (fun a' s0 s0' w0 w0' Hin => Hstep a' s0 s0' w0 w0' (or_intror Hin))
              s1 s' w1 w' Hrest).
    apply (Hstep a s s1 w w1 (or_introl eq_refl) Hfirst Hs).
Qed.

Lemma sweepDistances_range (arcRange distance : Z) :
  In distance (sweepDistances arcRange) -> 1 <= distance <= arcRange.
Proof.
  unfold sweepDistances. rewrite in_map_iff. intros (k & <- & Hk).
  apply in_seq in Hk. lia.
Qed.

Lemma getBlocksInSweep_cells (arcWidth : Q) (arcRange : Z) (w w' : World)
    (blockList : list (option Block)) :
  ~ (vx (viewDirection w) == 0)%Q \/ ~ (vz (viewDirection w) == 0)%Q ->
  getBlocksInSweep arcWidth arcRange w = Returned blockList w' ->
  let center := floorVector (playerLocation w) in
  let aboveActor := mkVector3 (vx center) (vy center + 1) (vz center) in
  w' = w
  /\ exists body,
       blockList = body ++ [loadedBlock w aboveActor]
       /\ NoDup (definedCells body)
       /\ Forall (inSweep center arcRange) (definedCells body).
Proof.
  intros Hview Hrun center aboveActor.
  pose proof (readOnly_Returned _ _ _ _ (readOnly_getBlocksInSweep arcWidth arcRange) Hrun)
    as Hsame.
  split; [exact Hsame|]. subst w'.
  pose proof (horizontalView_unit _ Hview) as Hunit.
  unfold getBlocksInSweep in Hrun.
  unfold bind at 1 in Hrun. unfold gets at 1 in Hrun.
  unfold bind at 1 in Hrun. unfold gets at 1 in Hrun.
  apply bind_inv in Hrun. destruct Hrun as (body & w1 & Hbody & Hrun).
  pose proof Hbody as Hw1.
  apply (readOnly_Returned (foldM _ _ _)) in Hw1.
  2:{ apply readOnly_foldM. intros distance blockList0.
      apply readOnly_foldM. intros angle blockList1. unfold sweepSample, getBlock.
      apply readOnly_bind; [apply readOnly_gets|intros current].
      apply readOnly_bind; [apply readOnly_gets|intros upper].
      apply readOnly_bind; [apply readOnly_someAtLocation|intros isCurrentDuplicate].
      apply readOnly_bind; [apply readOnly_someAtLocation|intros isUpperDuplicate].
      apply readOnly_ret. }
  subst w1.
  rewrite (bind_Returned _ _ _ _ _ (getBlock_runs w _)) in Hrun.
  injection Hrun as <-. exists body. split.
  - rewrite floorVector_above. reflexivity.
  - refine (foldM_keeps _
              (fun l => NoDup (definedCells l)
                        /\ Forall (inSweep center arcRange) (definedCells l))
              _ _ _ _ _ _ Hbody _); [|split; constructor].
    intros distance s s' w0 w0' Hdistance Hinner Hs.
    apply sweepDistances_range in Hdistance.
    refine (foldM_keeps _
              (fun l => NoDup (definedCells l)
                        /\ Forall (inSweep center arcRange) (definedCells l))
              _ _ _ _ _ _ Hinner Hs).
    intros angle s0 s0' w2 w2' _ Hsample Hs0.
    apply (sweepSample_keeps center arcRange _ distance angle s0 s0' w2 w2' Hunit
             Hdistance Hsample Hs0).
Qed.

(** X19. The cells of a sweep, for any width and range.  For a view
    direction whose horizontal part is not zero, when [getBlocksInSweep]
    returns it has changed nothing and its list ends with the cell above
    the actor.  Every block before that one lies at the level of the
    actor's feet or one above, at most [arcRange] cells away along X and
    along Z, and never in the actor's own column; and no cell is listed
    twice, however many angles and distances round to it. *)
Theorem getBlocksInSweep_distinct_cells (arcWidth : Q) (arcRange : Z) (w w' : World)
    (blockList : list (option Block)) :
  ~ (vx (viewDirection w) == 0)%Q \/ ~ (vz (viewDirection w) == 0)%Q ->
  getBlocksInSweep arcWidth arcRange w = Returned blockList w' ->
  let center := floorVector (playerLocation w) in
  let aboveActor := mkVector3 (vx center) (vy center + 1) (vz center) in
  w' = w
  /\ NoDup (definedCells blockList)
  /\ exists body,
       blockList = body ++ [loadedBlock w aboveActor]
       /\ Forall (inSweep center arcRange) (definedCells body).
Proof.
  intros Hview Hrun center aboveActor.
  destruct (getBlocksInSweep_cells arcWidth arcRange w w' blockList Hview Hrun)
    as (Hsame & body & Hlist & Hnodup & Hall).
  fold center in Hlist, Hall. fold aboveActor in Hlist.
  split; [exact Hsame|]. split.
  - rewrite Hlist.
    destruct (definedCells_snoc body w aboveActor) as [Hsnoc|Hsnoc]; rewrite Hsnoc.
    + exact Hnodup.
    + apply NoDup_snoc_In; [exact Hnodup|].
      intros Hin. rewrite Forall_forall in Hall.
      destruct (Hall aboveActor) as (_ & _ & _ & Hcolumn).
      * apply list_elem_of_In. exact Hin.
      * apply Hcolumn. reflexivity.
  - exists body. split; assumption.
Qed.

(** ** The entities of a sweep *)

Lemma fold_left_keeps {A S} (f : S -> A -> S) (P : S -> Prop) (l : list A) :
  (forall a s, In a l -> P s -> P (f s a)) ->
  forall s, P s -> P (fold_left f l s).
Proof.
  induction l as [|a rest IH]; intros Hstep s Hs; cbn [fold_left]; [exact Hs|].
  apply IH.
  - intros a' s' Hin. apply Hstep. right. exact Hin.
  - apply Hstep; [left; reflexivity | exact Hs].
Qed.

Lemma setAdd_keeps (P : Entity -> Prop) (value : Entity) (values : list Entity) :
  P value -> NoDup values /\ Forall P values ->
  NoDup (setAdd value values) /\ Forall P (setAdd value values).
Proof.
  intros Hvalue [Hnodup Hall]. unfold setAdd.
  destruct (decide (elem_of value values)) as [Hin|Hout]; [split; assumption|].
  split.
  - apply NoDup_app. split; [exact Hnodup|]. split; [|apply NoDup_singleton].
    intros x Hx Hsingle. apply list_elem_of_singleton in Hsingle. subst x.
    apply Hout. exact Hx.
  - apply Forall_app. split; [exact Hall|]. constructor; [exact Hvalue | constructor].
Qed.

Lemma entitySample_keeps (entitiesAt : Vector3 Z -> list Entity) (player : Entity)
    (center : Vector3 Z) (arcRange : Z) (horizontal : R * R)
    (distance : Z) (angle : Q) (foundEntities : list Entity) :
  (fst horizontal ^ 2 + snd horizontal ^ 2 = 1)%R -> 1 <= distance <= arcRange ->
  NoDup foundEntities
  /\ Forall (sweptEntity entitiesAt player center arcRange) foundEntities ->
  let found' := entitySample entitiesAt player (vx center) (vy center) (vz center)
                             horizontal distance angle foundEntities in
  NoDup found' /\ Forall (sweptEntity entitiesAt player center arcRange) found'.
Proof.
  intros Hunit Hdistance Hfound. cbv zeta. unfold entitySample.
  destruct (sweepOffset_bounds horizontal angle distance Hunit ltac:(lia))
    as (Hnonzero & Hdx & Hdz).
  destruct (sweepOffset horizontal angle distance) as [dx dz]. cbn [fst snd] in *.
  set (cell := mkVector3 (vx center + dx) (vy center) (vz center + dz)).
  apply (fold_left_keeps _
           (fun found => NoDup found
                         /\ Forall (sweptEntity entitiesAt player center arcRange) found));
    [|exact Hfound].
  intros entity found Hin Hkeeps.
  destruct (String.eqb_spec (entity_id entity) (entity_id player)) as [Hplayer|Hother];
    cbn [negb]; [exact Hkeeps|].
  apply setAdd_keeps; [|exact Hkeeps].
  split; [exact Hother|]. exists cell. split; [exact Hin|]. split; [reflexivity|].
  unfold inSweep, cell. cbn [vx vy vz]. repeat split.
  - left. reflexivity.
  - replace (vx center + dx - vx center) with dx by lia. lia.
  - replace (vz center + dz - vz center) with dz by lia. lia.
  - intros Heq. apply Hnonzero. injection Heq as Hx Hz. f_equal; lia.
Qed.

(** X20. The entities of a sweep.  [getEntitiesInSweep] never throws and
    changes nothing.  For a view direction whose horizontal part is not
    zero, no entity is reported twice, the player is never reported, and
    every reported entity is one the host finds at the level of the
    player's feet in a cell at most [arcRange] cells away along X and
    along Z that is not the player's own cell: the level above, which the
    sweep for blocks reads, is not looked at.  A range below 1 reports
    nothing. *)
Theorem getEntitiesInSweep_distinct (entitiesAt : Vector3 Z -> list Entity)
    (player : Entity) (arcWidth : Q) (arcRange : Z) (w : World) :
  exists mobs : list Entity,
    getEntitiesInSweep entitiesAt player arcWidth arcRange w = Returned mobs w
    /\ (arcRange < 1 -> mobs = [])
    /\ (~ (vx (viewDirection w) == 0)%Q \/ ~ (vz (viewDirection w) == 0)%Q ->
        NoDup mobs
        /\ Forall (sweptEntity entitiesAt player (floorVector (playerLocation w)) arcRange)
                  mobs).
Proof.
  set (center := floorVector (playerLocation w)).
  exists (fold_left
            (fun found distance =>
               fold_left (fun found' angle =>
                            entitySample entitiesAt player (vx center) (vy center) (vz center)
                                         (horizontalView (viewDirection w))
                                         distance angle found')
                         (sweepAngles arcWidth) found)
            (sweepDistances arcRange) []).
  split; [reflexivity|]. split.
  - intros Hrange. unfold sweepDistances.
    replace (Z.to_nat arcRange) with O by lia. reflexivity.
  - intros Hview. pose proof (horizontalView_unit _ Hview) as Hunit.
    apply (fold_left_keeps _
             (fun found => NoDup found
                           /\ Forall (sweptEntity entitiesAt player center arcRange) found));
      [|split; constructor].
    intros distance found Hdistance Hfound.
    apply sweepDistances_range in Hdistance.
    apply (fold_left_keeps _
             (fun found => NoDup found
                           /\ Forall (sweptEntity entitiesAt player center arcRange) found));
      [|exact Hfound].
    intros angle found' _ Hfound'.
    apply (entitySample_keeps entitiesAt player center arcRange _ distance angle found'
             Hunit Hdistance Hfound').
Qed.

(** ** The fake crop and its tick *)

Lemma untilSeparator_absent (separator s : string) :
  stringIncludes separator s = false -> untilSeparator separator s = s.
Proof.
  induction s as [|c s IH]; cbn [stringIncludes untilSeparator]; intros Habsent.
  - apply orb_false_iff in Habsent. destruct Habsent as [-> _]. reflexivity.
  - apply orb_false_iff in Habsent. destruct Habsent as [-> Hrest].
    rewrite (IH Hrest). reflexivity.
Qed.

Lemma afterSeparator_here (separator s : string) :
  String.prefix separator s = true ->
  afterSeparator separator s = Some (skipChars (String.length separator) s).
Proof. intros Hprefix. destruct s; cbn [afterSeparator]; rewrite Hprefix; reflexivity. Qed.

Lemma afterSeparator_later (separator : string) (c : ascii) (rest : string) :
  String.prefix separator (String c rest) = false ->
  afterSeparator separator (String c rest) = afterSeparator separator rest.
Proof. intros Hprefix. cbn [afterSeparator]. rewrite Hprefix. reflexivity. Qed.

Lemma splitSeparator1_fake (name : string) :
  stringIncludes "fake_" name = false ->
  splitSeparator1 "fake_" ("djc:fake_" +:+ name) = Some name.
Proof.
  intros Habsent. unfold splitSeparator1.
  assert (Hafter : afterSeparator "fake_" ("djc:fake_" +:+ name) = Some name).
  { change ("djc:fake_" +:+ name)
      with (String "d" (String "j" (String "c" (String ":" ("fake_" +:+ name))))).
    rewrite !afterSeparator_later by reflexivity.
    rewrite (afterSeparator_here _ _ (prefix_append "fake_" name)). reflexivity. }
  rewrite Hafter, (untilSeparator_absent _ _ Habsent). reflexivity.
Qed.

Lemma TickBreakCrop_onTick_runs (block : Block) (d : BlockData) (w : World) :
  blocks w !! cellKey block = Some d ->
  let newType := "minecraft:" +:+ templateText (splitSeparator1 "fake_" (typeId d)) in
  TickBreakCrop_onTick block w
  = Returned tt
      (withBlocks (fun m => <[cellKey block := mkBlockData newType [("growth", SNumber 0)]]> m)
         (withCalls (fun cs => cs ++ [SetblockAirDestroy block; SetType block newType]) w)).
Proof.
  intros Hd newType. unfold TickBreakCrop_onTick.
  rewrite (bind_Returned _ _ _ _ _ (block_typeId_loaded _ _ _ Hd)). fold newType.
  set (w3 := withCalls (fun cs => cs ++ [SetType block newType])
               (withBlocks (fun m => <[cellKey block := mkBlockData newType []]> m)
                  (withCalls (fun cs => cs ++ [SetblockAirDestroy block])
                     (withBlocks
                        (fun m => <[cellKey block := mkBlockData "minecraft:air" []]> m) w)))).
  assert (Hstart :
    (modify (withBlocks (fun m => <[cellKey block := mkBlockData "minecraft:air" []]> m)) ;;;
     emit (SetblockAirDestroy block) ;;;
     block_setType block newType ;;;
     block_setState block "growth" (SNumber 0)) w
    = block_setState block "growth" (SNumber 0) w3) by reflexivity.
  rewrite Hstart. unfold block_setState.
  assert (Hdata : blocks w3 !! cellKey block = Some (mkBlockData newType []))
    by apply lookup_insert_eq.
  rewrite (bind_Returned _ _ _ _ _ (block_data_loaded _ _ _ Hdata)).
  unfold modify, w3, withBlocks, withCalls. cbn.
  rewrite !insert_insert_eq, <- app_assoc. reflexivity.
Qed.

Lemma cropTypes_names (name : string) :
  arrayIncludes cropTypes ("minecraft:" +:+ name) = true ->
  stringIncludes "fake_" name = false.
Proof.
  unfold arrayIncludes, cropTypes. cbn [existsb]. intros Hcrop.
  assert (Hcases : name = "wheat" \/ name = "carrots" \/ name = "potatoes"
                   \/ name = "beetroot").
  { change ("minecraft:" +:+ name)
      with (String "m" (String "i" (String "n" (String "e" (String "c"
             (String "r" (String "a" (String "f" (String "t" (String ":" name))))))))))
      in Hcrop.
    cbn [String.eqb Ascii.eqb Bool.eqb] in Hcrop.
    destruct (String.eqb_spec name "wheat") as [Heq|_]; [left; exact Heq|].
    destruct (String.eqb_spec name "carrots") as [Heq|_]; [right; left; exact Heq|].
    destruct (String.eqb_spec name "potatoes") as [Heq|_]; [right; right; left; exact Heq|].
    destruct (String.eqb_spec name "beetroot") as [Heq|_]; [right; right; right; exact Heq|].
    discriminate. }
  destruct Hcases as [Heq|[Heq|[Heq|Heq]]]; rewrite Heq; reflexivity.
Qed.

(** X21. The tick of a fake crop.  On a loaded block of type
    [djc:fake_<name>], where [minecraft:<name>] is one of the four crops,
    [TickBreakCrop.onTick] returns after the destroy command and one
    [setType]: the block is then [minecraft:<name>] with its growth state
    at 0, which [isCropRipe] takes for not ripe, and no other block, nor
    the inventory, has changed. *)
Theorem TickBreakCrop_onTick_replants (block : Block) (d : BlockData) (name : string)
    (w : World) :
  blocks w !! cellKey block = Some d ->
  typeId d = "djc:fake_" +:+ name ->
  arrayIncludes cropTypes ("minecraft:" +:+ name) = true ->
  exists w',
    TickBreakCrop_onTick block w = Returned tt w'
    /\ blocks w' !! cellKey block
       = Some (mkBlockData ("minecraft:" +:+ name) [("growth", SNumber 0)])
    /\ (forall key, key <> cellKey block -> blocks w' !! key = blocks w !! key)
    /\ calls w' = calls w ++ [SetblockAirDestroy block; SetType block ("minecraft:" +:+ name)]
    /\ inventory w' = inventory w
    /\ isCropRipe block w' = Returned false w'.
Proof.
  intros Hd Htype Hcrop. pose proof (cropTypes_names name Hcrop) as Habsent.
  pose proof (TickBreakCrop_onTick_runs block d w Hd) as Hrun. cbv zeta in Hrun.
  rewrite Htype, (splitSeparator1_fake _ Habsent) in Hrun. cbn [templateText] in Hrun.
  eexists. split; [exact Hrun|].
  assert (Hblock : forall m : gmap (Z * Z * Z) BlockData,
            <[cellKey block := mkBlockData ("minecraft:" +:+ name) [("growth", SNumber 0)]]> m
            !! cellKey block
            = Some (mkBlockData ("minecraft:" +:+ name) [("growth", SNumber 0)])).
  { intros m. apply lookup_insert_eq. }
  split; [apply Hblock|]. split; [|split; [reflexivity|split; [reflexivity|]]].
  - intros key Hkey. cbn. apply lookup_insert_ne. congruence.
  - match goal with
    | |- isCropRipe block ?w' = _ =>
        rewrite (isCropRipe_loaded w' block _ (Hblock _))
    end.
    reflexivity.
Qed.

Lemma keepsBlocksOutside_nil {A} (m : M A) (w : World) :
  keepsBlocksOutside [] m -> blocks (finalWorld (m w)) = blocks w.
Proof.
  intros Hm. apply map_eq. intros [[x y] z].
  apply (Hm w (mkVector3 x y z)). intros [].
Qed.

Lemma keepsBlocksOutside_getDropCount (cells : list Block) (scythe : option ItemStack) :
  keepsBlocksOutside cells (getDropCount scythe).
Proof.
  apply keepsBlocksOutside_same. intros w. unfold getDropCount.
  destruct scythe as [item|].
  - rewrite (bind_Returned _ _ _ _ _ (getFortuneLevel_runs _ _)).
    rewrite calculateDrops_runs. reflexivity.
  - unfold bind at 1, ret at 1. rewrite calculateDrops_runs. reflexivity.
Qed.

Lemma keepsBlocksOutside_harvestCrop_drop (cells : list Block) (crop : Block)
    (scythe : option ItemStack) (itemId : string) :
  keepsBlocksOutside cells (harvestCrop_drop crop scythe itemId).
Proof.
  unfold harvestCrop_drop.
  apply keepsBlocksOutside_bind; [apply keepsBlocksOutside_getDropCount|].
  intros dropQuantity. apply keepsBlocksOutside_bind.
  - destruct (0 <? _); [apply keepsBlocksOutside_giveEntityItems|].
    apply keepsBlocksOutside_same. intros w. reflexivity.
  - intros remainder. apply keepsBlocksOutside_same. intros w.
    destruct (0 <? remainder); reflexivity.
Qed.

Lemma harvestCrop_returned (crop : Block) (d : BlockData) (w w1 : World) :
  blocks w !! cellKey crop = Some d ->
  lookupAssoc "growth" (states d) = Some (SNumber 7) ->
  harvestCrop crop w = Returned tt w1 ->
  blocks w1
  = <[cellKey crop
      := mkBlockData ("djc:fake_" +:+ templateText (splitColon1 (typeId d))) []]> (blocks w).
Proof.
  intros Hd Hgrowth Hrun. unfold harvestCrop in Hrun.
  apply bind_inv in Hrun. destruct Hrun as (scythe & w0 & Hheld & Hrun).
  assert (Hw0 : w0 = w).
  { pose proof (getHeldItem_frame w) as Hframe. rewrite Hheld in Hframe. exact Hframe. }
  subst w0.
  rewrite (bind_Returned _ _ _ _ _ (block_typeId_loaded _ _ _ Hd)) in Hrun.
  rewrite (bind_Returned _ _ _ _ _ (isCropRipe_loaded _ _ _ Hd)), Hgrowth in Hrun.
  cbn [looseEqualsNumber Z.eqb Pos.eqb negb] in Hrun.
  rewrite (bind_Returned _ _ _ _ _ (getCropDropItemId_loaded _ _ _ Hd)) in Hrun.
  apply bind_inv in Hrun. destruct Hrun as ([] & w2 & Hdrops & Hset).
  assert (Hblocks : blocks w2 = blocks w).
  { pose proof (keepsBlocksOutside_nil
                  (forEach (harvestCrop_drop crop scythe) (dropIdsOfType (typeId d))) w)
      as Hkeeps.
    rewrite Hdrops in Hkeeps. apply Hkeeps.
    apply keepsBlocksOutside_forEach. intros itemId _.
    apply keepsBlocksOutside_harvestCrop_drop. }
  injection Hset as <-. cbn. rewrite Hblocks. reflexivity.
Qed.

(** X22. Harvest, then tick: the crop is replanted.  When [harvestCrop]
    has returned from a ripe block of one of the four crops, the block is
    the fake block of that crop; the tick of the fake block then puts back
    a block of the type that was harvested, with its growth state at 0,
    which [isBlockCrop] takes for a crop and [isCropRipe] for not ripe.  No
    other block differs from the world before the harvest. *)
Theorem harvestCrop_then_tick (crop : Block) (d : BlockData) (w w1 : World) :
  blocks w !! cellKey crop = Some d ->
  arrayIncludes cropTypes (typeId d) = true ->
  lookupAssoc "growth" (states d) = Some (SNumber 7) ->
  harvestCrop crop w = Returned tt w1 ->
  exists w2,
    TickBreakCrop_onTick crop w1 = Returned tt w2
    /\ blocks w2
       = <[cellKey crop := mkBlockData (typeId d) [("growth", SNumber 0)]]> (blocks w)
    /\ isBlockCrop crop w2 = Returned true w2
    /\ isCropRipe crop w2 = Returned false w2
    /\ inventory w2 = inventory w1.
Proof.
  intros Hd Hcrop Hgrowth Hrun.
  pose proof (harvestCrop_returned crop d w w1 Hd Hgrowth Hrun) as Hfake.
  assert (Hname : "minecraft:"
                  +:+ templateText
                        (splitSeparator1 "fake_"
                           ("djc:fake_" +:+ templateText (splitColon1 (typeId d))))
                  = typeId d).
  { unfold arrayIncludes, cropTypes in Hcrop. cbn [existsb] in Hcrop.
    destruct (String.eqb_spec (typeId d) "minecraft:wheat") as [->|_]; [reflexivity|].
    destruct (String.eqb_spec (typeId d) "minecraft:carrots") as [->|_]; [reflexivity|].
    destruct (String.eqb_spec (typeId d) "minecraft:potatoes") as [->|_]; [reflexivity|].
    destruct (String.eqb_spec (typeId d) "minecraft:beetroot") as [->|_]; [reflexivity|].
    discriminate. }
  assert (Hd1 : blocks w1 !! cellKey crop
                = Some (mkBlockData
                          ("djc:fake_" +:+ templateText (splitColon1 (typeId d))) [])).
  { rewrite Hfake. apply lookup_insert_eq. }
  pose proof (TickBreakCrop_onTick_runs crop _ w1 Hd1) as Htick.
  cbv zeta in Htick. cbn [typeId] in Htick. rewrite Hname in Htick.
  eexists. split; [exact Htick|].
  assert (Hblocks :
    blocks (withBlocks
              (fun m => <[cellKey crop := mkBlockData (typeId d) [("growth", SNumber 0)]]> m)
              (withCalls (fun cs => cs ++ [SetblockAirDestroy crop; SetType crop (typeId d)])
                 w1))
    = <[cellKey crop := mkBlockData (typeId d) [("growth", SNumber 0)]]> (blocks w)).
  { cbn. rewrite Hfake. apply insert_insert_eq. }
  assert (Hd2 :
    blocks (withBlocks
              (fun m => <[cellKey crop := mkBlockData (typeId d) [("growth", SNumber 0)]]> m)
              (withCalls (fun cs => cs ++ [SetblockAirDestroy crop; SetType crop (typeId d)])
                 w1)) !! cellKey crop
    = Some (mkBlockData (typeId d) [("growth", SNumber 0)])).
  { rewrite Hblocks. apply lookup_insert_eq. }
  split; [exact Hblocks|]. split; [|split; [|reflexivity]].
  - rewrite (isBlockCrop_loaded _ _ _ Hd2). cbn [typeId]. rewrite Hcrop. reflexivity.
  - rewrite (isCropRipe_loaded _ _ _ Hd2). reflexivity.
Qed.

(** ** The guards of the hit handler *)

(** X23. When the hit handler does nothing.  The [entityHitBlock]
    subscriber returns without any effect when the entity is not a player;
    and, for a player whose selected slot is a slot of the container, when
    the hand is empty, when the held item has no [scythe] tag, and when it
    is the wooden scythe, which destroys nothing around the block it
    hits. *)
Theorem onEntityHitBlock_guards (entityTypeId : string) (w : World) :
  (entityTypeId <> "minecraft:player" -> onEntityHitBlock entityTypeId w = Returned tt w)
  /\ (holdsValidSlot w ->
      (heldItemOf w = None -> onEntityHitBlock entityTypeId w = Returned tt w)
      /\ (forall item, heldItemOf w = Some item ->
          arrayIncludes (item_tags item) "scythe" = false
          \/ item_typeId item = "djc:wooden_scythe" ->
          onEntityHitBlock entityTypeId w = Returned tt w)).
Proof.
  split.
  - intros Hother. unfold onEntityHitBlock.
    destruct (String.eqb_spec entityTypeId "minecraft:player") as [Heq|_];
      [contradiction | reflexivity].
  - intros Hvalid. split.
    + intros Hheld. unfold onEntityHitBlock.
      destruct (negb (String.eqb entityTypeId "minecraft:player")); [reflexivity|].
      rewrite (bind_Returned _ _ _ _ _ (getHeldItem_runs _ Hvalid)), Hheld. reflexivity.
    + intros item Hheld Hguard. unfold onEntityHitBlock.
      destruct (negb (String.eqb entityTypeId "minecraft:player")); [reflexivity|].
      rewrite (bind_Returned _ _ _ _ _ (getHeldItem_runs _ Hvalid)), Hheld.
      rewrite (bind_Returned _ _ _ _ _ (getHeldItem_runs _ Hvalid)), Hheld.
      destruct (arrayIncludes (item_tags item) "scythe") eqn:Htag; [|reflexivity].
      destruct Hguard as [Hno|Hwooden]; [discriminate|].
      rewrite Hwooden. reflexivity.
Qed.

(** ** An entity without a container, a selection without a slot *)

(** X24. What needs a held slot throws without one.  For an entity
    without a container, and for a selected index that is not a slot of
    the container, [getHeldSlot] throws, and with it [getHeldItem],
    [setHeldItem], [clearHeldItem], [harvestCrop] on any block and the hit
    handler for a player; the world is as it was.  ([giveEntityItems]
    handles the missing container itself.) *)
Theorem getHeldSlot_without_slot (w : World) :
  inventory w = None
  \/ (exists c, inventory w = Some c /\ (length c <= selectedSlotIndex w)%nat) ->
  (exists e, getHeldSlot w = Thrown e w)
  /\ (exists e, getHeldItem w = Thrown e w)
  /\ (forall item, exists e, setHeldItem item w = Thrown e w)
  /\ (exists e, clearHeldItem w = Thrown e w)
  /\ (forall crop, exists e, harvestCrop crop w = Thrown e w)
  /\ (exists e, onEntityHitBlock "minecraft:player" w = Thrown e w).
Proof.
  intros Hcase.
  assert (Hslot : exists e, getHeldSlot w = Thrown e w).
  { unfold getHeldSlot, getEntityContainer, bind, gets, container_getSlot.
    destruct Hcase as [Hnone|(c & Hsome & Hout)].
    - rewrite Hnone. eexists. reflexivity.
    - rewrite Hsome. destruct (Nat.ltb_spec (selectedSlotIndex w) (length c)); [lia|].
      eexists. reflexivity. }
  destruct Hslot as (e & Hslot).
  assert (Hitem : getHeldItem w = Thrown e w).
  { unfold getHeldItem. apply (bind_Thrown _ _ _ _ _ Hslot). }
  split; [exists e; exact Hslot|]. split; [exists e; exact Hitem|].
  split; [|split; [|split]].
  - intros item. exists e. unfold setHeldItem. apply (bind_Thrown _ _ _ _ _ Hslot).
  - exists e. unfold clearHeldItem. apply (bind_Thrown _ _ _ _ _ Hslot).
  - intros crop. exists e. unfold harvestCrop. apply (bind_Thrown _ _ _ _ _ Hitem).
  - exists e. unfold onEntityHitBlock. cbn [String.eqb Ascii.eqb Bool.eqb negb].
    apply (bind_Thrown _ _ _ _ _ Hitem).
Qed.

(** ** The shing cues *)

Lemma getRandomInt_shing_pitch (w : World) :
  randomsInRange w ->
  exists pitch : Q,
    getRandomInt (8 # 10) (14 # 10) w = Returned pitch (withDrawn S w)
    /\ ((pitch == 8 # 10)%Q \/ (pitch == 18 # 10)%Q).
Proof.
  intros Hrange.
  destruct (getRandomInt_steps (8 # 10) (14 # 10) w Hrange) as (j & Hrun & Hj & Hbelow & _).
  { unfold Qle. simpl. lia. }
  exists (inject_Z j + (8 # 10))%Q. split; [exact Hrun|].
  assert (Hj2 : j < 2).
  { rewrite Zlt_Qlt. change (inject_Z 2) with 2%Q. lra. }
  assert (Hcases : j = 0 \/ j = 1) by lia.
  destruct Hcases as [-> | ->]; [left | right]; reflexivity.
Qed.

(** X25. The shing cues of a use.  For a scythe whose type holds the
    text [wooden] or [stone] no cue is played and nothing is drawn.  For
    any other scythe one cue is played at volume 0.4, and a second one,
    at volume 0.2, exactly when more than one block was processed and the
    draw that follows the first pitch exceeds one fifth; one value is
    drawn for that chance and one for the pitch of each cue.  The pitch
    of a cue, drawn by [getRandomInt] between 0.8 and 1.4, is 0.8 or
    1.8: it is never strictly between the two bounds, and it can lie
    above the upper one. *)
Theorem shingCues_pitches (scythe : ItemStack) (harvestAmount : Z) (w : World) :
  randomsInRange w ->
  exists (cues : list HostCall) (w' : World),
    shingCues scythe harvestAmount w = Returned tt w'
    /\ calls w' = calls w ++ cues
    /\ Forall isShingAtPitch cues
    /\ (stringIncludes "wooden" (item_typeId scythe) = true
        \/ stringIncludes "stone" (item_typeId scythe) = true ->
        cues = [] /\ w' = w)
    /\ (stringIncludes "wooden" (item_typeId scythe) = false ->
        stringIncludes "stone" (item_typeId scythe) = false ->
        (1 <= length cues <= 2)%nat
        /\ (harvestAmount <= 1 -> length cues = 1%nat)
        /\ (length cues = 2%nat
            <-> (1 # 5 < randoms w (S (drawn w)))%Q /\ 1 < harvestAmount)
        /\ drawn w' = (drawn w + 1 + length cues)%nat
        /\ (exists pitch,
              nth_error cues 0 = Some (PlaySound "scythe.shing" (Some pitch) (Some (4 # 10))))
        /\ (forall cue, nth_error cues 1 = Some cue ->
              exists pitch, cue = PlaySound "scythe.shing" (Some pitch) (Some (2 # 10)))).
Proof.
  intros Hrange. unfold shingCues.
  destruct (stringIncludes "wooden" (item_typeId scythe)) eqn:Hwooden; cbn [negb andb].
  { exists [], w. rewrite app_nil_r. repeat split; try reflexivity; try constructor.
    all: intros; discriminate. }
  destruct (stringIncludes "stone" (item_typeId scythe)) eqn:Hstone; cbn [negb andb].
  { exists [], w. rewrite app_nil_r. repeat split; try reflexivity; try constructor.
    all: intros; discriminate. }
  destruct (getRandomInt_shing_pitch w Hrange) as (pitch & Hpitch & Hvalue).
  rewrite (bind_Returned _ _ _ _ _ Hpitch).
  unfold playSound at 1. unfold emit at 1. unfold bind at 1. unfold modify at 1.
  set (w1 := withCalls (fun cs => cs ++ [PlaySound "scythe.shing" (Some pitch) (Some (4 # 10))])
               (withDrawn S w)).
  unfold bind at 1. unfold Math_random at 1.
  set (r := randoms w1 (drawn w1)).
  assert (Hfirst : isShingAtPitch (PlaySound "scythe.shing" (Some pitch) (Some (4 # 10)))).
  { exists pitch, (4 # 10). split; [reflexivity | exact Hvalue]. }
  destruct (Qlt_le_dec (1 # 5) r) as [Hchance|Hchance]; cbn [andb].
  - destruct (Z.ltb_spec 1 harvestAmount) as [Hmany|Hfew].
    + assert (Hrange2 : randomsInRange (withDrawn S w1)) by exact Hrange.
      destruct (getRandomInt_shing_pitch (withDrawn S w1) Hrange2)
        as (pitch2 & Hpitch2 & Hvalue2).
      rewrite (bind_Returned _ _ _ _ _ Hpitch2).
      exists [PlaySound "scythe.shing" (Some pitch) (Some (4 # 10));
              PlaySound "scythe.shing" (Some pitch2) (Some (2 # 10))].
      eexists. split; [reflexivity|]. split; [cbn; rewrite <- app_assoc; reflexivity|].
      split; [|split].
      * constructor; [exact Hfirst|]. constructor; [|constructor].
        exists pitch2, (2 # 10). split; [reflexivity | exact Hvalue2].
      * intros [H|H]; discriminate.
      * intros _ _. split; [cbn; lia|]. split; [intros Hle; lia|].
        split; [split; [intros _; split; [exact Hchance|exact Hmany]|reflexivity]|].
        split; [cbn; lia|].
        split; [exists pitch; reflexivity|].
        intros cue Hcue. injection Hcue as <-. exists pitch2. reflexivity.
    + exists [PlaySound "scythe.shing" (Some pitch) (Some (4 # 10))].
      eexists. split; [reflexivity|]. split; [reflexivity|]. split; [|split].
      * constructor; [exact Hfirst | constructor].
      * intros [H|H]; discriminate.
      * intros _ _. split; [cbn; lia|]. split; [reflexivity|].
        split; [split; [discriminate|intros [_ Hmany]; lia]|].
        split; [cbn; lia|].
        split; [exists pitch; reflexivity|].
        intros cue Hcue. discriminate.
  - exists [PlaySound "scythe.shing" (Some pitch) (Some (4 # 10))].
    eexists. split; [reflexivity|]. split; [reflexivity|]. split; [|split].
    + constructor; [exact Hfirst | constructor].
    + intros [H|H]; discriminate.
    + intros _ _. split; [cbn; lia|]. split; [reflexivity|].
      split; [split; [discriminate|intros [Hlt _]; exfalso; exact (Qlt_not_le _ _ Hlt Hchance)]|].
      split; [cbn; lia|].
      split; [exists pitch; reflexivity|].
      intros cue Hcue. discriminate.
Qed.

(** ** Comparing two item stacks *)

Lemma every_true_app (results : list bool) (result : bool) :
  forallb (fun r => Bool.eqb r true) (results ++ [result])
  = forallb (fun r => Bool.eqb r true) results && result.
Proof.
  rewrite forallb_app. cbn. destruct result; cbn; rewrite ?andb_true_r; reflexivity.
Qed.

Lemma every_true_option (results : list bool) (option result : bool) :
  forallb (fun r => Bool.eqb r true) (if option then results ++ [result] else results)
  = forallb (fun r => Bool.eqb r true) results && implb option result.
Proof.
  destruct option; [apply every_true_app|]. cbn [implb]. rewrite andb_true_r. reflexivity.
Qed.

(** X26. What [compareItemStacks] compares.  Its answer is true exactly
    when the two stacks have the same type and, for each option that is
    set: the same amount; the same tags in any order; the same lore lines
    in any order; the same dynamic property names in any order, with
    strictly equal values under every name.  An option object that leaves
    a field out does not compare what the field stands for; when no
    option object is passed, the dynamic properties alone are compared
    besides the type. *)
Theorem compareItemStacks_meaning (ItemHandle : Type) (stackOf : ItemHandle -> ItemStack)
    (getLore : ItemHandle -> list string) (DynamicValue : Type)
    (getDynamicPropertyIds : ItemHandle -> list string)
    (getDynamicProperty : ItemHandle -> string -> option DynamicValue)
    (strictEquals : option DynamicValue -> option DynamicValue -> bool)
    (itemStackA itemStackB : ItemHandle) (options : option CompareOptions) :
  let given := match options with Some o => o | None => defaultCompareOptions end in
  compareItemStacks ItemHandle stackOf getLore DynamicValue getDynamicPropertyIds
                    getDynamicProperty strictEquals itemStackA itemStackB options = true
  <-> item_typeId (stackOf itemStackA) = item_typeId (stackOf itemStackB)
      /\ (matchQuantity given = true ->
          amount (stackOf itemStackA) = amount (stackOf itemStackB))
      /\ (matchTags given = true ->
          Permutation (item_tags (stackOf itemStackA)) (item_tags (stackOf itemStackB)))
      /\ (matchLore given = true ->
          Permutation (getLore itemStackA) (getLore itemStackB))
      /\ (matchDynamicProperties given = true ->
          Permutation (getDynamicPropertyIds itemStackA) (getDynamicPropertyIds itemStackB)
          /\ forall propertyID, In propertyID (getDynamicPropertyIds itemStackA) ->
               strictEquals (getDynamicProperty itemStackA propertyID)
                            (getDynamicProperty itemStackB propertyID) = true).
Proof.
  intros given. unfold compareItemStacks. fold given. cbv zeta.
  rewrite every_true_app, !every_true_option.
  cbn [forallb]. rewrite andb_true_r.
  rewrite <- compareStringArrays_spec, <- (compareStringArrays_spec (getLore itemStackA)),
    <- (compareStringArrays_spec (getDynamicPropertyIds itemStackA)).
  rewrite <- forallb_forall, <- String.eqb_eq, <- Z.eqb_eq.
  rewrite <- !implb_true_iff.
  destruct (matchDynamicProperties given);
    [destruct (compareStringArrays (getDynamicPropertyIds itemStackA)
                                   (getDynamicPropertyIds itemStackB))|];
    cbn [negb implb]; rewrite ?andb_true_iff, ?Bool.eqb_true_iff;
    intuition congruence.
Qed.

(** ** The drops of a crop *)

(** X28. Every crop withholds one item.  For each of the four crop
    types the list of drop identifiers holds one or two identifiers, of
    which exactly one is a seed for [isItemSeed]: the one whose quantity
    [harvestCrop] lowers by one.  For carrots and potatoes that identifier
    is the only drop.  A block type that is no crop has no drop at all. *)
Theorem crop_drops_hold_one_seed (cropType : string) :
  (arrayIncludes cropTypes cropType = true ->
   (1 <= length (dropIdsOfType cropType) <= 2)%nat
   /\ length (List.filter isItemSeed (dropIdsOfType cropType)) = 1%nat
   /\ (cropType = "minecraft:carrots" \/ cropType = "minecraft:potatoes" ->
       List.filter isItemSeed (dropIdsOfType cropType) = dropIdsOfType cropType))
  /\ (arrayIncludes cropTypes cropType = false -> dropIdsOfType cropType = []).
Proof.
  split; [|apply dropIdsOfType_other].
  unfold arrayIncludes, cropTypes. cbn [existsb]. intros Hcrop.
  assert (Hcases : cropType = "minecraft:wheat" \/ cropType = "minecraft:carrots"
                   \/ cropType = "minecraft:potatoes" \/ cropType = "minecraft:beetroot").
  { destruct (String.eqb_spec cropType "minecraft:wheat") as [Heq|_]; [left; exact Heq|].
    destruct (String.eqb_spec cropType "minecraft:carrots") as [Heq|_];
      [right; left; exact Heq|].
    destruct (String.eqb_spec cropType "minecraft:potatoes") as [Heq|_];
      [right; right; left; exact Heq|].
    destruct (String.eqb_spec cropType "minecraft:beetroot") as [Heq|_];
      [right; right; right; exact Heq|].
    discriminate. }
  clear Hcrop.
  destruct Hcases as [Heq|[Heq|[Heq|Heq]]]; rewrite Heq; cbn.
  - repeat split; try lia. intros [H|H]; discriminate H.
  - repeat split; lia.
  - repeat split; lia.
  - repeat split; try lia. intros [H|H]; discriminate H.
Qed.

(** ** The count of a pass and the blocks of the sweep *)

Lemma foldM_count_upper (f : option Block -> Z -> M Z) (l : list (option Block)) :
  (forall b n n' w w', f b n w = Returned n' w' -> n' = n + 1 \/ (n' = n /\ w' = w)) ->
  forall n n' w w',
    foldM f l n w = Returned n' w' -> n' <= n + Z.of_nat (length l).
Proof.
  intros Hstep. induction l as [|b rest IH]; intros n n' w w' Hrun; cbn [foldM] in Hrun.
  - injection Hrun as <- _. cbn. lia.
  - apply bind_inv in Hrun. destruct Hrun as (n1 & w1 & Hfirst & Hrest).
    apply IH in Hrest. apply Hstep in Hfirst. cbn [length].
    destruct Hfirst as [->|[-> _]]; lia.
Qed.

Lemma pass_count (arcWidth : Q) (arcRange : Z) (loopBody : option Block -> Z -> M Z)
    (w w1 : World) (n : Z) :
  (forall b k k' v v', loopBody b k v = Returned k' v' -> k' = k + 1 \/ (k' = k /\ v' = v)) ->
  (blocksInSweep <- getBlocksInSweep arcWidth arcRange ;;
   pitch <- getRandomFloat 1 1.5 ;;
   playSound "scythe.whoosh" (Some (doubleValue pitch)) None ;;;
   foldM loopBody blocksInSweep 0) w = Returned n w1 ->
  exists (swept : list (option Block)) (pitch : Q),
    getBlocksInSweep arcWidth arcRange w = Returned swept w
    /\ 0 <= n <= Z.of_nat (length swept)
    /\ (n = 0 ->
        w1 = withCalls (fun cs => cs ++ [PlaySound "scythe.whoosh" (Some pitch) None])
               (withDrawn S w)).
Proof.
  intros Hstep Hrun.
  apply bind_inv in Hrun. destruct Hrun as (swept & w0 & Hsweep & Hrun).
  pose proof (readOnly_Returned _ _ _ _ (readOnly_getBlocksInSweep arcWidth arcRange) Hsweep)
    as Hw0.
  subst w0.
  destruct (getRandomFloat_pitch w) as (pitch & Hpitch).
  rewrite (bind_Returned _ _ _ _ _ Hpitch) in Hrun.
  set (w2 := withCalls (fun cs => cs ++ [PlaySound "scythe.whoosh"
                                           (Some (doubleValue pitch)) None])
               (withDrawn S w)) in *.
  change (foldM loopBody swept 0 w2 = Returned n w1) in Hrun.
  exists swept, (doubleValue pitch). split; [exact Hsweep|].
  destruct (foldM_count loopBody swept Hstep 0 n w2 w1 Hrun) as [Hlow Hzero].
  pose proof (foldM_count_upper loopBody swept Hstep 0 n w2 w1 Hrun) as Hhigh.
  split; [lia|]. intros Hn. apply Hzero. exact Hn.
Qed.

(** X29. The count of a pass.  When [multiHarvestArc] or
    [destroyBlocksArc] returns, the count is at least 0 and at most the
    number of entries of the list the sweep returned: each listed block
    counts once at most.  A count of 0 means that nothing was done: the
    world differs from the one before the pass by the whoosh and the one
    value drawn for its pitch. *)
Theorem pass_count_bounds (arcWidth : Q) (arcRange : Z) (w w1 : World) (n : Z) :
  multiHarvestArc arcWidth arcRange w = Returned n w1
  \/ destroyBlocksArc arcWidth arcRange w = Returned n w1 ->
  exists (swept : list (option Block)) (pitch : Q),
    getBlocksInSweep arcWidth arcRange w = Returned swept w
    /\ 0 <= n <= Z.of_nat (length swept)
    /\ (n = 0 ->
        w1 = withCalls (fun cs => cs ++ [PlaySound "scythe.whoosh" (Some pitch) None])
               (withDrawn S w)).
Proof.
  intros [Hrun|Hrun].
  - apply (pass_count arcWidth arcRange multiHarvest_block w w1 n); [|exact Hrun].
    intros b k k' v v'. apply multiHarvest_block_count.
  - apply (pass_count arcWidth arcRange destroyArc_block w w1 n); [|exact Hrun].
    intros b k k' v v' Hstep. apply (destroyArc_block_count b k k' v v' Hstep).
Qed.

(** ** The kinds of a block *)

(** X30. A block is of one kind at most.  On a loaded block the three
    tests of the harvest pass return and change nothing, and at most one
    of [isBlockCrop], [isBlockSugarcane] and [isBlockBamboo] is true;
    [isBlockCrop] is true exactly for the block types that have drops.
    Which block type counts as sugarcane depends on the registry alone:
    [minecraft:reeds] when that type is registered, [minecraft:sugarcane]
    otherwise. *)
Theorem block_kinds_exclusive (block : Block) (d : BlockData) (w : World) :
  blocks w !! cellKey block = Some d ->
  exists crop sugarcane bamboo : bool,
    isBlockCrop block w = Returned crop w
    /\ isBlockSugarcane block w = Returned sugarcane w
    /\ isBlockBamboo block w = Returned bamboo w
    /\ (crop = true -> sugarcane = false /\ bamboo = false)
    /\ (sugarcane = true -> bamboo = false)
    /\ (crop = true <-> dropIdsOfType (typeId d) <> [])
    /\ (sugarcane = true
        <-> typeId d = if reedsRegistered w then "minecraft:reeds" else "minecraft:sugarcane").
Proof.
  intros Hd. eexists _, _, _.
  split; [apply (isBlockCrop_loaded _ _ _ Hd)|].
  split; [apply (isBlockSugarcane_loaded _ _ _ Hd)|].
  split; [apply (isBlockBamboo_loaded _ _ _ Hd)|].
  assert (Hkinds : forall kind : string,
            arrayIncludes cropTypes kind = true ->
            kind <> "minecraft:reeds" /\ kind <> "minecraft:sugarcane"
            /\ kind <> "minecraft:bamboo" /\ dropIdsOfType kind <> []).
  { intros kind. unfold arrayIncludes, cropTypes, dropIdsOfType. cbn [existsb].
    destruct (String.eqb_spec kind "minecraft:wheat") as [Heq|_];
      [intros _; rewrite Heq; repeat split; discriminate|].
    destruct (String.eqb_spec kind "minecraft:carrots") as [Heq|_];
      [intros _; rewrite Heq; repeat split; discriminate|].
    destruct (String.eqb_spec kind "minecraft:potatoes") as [Heq|_];
      [intros _; rewrite Heq; repeat split; discriminate|].
    destruct (String.eqb_spec kind "minecraft:beetroot") as [Heq|_];
      [intros _; rewrite Heq; repeat split; discriminate|].
    discriminate. }
  split; [|split; [|split]].
  - intros Hcrop. destruct (Hkinds _ Hcrop) as (Hreeds & Hcane & Hbamboo & _).
    split.
    + destruct (String.eqb_spec (typeId d)
                  (if reedsRegistered w then "minecraft:reeds" else "minecraft:sugarcane"))
        as [Heq|_]; [|reflexivity].
      destruct (reedsRegistered w); contradiction.
    + destruct (String.eqb_spec (typeId d) "minecraft:bamboo") as [Heq|_];
        [contradiction | reflexivity].
  - intros Hcane. apply String.eqb_eq in Hcane.
    destruct (String.eqb_spec (typeId d) "minecraft:bamboo") as [Heq|_]; [|reflexivity].
    rewrite Heq in Hcane. destruct (reedsRegistered w); discriminate Hcane.
  - split.
    + intros Hcrop. apply (Hkinds _ Hcrop).
    + intros Hdrops. destruct (arrayIncludes cropTypes (typeId d)) eqn:Hcrop; [reflexivity|].
      exfalso. apply Hdrops, dropIdsOfType_other, Hcrop.
  - apply String.eqb_eq.
Qed.

End Host.

(** * The concrete host *)

Lemma evenRandoms_inRange : randomsInRange fieldWorld.
Proof. intros n. split; unfold Qle, Qlt; simpl; lia. Qed.

Lemma luckyRandoms_inRange : randomsInRange luckyWorld.
Proof. intros [|n]; split; unfold Qle, Qlt; simpl; lia. Qed.



(** * The theorems at work on the field *)

(** Witness (C8): the ripe and the young wheat of the field. *)
Lemma isCropRipe_iff_growth_7_witness :
  isCropRipe wheatCell fieldWorld = Returned true fieldWorld
  /\ isCropRipe youngWheatCell fieldWorld = Returned false fieldWorld.
Proof.
  split.
  - destruct (isCropRipe_iff_growth_7 fieldWorld wheatCell
                (mkBlockData "minecraft:wheat" [("growth", SNumber 7)]) eq_refl)
      as (ripe & Hrun & Hiff & _).
    rewrite Hrun. f_equal. apply Hiff. reflexivity.
  - destruct (isCropRipe_iff_growth_7 fieldWorld youngWheatCell
                (mkBlockData "minecraft:wheat" [("growth", SNumber 3)]) eq_refl)
      as (ripe & Hrun & _ & Hstages & _).
    rewrite Hrun. f_equal. apply (Hstages 3); [lia|reflexivity].
Defined.

(** Witness (C2): fortune level 2 with every draw one half, a base roll
    of 2 and five successes. *)
Lemma calculateDrops_range_witness :
  exists w' : World,
    calculateDrops 2 fieldWorld = Returned 7 w' /\ 1 <= 7 <= 4 + 2 * 2 /\ drawn w' = 6%nat.
Proof.
  destruct (calculateDrops_range 2 fieldWorld evenRandoms_inRange)
    as (initialDrops & additionalDrops & Hrun & _ & _ & _ & Hinitial & Hbonus & _).
  eexists. split; [|split; [lia|]].
  - rewrite Hrun, Hinitial, Hbonus. reflexivity.
  - reflexivity.
Defined.


(** Witness (C4): five wheat for the player of the field, all deposited:
    they lie in the first empty slot of the inventory afterwards; and for
    an entity without a container, all returned. *)
Lemma giveEntityItems_conserves_witness :
  giveEntityItems plainMaxAmount plainAddItem (newItemStack plainMaxAmount "minecraft:wheat" 5)
    bareWorld = Returned 5 bareWorld
  /\ exists w' : World,
       giveEntityItems plainMaxAmount plainAddItem
         (newItemStack plainMaxAmount "minecraft:wheat" 5) fieldWorld
       = Returned 0 w'
       /\ calls w' = [AddItem "minecraft:wheat" 5]
       /\ 0 + (deposited (calls w') - deposited (calls fieldWorld)) = 5
       /\ inventory w'
          = Some [Some ironScythe;
                  Some (newItemStack plainMaxAmount "minecraft:wheat" 5); None].
Proof.
  split.
  - apply (giveEntityItems_conserves plainMaxAmount plainAddItem
             (newItemStack plainMaxAmount "minecraft:wheat" 5) bareWorld);
      [simpl; lia|reflexivity].
  - destruct (giveEntityItems_conserves plainMaxAmount plainAddItem
                (newItemStack plainMaxAmount "minecraft:wheat" 5) fieldWorld
                ltac:(simpl; lia)) as [_ Hsome].
    destruct (Hsome [Some ironScythe; None; None] eq_refl)
      as (remainder & w' & Hrun & _ & Hsum & _ & Hgiven & Hinv & _).
    + split; [simpl; unfold plainMaxAmount; lia|].
      repeat constructor. simpl. discriminate.
    + assert (Hvalue : exists wc,
                giveEntityItems plainMaxAmount plainAddItem
                  (newItemStack plainMaxAmount "minecraft:wheat" 5) fieldWorld
                = Returned 0 wc
                /\ calls wc = [AddItem "minecraft:wheat" 5]).
      { eexists. split; vm_compute; reflexivity. }
      destruct Hvalue as (wc & Hc & Hcalls). rewrite Hrun in Hc. injection Hc as -> ->.
      exists wc. split; [exact Hrun|]. split; [exact Hcalls|]. split; [exact Hsum|].
      rewrite Hinv, Hgiven. reflexivity.
Defined.

(** Witness (C5): the sugarcane block of the field that has nothing
    loaded below it. *)
Lemma harvestStacked_no_support_witness :
  exists e : string,
    harvestSugarcane plainMaxAmount plainAddItem plainRay floatingCane fieldWorld
    = Thrown e
        (withCalls
           (fun cs => cs ++ [ConsoleWarn "Support block could not be found for: minecraft:reeds"])
           fieldWorld).
Proof.
  destruct (harvestStacked_no_support plainMaxAmount plainAddItem plainRay fieldWorld floatingCane
              (mkBlockData "minecraft:reeds" []) eq_refl eq_refl)
    as (_ & Hcane & _).
  exact Hcane.
Defined.

(** Looking along +Z, the rounded step ahead is one cell along +Z. *)
Lemma step_along_Z :
  Math_roundR (fst (horizontalView (mkVector3 0 0 1)%Q)) = 0
  /\ Math_roundR (snd (horizontalView (mkVector3 0 0 1)%Q)) = 1.
Proof.
  unfold horizontalView. cbn [vx vz fst snd].
  rewrite RMicromega.Q2R_0, RMicromega.Q2R_1.
  replace (0 ^ 2 + 1 ^ 2)%R with 1%R by ring. rewrite sqrt_1.
  unfold Math_roundR. split; apply Zfloor_eq; simpl; lra.
Qed.

(** Witness (C6): the player of the field looks along +Z and sweeps the
    tall grass ahead, the air above it, the sugarcane above the player:
    the step is a full step along Z and no step along X. *)
Lemma getBlocksInSweep_straight_ahead_witness :
  getBlocksInSweep 0 0 fieldWorld = Returned [Some (mkVector3 0 65 0)] fieldWorld
  /\ getBlocksInSweep 0 1 fieldWorld
     = Returned [Some (mkVector3 0 64 1); Some (mkVector3 0 65 1); Some (mkVector3 0 65 0)]
                fieldWorld.
Proof.
  destruct (getBlocksInSweep_straight_ahead fieldWorld) as [Hzero Hone].
  split; [exact Hzero|].
  destruct Hone as (Hrun & _ & _ & _ & _ & (_ & _ & _ & Hdx) & (_ & _ & Hdz & _)).
  - right. unfold Qeq. simpl. lia.
  - rewrite Hrun.
    rewrite Hdx by (unfold Qle; simpl; lia).
    rewrite Hdz by (unfold Qle; simpl; lia).
    reflexivity.
Defined.

(** Witness (C7): the scythe without a reach tag in the meadow.  The sweep
    reaches the sugarcane above the player, the use-on pass harvests its
    column and the tool comes back with 11 points of damage; the destroy
    pass finds nothing to destroy and the inventory stays as it was. *)
Lemma tool_wear_after_pass_witness :
  (exists w1 w2 : World,
     multiHarvestArc plainDestructable plainMaxAmount plainAddItem plainRay 180
       (sweepRange (plainParseInt (getItemPropertyTag bareScythe "reach"))) meadowWorld
     = Returned 1 w1
     /\ onUseOn plainDestructable plainMaxAmount plainAddItem plainRay plainParseInt
          bareScythe meadowWorld = Returned tt w2
     /\ exists worn : ItemStack,
          heldItemOf w2 = Some worn
          /\ durability worn = Some (mkDurability 11 250)
          /\ item_typeId worn = item_typeId bareScythe)
  /\ (exists w1 : World,
        destroyBlocksArc plainDestructable 180
          (sweepRange (plainParseInt (getItemPropertyTag bareScythe "reach"))) meadowWorld
        = Returned 0 w1
        /\ onEntityHitBlock plainDestructable plainParseInt "minecraft:player" meadowWorld
           = Returned tt w1
        /\ inventory w1 = inventory meadowWorld).
Proof.
  destruct (tool_wear_after_pass plainDestructable plainMaxAmount plainAddItem plainRay
              plainParseInt bareScythe (mkDurability 10 250) meadowWorld eq_refl)
    as [Huse Hhit].
  split.
  - assert (Hpass : exists w1,
              multiHarvestArc plainDestructable plainMaxAmount plainAddItem plainRay 180
                (sweepRange (plainParseInt (getItemPropertyTag bareScythe "reach"))) meadowWorld
              = Returned 1 w1 /\ holdsValidSlot w1).
    { unfold multiHarvestArc. change (sweepRange _) with 0.
      rewrite (bind_Returned _ _ _ _ _ (getBlocksInSweep_range_0 180 meadowWorld)).
      eexists. split; [vm_compute; reflexivity|].
      eexists. split; [reflexivity|simpl; lia]. }
    destruct Hpass as (w1 & Hpass & Hslot).
    destruct (Huse 1 w1 Hpass) as [Hpositive _].
    destruct (Hpositive ltac:(lia) Hslot)
      as (w2 & Hrun & c & cues & _ & _ & worn & (Hdamage & Htype & _) & _ & Hheld & _).
    exists w1, w2. split; [exact Hpass|]. split; [exact Hrun|].
    exists worn. split; [exact Hheld|]. split; [exact Hdamage|exact Htype].
  - assert (Hpass : exists w1,
              destroyBlocksArc plainDestructable 180
                (sweepRange (plainParseInt (getItemPropertyTag bareScythe "reach"))) meadowWorld
              = Returned 0 w1).
    { unfold destroyBlocksArc. change (sweepRange _) with 0.
      rewrite (bind_Returned _ _ _ _ _ (getBlocksInSweep_range_0 180 meadowWorld)).
      eexists. vm_compute. reflexivity. }
    destruct Hpass as (w1 & Hpass).
    destruct (Hhit ltac:(eexists; split; [reflexivity|simpl; lia]) eq_refl eq_refl
                ltac:(discriminate) 0 w1 Hpass) as [_ Hzero].
    destruct (Hzero eq_refl) as (Hrun & Hinv & _).
    exists w1. split; [exact Hpass|]. split; [exact Hrun|exact Hinv].
Defined.

(** Witness (C10): the young wheat of the field. *)
Lemma harvestCrop_unripe_noop_witness :
  harvestCrop plainMaxAmount plainAddItem youngWheatCell fieldWorld = Returned tt fieldWorld.
Proof.
  apply (harvestCrop_unripe_noop plainMaxAmount plainAddItem fieldWorld youngWheatCell
           (mkBlockData "minecraft:wheat" [("growth", SNumber 3)]) eq_refl).
  - discriminate.
  - exists [Some ironScythe; None; None]. split; [reflexivity|simpl; lia].
Defined.

(** ** Where the specification and the scripts part *)

(** C1, on the three-block sugarcane column of the field: discovery from
    the bottom cell returns the two cells above it, lowest first, and not
    the bottom cell. *)
Theorem getStackedPlant_omits_bottom :
  isColumn fieldWorld caneBottom "minecraft:reeds" 3
  /\ columnEnds fieldWorld caneBottom "minecraft:reeds" 3
  /\ vy caneBottom + 2 <= maxY
  /\ getStackedPlant caneBottom fieldWorld
     = Returned [mkVector3 0 65 0; mkVector3 0 66 0] fieldWorld.
Proof.
  assert (Hcolumn : isColumn fieldWorld caneBottom "minecraft:reeds" 3).
  { intros k Hk. exists (mkBlockData "minecraft:reeds" []).
    destruct k as [|[|[|k]]]; [split; reflexivity..|lia]. }
  assert (Hends : columnEnds fieldWorld caneBottom "minecraft:reeds" 3).
  { right. intros (d & Hd & Hid). vm_compute in Hd. injection Hd as <-. discriminate. }
  split; [exact Hcolumn|]. split; [exact Hends|]. split; [unfold maxY; simpl; lia|].
  rewrite (getStackedPlant_column fieldWorld caneBottom "minecraft:reeds" 2 Hcolumn
             ltac:(unfold maxY; simpl; lia) Hends).
  reflexivity.
Qed.

(** Counterexample (C2): the stated bound fails at fortune level 1.  A
    first draw of 9/10 gives a base roll of 2, four draws of 0 give four
    successes, and the count 6 exceeds 4 + 1. *)
Lemma calculateDrops_exceeds_4_plus_f :
  randomsInRange luckyWorld
  /\ 0 <= 1 <= 3
  /\ calculateDrops 1 luckyWorld
     = Returned 6 (withDrawn (fun n => (n + 5)%nat) luckyWorld)
  /\ ~ (1 <= 6 <= 4 + 1).
Proof.
  split; [exact luckyRandoms_inRange|]. split; [lia|]. split; [|lia].
  rewrite calculateDrops_runs. reflexivity.
Qed.

(** * The vector round trip on doubles *)

Lemma digits2_pos_log2 (m : positive) : Z.pos (digits2_pos m) = Z.log2 (Z.pos m) + 1.
Proof.
  assert (Hsize : forall p, digits2_pos p = Pos.size p).
  { induction p as [p IH|p IH|]; simpl; congruence. }
  rewrite Hsize. destruct m; simpl; lia.
Qed.

Lemma valid_finite (m : positive) (e : Z) :
  bounded prec emax m e = true ->
  fexp prec emax (Z.pos (digits2_pos m) + e) = e /\ e <= emax - prec /\ unitExponent <= e.
Proof.
  unfold bounded, canonical_mantissa. intros H.
  apply andb_prop in H as [Hc Hb]. apply Z.eqb_eq in Hc. apply Z.leb_le in Hb.
  split; [exact Hc|]. split; [exact Hb|].
  rewrite <- Hc. unfold fexp, unitExponent. lia.
Qed.

Lemma same_units_same_float (m1 m2 : positive) (e1 e2 : Z) :
  bounded prec emax m1 e1 = true -> bounded prec emax m2 e2 = true ->
  Z.pos m1 * 2 ^ (e1 - unitExponent) = Z.pos m2 * 2 ^ (e2 - unitExponent) ->
  m1 = m2 /\ e1 = e2.
Proof.
  intros H1 H2 Hv.
  apply valid_finite in H1 as (Hc1 & _ & He1). apply valid_finite in H2 as (Hc2 & _ & He2).
  assert (Hlog : Z.log2 (Z.pos m1) + e1 = Z.log2 (Z.pos m2) + e2).
  { apply (f_equal Z.log2) in Hv. rewrite !Z.log2_mul_pow2 in Hv by lia. lia. }
  assert (He : e1 = e2).
  { rewrite <- Hc1, <- Hc2, !digits2_pos_log2. f_equal. lia. }
  subst e2. split; [|reflexivity].
  apply Z.mul_cancel_r in Hv; [congruence|].
  apply Z.pow_nonzero; lia.
Qed.

Lemma iter_xO_pow (m d : positive) : Z.pos (Pos.iter xO m d) = Z.pos m * 2 ^ Z.pos d.
Proof.
  induction d as [|d IH] using Pos.peano_ind.
  - simpl. lia.
  - rewrite Pos.iter_succ, Pos2Z.inj_succ, Z.pow_succ_r by lia.
    rewrite Pos2Z.inj_xO, IH. lia.
Qed.

Lemma shl_align_units (m : positive) (e e' : Z) :
  e' <= e -> Z.pos (fst (shl_align m e e')) = Z.pos m * 2 ^ (e - e').
Proof.
  intros Hle. unfold shl_align. destruct (e' - e) as [|d|d] eqn:Hd; cbn [fst].
  - replace (e - e') with 0 by lia. simpl. lia.
  - lia.
  - rewrite iter_xO_pow. f_equal. f_equal. lia.
Qed.

Lemma iter_pos_nat {A} (f : A -> A) (p : positive) (x : A) :
  SpecFloat.iter_pos f p x = Nat.iter (Pos.to_nat p) f x.
Proof.
  revert x. induction p as [p IH|p IH|]; intros x; cbn [SpecFloat.iter_pos].
  - rewrite !IH, Pos2Nat.inj_xI.
    replace (S (2 * Pos.to_nat p)) with (Pos.to_nat p + (Pos.to_nat p + 1))%nat by lia.
    rewrite !Nat.iter_add. reflexivity.
  - rewrite !IH, Pos2Nat.inj_xO.
    replace (2 * Pos.to_nat p)%nat with (Pos.to_nat p + Pos.to_nat p)%nat by lia.
    rewrite Nat.iter_add. reflexivity.
  - reflexivity.
Qed.

Lemma shiftl_nat_pow (m : positive) (n : nat) :
  Z.pos (Pos.shiftl_nat m n) = Z.pos m * 2 ^ Z.of_nat n.
Proof.
  induction n as [|n IH].
  - simpl. lia.
  - cbn [Pos.shiftl_nat nat_rect]. fold (Pos.shiftl_nat m n).
    rewrite Pos2Z.inj_xO, IH, Nat2Z.inj_succ, Z.pow_succ_r by lia. lia.
Qed.

Lemma shr_1_exact (n : nat) (m : positive) :
  Nat.iter n shr_1 (Build_shr_record (Z.pos (Pos.shiftl_nat m n)) false false)
  = Build_shr_record (Z.pos m) false false.
Proof.
  induction n as [|n IH].
  - reflexivity.
  - rewrite Nat.iter_succ_r. exact IH.
Qed.

Lemma shr_exact (m p : positive) (e k : Z) :
  0 <= k -> Z.pos p = Z.pos m * 2 ^ k ->
  shr (Build_shr_record (Z.pos p) false false) e k
  = (Build_shr_record (Z.pos m) false false, e + k).
Proof.
  intros Hk Hp. unfold shr. destruct k as [|q|q].
  - f_equal; [|lia]. f_equal. rewrite Hp. lia.
  - f_equal. rewrite iter_pos_nat.
    replace p with (Pos.shiftl_nat m (Pos.to_nat q)); [apply shr_1_exact|].
    apply Pos2Z.inj. rewrite shiftl_nat_pow, positive_nat_Z. symmetry. exact Hp.
  - lia.
Qed.

(** [binary_round] returns the valid float that has the same value. *)
Lemma binary_round_exact (s : bool) (p m : positive) (e e' : Z) :
  bounded prec emax m e' = true ->
  unitExponent <= e ->
  Z.pos p * 2 ^ (e - unitExponent) = Z.pos m * 2 ^ (e' - unitExponent) ->
  binary_round prec emax s p e = S754_finite s m e'.
Proof.
  intros Hvalid He Hv.
  destruct (valid_finite m e' Hvalid) as (Hcanon & Hmax & Hmin).
  assert (Hdigits : Z.pos (digits2_pos p) + e = Z.pos (digits2_pos m) + e').
  { rewrite !digits2_pos_log2. apply (f_equal Z.log2) in Hv.
    rewrite !Z.log2_mul_pow2 in Hv by lia. lia. }
  unfold binary_round. rewrite Hdigits, Hcanon.
  destruct (Z_lt_le_dec e' e) as [Hlt|Hle].
  - (* the mantissa is shifted left to the canonical exponent *)
    assert (Hm : Z.pos (fst (shl_align p e e')) = Z.pos m).
    { rewrite shl_align_units by lia.
      replace (e - unitExponent) with ((e - e') + (e' - unitExponent)) in Hv by lia.
      rewrite Z.pow_add_r, Z.mul_assoc in Hv by lia.
      apply Z.mul_cancel_r in Hv; [exact Hv|]. apply Z.pow_nonzero; lia. }
    assert (Hsnd : snd (shl_align p e e') = e').
    { unfold shl_align. destruct (e' - e) eqn:Hd; try lia. reflexivity. }
    destruct (shl_align p e e') as [mz ez]. cbn [fst snd] in Hm, Hsnd. subst ez.
    injection Hm as ->.
    unfold binary_round_aux, shr_fexp. cbn [Zdigits2 shr_record_of_loc].
    rewrite Hcanon, Z.sub_diag. cbn [shr shr_m loc_of_shr_record round_nearest_even].
    cbn [Zdigits2 shr_record_of_loc]. rewrite Hcanon, Z.sub_diag. cbn [shr shr_m].
    apply Z.leb_le in Hmax. rewrite Hmax. reflexivity.
  - (* the mantissa is shifted right, losing only zero bits *)
    assert (Hp : Z.pos p = Z.pos m * 2 ^ (e' - e)).
    { replace (e' - unitExponent) with ((e' - e) + (e - unitExponent)) in Hv by lia.
      rewrite Z.pow_add_r, Z.mul_assoc in Hv by lia.
      apply Z.mul_cancel_r in Hv; [exact Hv|]. apply Z.pow_nonzero; lia. }
    assert (Halign : shl_align p e e' = (p, e)).
    { unfold shl_align. destruct (e' - e) eqn:Hd; try lia; reflexivity. }
    rewrite Halign.
    unfold binary_round_aux, shr_fexp. cbn [Zdigits2 shr_record_of_loc].
    rewrite Hdigits, Hcanon.
    rewrite (shr_exact m p e (e' - e) ltac:(lia) Hp).
    replace (e + (e' - e)) with e' by lia.
    cbn [shr_m loc_of_shr_record round_nearest_even].
    cbn [Zdigits2 shr_record_of_loc]. rewrite Hcanon, Z.sub_diag. cbn [shr shr_m].
    apply Z.leb_le in Hmax. rewrite Hmax. reflexivity.
Qed.

Lemma some_eq {A} (a b : A) : Some a = Some b -> a = b.
Proof. congruence. Qed.

Lemma SFeqb_same (x : spec_float) :
  SFunits x <> None -> SFeqb x x = true.
Proof.
  destruct x as [s|s| |s m e]; cbn [SFunits]; intros Hx; try congruence.
  - reflexivity.
  - unfold SFeqb, SFcompare.
    destruct s; rewrite Z.compare_refl, Pos.compare_cont_refl; reflexivity.
Qed.

Lemma finite_units_sign (s : bool) (m : positive) (e : Z) :
  unitExponent <= e ->
  let u := cond_Zopp s (Z.pos m * 2 ^ (e - unitExponent)) in
  u <> 0 /\ (s = true <-> u < 0).
Proof.
  intros He u. assert (0 < Z.pos m * 2 ^ (e - unitExponent)).
  { apply Z.mul_pos_pos; [lia|]. apply Z.pow_pos_nonneg; lia. }
  subst u. destruct s; unfold cond_Zopp; split; try lia; split; intros; try lia; try discriminate; reflexivity.
Qed.

(** A valid float is determined by its value, up to the sign of zero. *)
Lemma same_units_SFeqb (x t : spec_float) (u : Z) :
  valid_binary x = true -> valid_binary t = true ->
  SFunits x = Some u -> SFunits t = Some u -> SFeqb x t = true.
Proof.
  intros Hx Ht Hux Hut.
  destruct x as [sx|sx| |sx mx ex]; cbn [SFunits] in Hux; try discriminate;
    destruct t as [st|st| |st mt et]; cbn [SFunits] in Hut; try discriminate.
  - reflexivity.
  - exfalso. cbn [valid_binary] in Ht. apply valid_finite in Ht as (_ & _ & He).
    destruct (finite_units_sign st mt et He) as [Hne _]. congruence.
  - exfalso. cbn [valid_binary] in Hx. apply valid_finite in Hx as (_ & _ & He).
    destruct (finite_units_sign sx mx ex He) as [Hne _]. congruence.
  - cbn [valid_binary] in Hx, Ht.
    destruct (valid_finite _ _ Hx) as (_ & _ & Hex).
    destruct (valid_finite _ _ Ht) as (_ & _ & Het).
    destruct (finite_units_sign sx mx ex Hex) as [_ Hsx].
    destruct (finite_units_sign st mt et Het) as [_ Hst].
    apply some_eq in Hux, Hut.
    assert (Hs : sx = st).
    { destruct sx, st; try reflexivity; exfalso.
      - assert (u < 0) by (rewrite <- Hux; apply Hsx; reflexivity).
        assert (~ u < 0) by (rewrite <- Hut; intros Hneg; apply Hst in Hneg; discriminate).
        contradiction.
      - assert (u < 0) by (rewrite <- Hut; apply Hst; reflexivity).
        assert (~ u < 0) by (rewrite <- Hux; intros Hneg; apply Hsx in Hneg; discriminate).
        contradiction. }
    subst st.
    assert (Hv : Z.pos mx * 2 ^ (ex - unitExponent) = Z.pos mt * 2 ^ (et - unitExponent)).
    { destruct sx; unfold cond_Zopp in Hux, Hut; lia. }
    destruct (same_units_same_float _ _ _ _ Hx Ht Hv) as [-> ->].
    apply SFeqb_same. discriminate.
Qed.

(** The difference of two valid floats, when a valid float has exactly
    that value, is that float. *)
Lemma SFsub_exact (x y t : spec_float) (ux uy : Z) :
  valid_binary x = true -> valid_binary y = true -> valid_binary t = true ->
  SFunits x = Some ux -> SFunits y = Some uy -> SFunits t = Some (ux - uy) ->
  SFeqb (SFsub prec emax x y) t = true.
Proof.
  intros Hx Hy Ht Hux Huy Hut.
  destruct x as [sx|sx| |sx mx ex]; cbn [SFunits] in Hux; try discriminate;
    destruct y as [sy|sy| |sy my ey]; cbn [SFunits] in Huy; try discriminate;
    apply some_eq in Hux, Huy; subst ux uy.
  - (* zero - zero *)
    destruct t as [st|st| |st mt et]; cbn [SFunits] in Hut; try discriminate.
    + destruct sx, sy; reflexivity.
    + exfalso. cbn [valid_binary] in Ht. apply valid_finite in Ht as (_ & _ & He).
      destruct (finite_units_sign st mt et He) as [Hne _]. apply some_eq in Hut. lia.
  - (* zero - finite *)
    cbn [SFsub]. apply (same_units_SFeqb _ _ (0 - cond_Zopp sy (Z.pos my * 2 ^ (ey - unitExponent))));
      [exact Hy|exact Ht| |exact Hut].
    cbn [SFunits]. f_equal. destruct sy; unfold cond_Zopp, negb; lia.
  - (* finite - zero *)
    cbn [SFsub]. apply (same_units_SFeqb _ _ (cond_Zopp sx (Z.pos mx * 2 ^ (ex - unitExponent)) - 0));
      [exact Hx|exact Ht| |exact Hut].
    cbn [SFunits]. f_equal. lia.
  - (* finite - finite *)
    cbn [valid_binary] in Hx, Hy.
    destruct (valid_finite _ _ Hx) as (_ & _ & Hex).
    destruct (valid_finite _ _ Hy) as (_ & _ & Hey).
    cbn [SFsub]. set (ez := Z.min ex ey).
    assert (Hez : unitExponent <= ez) by (unfold ez; lia).
    set (M := cond_Zopp sx (Z.pos (fst (shl_align mx ex ez)))
              - cond_Zopp sy (Z.pos (fst (shl_align my ey ez)))).
    assert (HM : M * 2 ^ (ez - unitExponent)
                 = cond_Zopp sx (Z.pos mx * 2 ^ (ex - unitExponent))
                   - cond_Zopp sy (Z.pos my * 2 ^ (ey - unitExponent))).
    { unfold M. rewrite !shl_align_units by (unfold ez; lia).
      replace (ex - unitExponent) with ((ex - ez) + (ez - unitExponent)) by lia.
      replace (ey - unitExponent) with ((ey - ez) + (ez - unitExponent)) by lia.
      rewrite !Z.pow_add_r by (unfold ez; lia).
      destruct sx, sy; unfold cond_Zopp; ring. }
    rewrite <- HM in Hut. clearbody M.
    assert (Hpow : 0 < 2 ^ (ez - unitExponent)) by (apply Z.pow_pos_nonneg; lia).
    destruct t as [st|st| |st mt et]; cbn [SFunits] in Hut; try discriminate;
      apply some_eq in Hut.
    + (* the difference is zero *)
      assert (M = 0) by nia. subst M. reflexivity.
    + cbn [valid_binary] in Ht.
      destruct (valid_finite _ _ Ht) as (_ & _ & Het).
      assert (Hmt : 0 < Z.pos mt * 2 ^ (et - unitExponent)).
      { apply Z.mul_pos_pos; [lia|]. apply Z.pow_pos_nonneg; lia. }
      destruct M as [|p|p]; cbn [binary_normalize].
      * exfalso. destruct st; unfold cond_Zopp in Hut; lia.
      * destruct st; unfold cond_Zopp in Hut; [exfalso; nia|].
        rewrite (binary_round_exact false p mt ez et Ht Hez (eq_sym Hut)).
        apply SFeqb_same. discriminate.
      * destruct st; unfold cond_Zopp in Hut; [|exfalso; nia].
        rewrite (binary_round_exact true p mt ez et Ht Hez ltac:(lia)).
        apply SFeqb_same. discriminate.
Qed.

Lemma exactSumb_exactSum (x y : float) : exactSumb x y = true -> exactSum x y.
Proof.
  unfold exactSumb, exactSum.
  destruct (doubleUnits x) as [ux|]; [|discriminate].
  destruct (doubleUnits y) as [uy|]; [|discriminate].
  destruct (doubleUnits (x + y)) as [usum|]; [|discriminate].
  intros Hsum. apply Z.eqb_eq in Hsum. exists ux, uy. subst usum. repeat split.
Qed.

Lemma add_sub_exact (x y : float) :
  exactSum x y -> PrimFloat.eqb (x + y - y) x = true.
Proof.
  intros (ux & uy & Hx & Hy & Hsum).
  rewrite FloatAxioms.eqb_spec, FloatAxioms.sub_spec.
  apply (SFsub_exact _ _ _ (ux + uy) uy); try apply Prim2SF_valid; try assumption.
  unfold doubleUnits in Hx. rewrite Hx. f_equal. lia.
Qed.

(** C9, as doubles have it.  When the three component sums of [a] and
    [b] are exact (finite operands, a finite sum, nothing rounded), then
    subtracting [b] from [addVectors a b] gives a vector strictly equal
    to [a], component by component. *)
Theorem addVectors_subtractVectors_exact (a b : Vector3 float) :
  exactVectorSum a b ->
  areVectorsEqual (subtractVectors (addVectors a b) b) a = true.
Proof.
  intros (Hx & Hy & Hz). unfold areVectorsEqual, subtractVectors, addVectors.
  cbn [vx vy vz num_add num_sub num_eqb Arith_double].
  rewrite (add_sub_exact _ _ Hx), (add_sub_exact _ _ Hy), (add_sub_exact _ _ Hz).
  reflexivity.
Qed.

(** Witness (C9): a block position and the step of one level up. *)
Lemma addVectors_subtractVectors_exact_witness :
  let a := mkVector3 1%float 64%float (-3)%float in
  let b := mkVector3 0%float 1%float 0%float in
  areVectorsEqual (subtractVectors (addVectors a b) b) a = true.
Proof.
  intros a b. apply addVectors_subtractVectors_exact.
  split; [|split]; apply exactSumb_exactSum; vm_compute; reflexivity.
Defined.

(** Counterexample (C9): the round trip fails on doubles.  1 and 2^53
    are finite, their sum rounds to 2^53, and taking 2^53 away again
    leaves 0, not 1. *)
Lemma addVectors_subtractVectors_rounds :
  let a := mkVector3 1%float 0%float 0%float in
  let b := mkVector3 9007199254740992%float 0%float 0%float in
  finiteVector a = true
  /\ finiteVector b = true
  /\ vx (subtractVectors (addVectors a b) b) = 0%float
  /\ areVectorsEqual (subtractVectors (addVectors a b) b) a = false.
Proof. repeat split; vm_compute; reflexivity. Qed.

(** * Vectors of block coordinates, in doubles *)

(** [SFeqb] holds only between floats of the same value. *)
Lemma SFeqb_units (x t : spec_float) (u : Z) :
  SFeqb x t = true -> SFunits t = Some u -> SFunits x = Some u.
Proof.
  intros Heq Hu. unfold SFeqb, SFcompare in Heq.
  destruct x as [sx|sx| |sx mx ex]; destruct t as [st|st| |st mt et];
    cbn [SFunits] in Hu |- *; try discriminate; try exact Hu;
    try (destruct st; discriminate); try (destruct sx; discriminate).
  destruct sx, st; try discriminate;
    destruct (ex ?= et) eqn:He; try discriminate;
    apply Z.compare_eq in He; subst et;
    destruct (Pos.compare_cont Eq mx mt) eqn:Hm; try discriminate;
    apply (Pos.compare_eq mx mt) in Hm; subst mt; exact Hu.
Qed.

(** The sum of two valid floats, when a valid float has exactly that
    value, is that float. *)
Lemma SFadd_exact (x y t : spec_float) (ux uy : Z) :
  valid_binary x = true -> valid_binary y = true -> valid_binary t = true ->
  SFunits x = Some ux -> SFunits y = Some uy -> SFunits t = Some (ux + uy) ->
  SFeqb (SFadd prec emax x y) t = true.
Proof.
  intros Hx Hy Ht Hux Huy Hut.
  destruct x as [sx|sx| |sx mx ex]; cbn [SFunits] in Hux; try discriminate;
    destruct y as [sy|sy| |sy my ey]; cbn [SFunits] in Huy; try discriminate;
    apply some_eq in Hux, Huy; subst ux uy.
  - (* zero + zero *)
    destruct t as [st|st| |st mt et]; cbn [SFunits] in Hut; try discriminate.
    + destruct sx, sy; reflexivity.
    + exfalso. cbn [valid_binary] in Ht. apply valid_finite in Ht as (_ & _ & He).
      destruct (finite_units_sign st mt et He) as [Hne _]. apply some_eq in Hut. lia.
  - (* zero + finite *)
    cbn [SFadd]. apply (same_units_SFeqb _ _ (0 + cond_Zopp sy (Z.pos my * 2 ^ (ey - unitExponent))));
      [exact Hy|exact Ht| |exact Hut].
    cbn [SFunits]. f_equal.
  - (* finite + zero *)
    cbn [SFadd]. apply (same_units_SFeqb _ _ (cond_Zopp sx (Z.pos mx * 2 ^ (ex - unitExponent)) + 0));
      [exact Hx|exact Ht| |exact Hut].
    cbn [SFunits]. f_equal. lia.
  - (* finite + finite *)
    cbn [valid_binary] in Hx, Hy.
    destruct (valid_finite _ _ Hx) as (_ & _ & Hex).
    destruct (valid_finite _ _ Hy) as (_ & _ & Hey).
    cbn [SFadd]. set (ez := Z.min ex ey).
    assert (Hez : unitExponent <= ez) by (unfold ez; lia).
    set (M := cond_Zopp sx (Z.pos (fst (shl_align mx ex ez)))
              + cond_Zopp sy (Z.pos (fst (shl_align my ey ez)))).
    assert (HM : M * 2 ^ (ez - unitExponent)
                 = cond_Zopp sx (Z.pos mx * 2 ^ (ex - unitExponent))
                   + cond_Zopp sy (Z.pos my * 2 ^ (ey - unitExponent))).
    { unfold M. rewrite !shl_align_units by (unfold ez; lia).
      replace (ex - unitExponent) with ((ex - ez) + (ez - unitExponent)) by lia.
      replace (ey - unitExponent) with ((ey - ez) + (ez - unitExponent)) by lia.
      rewrite !Z.pow_add_r by (unfold ez; lia).
      destruct sx, sy; unfold cond_Zopp; ring. }
    rewrite <- HM in Hut. clearbody M.
    assert (Hpow : 0 < 2 ^ (ez - unitExponent)) by (apply Z.pow_pos_nonneg; lia).
    destruct t as [st|st| |st mt et]; cbn [SFunits] in Hut; try discriminate;
      apply some_eq in Hut.
    + (* the sum is zero *)
      assert (M = 0) by nia. subst M. reflexivity.
    + cbn [valid_binary] in Ht.
      destruct (valid_finite _ _ Ht) as (_ & _ & Het).
      assert (Hmt : 0 < Z.pos mt * 2 ^ (et - unitExponent)).
      { apply Z.mul_pos_pos; [lia|]. apply Z.pow_pos_nonneg; lia. }
      destruct M as [|p|p]; cbn [binary_normalize].
      * exfalso. destruct st; unfold cond_Zopp in Hut; lia.
      * destruct st; unfold cond_Zopp in Hut; [exfalso; nia|].
        rewrite (binary_round_exact false p mt ez et Ht Hez (eq_sym Hut)).
        apply SFeqb_same. discriminate.
      * destruct st; unfold cond_Zopp in Hut; [|exfalso; nia].
        rewrite (binary_round_exact true p mt ez et Ht Hez ltac:(lia)).
        apply SFeqb_same. discriminate.
Qed.

(** A whole number of fewer than 54 binary digits is a double. *)
Lemma binary_normalize_whole (n : Z) :
  Z.abs n < 2 ^ 53 ->
  valid_binary (binary_normalize prec emax n 0 false) = true
  /\ SFunits (binary_normalize prec emax n 0 false) = Some (n * 2 ^ (- unitExponent)).
Proof.
  intros Hn.
  assert (Hpos : forall (s : bool) (p : positive), Z.pos p < 2 ^ 53 ->
            valid_binary (binary_round prec emax s p 0) = true
            /\ SFunits (binary_round prec emax s p 0)
               = Some (cond_Zopp s (Z.pos p * 2 ^ (- unitExponent)))).
  { intros s p Hp.
    set (d := Z.log2 (Z.pos p) + 1).
    assert (Hd : 1 <= d <= 53).
    { unfold d. pose proof (Z.log2_nonneg (Z.pos p)).
      assert (Z.log2 (Z.pos p) < 53) by (apply Z.log2_lt_pow2; lia). lia. }
    set (m := Z.to_pos (Z.pos p * 2 ^ (53 - d))).
    assert (Hm : Z.pos m = Z.pos p * 2 ^ (53 - d)).
    { unfold m. rewrite Z2Pos.id; [reflexivity|].
      apply Z.mul_pos_pos; [lia|]. apply Z.pow_pos_nonneg; lia. }
    assert (Hbounded : bounded prec emax m (d - 53) = true).
    { unfold bounded, canonical_mantissa. apply andb_true_intro. split.
      - apply Z.eqb_eq. rewrite digits2_pos_log2, Hm, Z.log2_mul_pow2 by lia.
        unfold fexp, SpecFloat.emin, prec, emax, d in *. lia.
      - apply Z.leb_le. unfold prec, emax. lia. }
    assert (Hvalue : Z.pos p * 2 ^ (0 - unitExponent)
                     = Z.pos m * 2 ^ (d - 53 - unitExponent)).
    { rewrite Hm, <- Z.mul_assoc, <- Z.pow_add_r by (unfold unitExponent, SpecFloat.emin, prec, emax; lia).
      f_equal. f_equal. lia. }
    rewrite (binary_round_exact s p m 0 (d - 53) Hbounded
               ltac:(unfold unitExponent, SpecFloat.emin, prec, emax; lia) Hvalue).
    split; [exact Hbounded|]. cbn [SFunits]. rewrite <- Hvalue. reflexivity. }
  destruct n as [|p|p]; cbn [binary_normalize].
  - split; reflexivity.
  - apply (Hpos false p). lia.
  - destruct (Hpos true p ltac:(lia)) as [Hvalid Hunits]. split; [exact Hvalid|].
    rewrite Hunits. unfold cond_Zopp. f_equal; lia.
Qed.

Lemma Z2double_units (n : Z) :
  Z.abs n < 2 ^ 53 -> doubleUnits (Z2double n) = Some (n * 2 ^ (- unitExponent)).
Proof.
  intros Hn. destruct (binary_normalize_whole n Hn) as [Hvalid Hunits].
  unfold doubleUnits, Z2double. rewrite FloatAxioms.Prim2SF_SF2Prim by exact Hvalid.
  exact Hunits.
Qed.

Lemma doubleUnits_add (x y : float) (ux uy : Z) (t : float) :
  doubleUnits x = Some ux -> doubleUnits y = Some uy -> doubleUnits t = Some (ux + uy) ->
  doubleUnits (x + y) = Some (ux + uy).
Proof.
  intros Hx Hy Ht. unfold doubleUnits. rewrite FloatAxioms.add_spec.
  apply (SFeqb_units _ (Prim2SF t)); [|exact Ht].
  apply (SFadd_exact _ _ _ ux uy); try apply Prim2SF_valid; assumption.
Qed.

Lemma doubleUnits_sub (x y : float) (ux uy : Z) (t : float) :
  doubleUnits x = Some ux -> doubleUnits y = Some uy -> doubleUnits t = Some (ux - uy) ->
  doubleUnits (x - y) = Some (ux - uy).
Proof.
  intros Hx Hy Ht. unfold doubleUnits. rewrite FloatAxioms.sub_spec.
  apply (SFeqb_units _ (Prim2SF t)); [|exact Ht].
  apply (SFsub_exact _ _ _ ux uy); try apply Prim2SF_valid; assumption.
Qed.

(** Strict equality of two doubles of known values. *)
Lemma doubleUnits_eqb (x y : float) (ux uy : Z) :
  doubleUnits x = Some ux -> doubleUnits y = Some uy ->
  PrimFloat.eqb x y = (ux =? uy).
Proof.
  intros Hx Hy. rewrite FloatAxioms.eqb_spec.
  destruct (Z.eqb_spec ux uy) as [->|Hne].
  - apply (same_units_SFeqb _ _ uy); try apply Prim2SF_valid; assumption.
  - destruct (SFeqb (Prim2SF x) (Prim2SF y)) eqn:Heq; [|reflexivity].
    exfalso. apply Hne. pose proof (SFeqb_units _ _ _ Heq Hy) as Hx'.
    unfold doubleUnits in Hx. congruence.
Qed.

Lemma whole_doubles (a b : Z) :
  blockCoordinate a -> blockCoordinate b ->
  PrimFloat.eqb (Z2double a) (Z2double b) = (a =? b)
  /\ PrimFloat.eqb (Z2double a + Z2double b) (Z2double (a + b)) = true
  /\ PrimFloat.eqb (Z2double a - Z2double b) (Z2double (a - b)) = true
  /\ PrimFloat.eqb (Z2double a + Z2double b - Z2double b) (Z2double a) = true
  /\ PrimFloat.eqb (Z2double a - Z2double b + Z2double b) (Z2double a) = true.
Proof.
  unfold blockCoordinate. intros Ha Hb.
  assert (H52 : 2 ^ 53 = 2 * 2 ^ 52) by reflexivity.
  set (U := 2 ^ (- unitExponent)).
  assert (HU : 0 < U).
  { apply Z.pow_pos_nonneg; [lia|]. unfold unitExponent, SpecFloat.emin, prec, emax. lia. }
  pose proof (Z2double_units a ltac:(lia)) as Hua.
  pose proof (Z2double_units b ltac:(lia)) as Hub.
  pose proof (Z2double_units (a + b) ltac:(lia)) as Hsum.
  pose proof (Z2double_units (a - b) ltac:(lia)) as Hdiff.
  fold U in Hua, Hub, Hsum, Hdiff.
  replace ((a + b) * U) with (a * U + b * U) in Hsum by ring.
  replace ((a - b) * U) with (a * U - b * U) in Hdiff by ring.
  pose proof (doubleUnits_add _ _ _ _ _ Hua Hub Hsum) as Hadd.
  pose proof (doubleUnits_sub _ _ _ _ _ Hua Hub Hdiff) as Hsub.
  assert (Hback : doubleUnits (Z2double a) = Some (a * U + b * U - b * U)).
  { rewrite Hua. f_equal. ring. }
  assert (Hforth : doubleUnits (Z2double a) = Some (a * U - b * U + b * U)).
  { rewrite Hua. f_equal. ring. }
  pose proof (doubleUnits_sub _ _ _ _ _ Hadd Hub Hback) as Haddsub.
  pose proof (doubleUnits_add _ _ _ _ _ Hsub Hub Hforth) as Hsubadd.
  split; [|split; [|split; [|split]]].
  - rewrite (doubleUnits_eqb _ _ _ _ Hua Hub).
    destruct (Z.eqb_spec a b) as [->|Hne]; [apply Z.eqb_refl|].
    apply Z.eqb_neq. intros Heq. apply Hne. apply (Z.mul_cancel_r a b U); lia.
  - rewrite (doubleUnits_eqb _ _ _ _ Hadd Hsum). apply Z.eqb_refl.
  - rewrite (doubleUnits_eqb _ _ _ _ Hsub Hdiff). apply Z.eqb_refl.
  - rewrite (doubleUnits_eqb _ _ _ _ Haddsub Hback). apply Z.eqb_refl.
  - rewrite (doubleUnits_eqb _ _ _ _ Hsubadd Hforth). apply Z.eqb_refl.
Qed.

(** X27. The vector helpers on block coordinates, as doubles have them.
    For two vectors of whole numbers below 2^52 in size, held as
    doubles: [areVectorsEqual] is true exactly when the vectors are
    equal; [addVectors] and [subtractVectors] give the doubles of the
    exact sum and of the exact difference; and each undoes the other,
    with nothing rounded. *)
Theorem vectorUtils_on_block_coordinates (a b : Vector3 Z) :
  blockPosition a -> blockPosition b ->
  let A := doubleVector a in
  let B := doubleVector b in
  (areVectorsEqual A B = true <-> a = b)
  /\ areVectorsEqual (addVectors A B) (doubleVector (addVectors a b)) = true
  /\ areVectorsEqual (subtractVectors A B) (doubleVector (subtractVectors a b)) = true
  /\ areVectorsEqual (subtractVectors (addVectors A B) B) A = true
  /\ areVectorsEqual (addVectors (subtractVectors A B) B) A = true.
Proof.
  destruct a as [ax ay az], b as [bx by' bz].
  intros (Hax & Hay & Haz) (Hbx & Hby & Hbz). cbn [vx vy vz] in *.
  destruct (whole_doubles ax bx Hax Hbx) as (Hx1 & Hx2 & Hx3 & Hx4 & Hx5).
  destruct (whole_doubles ay by' Hay Hby) as (Hy1 & Hy2 & Hy3 & Hy4 & Hy5).
  destruct (whole_doubles az bz Haz Hbz) as (Hz1 & Hz2 & Hz3 & Hz4 & Hz5).
  unfold areVectorsEqual, addVectors, subtractVectors, doubleVector.
  cbn [vx vy vz num_add num_sub num_eqb Arith_double Arith_Z].
  rewrite Hx1, Hy1, Hz1, Hx2, Hy2, Hz2, Hx3, Hy3, Hz3, Hx4, Hy4, Hz4, Hx5, Hy5, Hz5.
  split; [|repeat split].
  rewrite !andb_true_iff, !Z.eqb_eq. split.
  - intros [[-> ->] ->]. reflexivity.
  - intros Heq. injection Heq as -> -> ->. repeat split.
Qed.

(** Witness (X27): a block position and the step of one level up. *)
Lemma vectorUtils_on_block_coordinates_witness :
  let a := mkVector3 1 64 (-3) in
  let b := mkVector3 0 1 0 in
  areVectorsEqual (addVectors (doubleVector a) (doubleVector b))
                  (doubleVector (mkVector3 1 65 (-3))) = true
  /\ areVectorsEqual (subtractVectors (addVectors (doubleVector a) (doubleVector b))
                                      (doubleVector b))
                     (doubleVector a) = true.
Proof.
  intros a b.
  destruct (vectorUtils_on_block_coordinates a b) as (_ & Hadd & _ & Hback & _).
  - repeat split; vm_compute; reflexivity.
  - repeat split; vm_compute; reflexivity.
  - split; [exact Hadd|exact Hback].
Defined.

(** * The further properties at work *)

(** Witness (X3): the bare scythe written to the second slot of the
    player of the field and read back. *)
Lemma setEntitySlotItem_then_getInventoryItem_witness :
  exists (w' : World) (c' : Container),
    setEntitySlotItem 1 (Some bareScythe) fieldWorld = Returned tt w'
    /\ inventory w' = Some c' /\ length c' = 3%nat
    /\ getInventoryItem AnEntity 1 w' = Returned (Some bareScythe) w'.
Proof.
  destruct (setEntitySlotItem_then_getInventoryItem 1 (Some bareScythe) fieldWorld
              [Some ironScythe; None; None] eq_refl ltac:(simpl; lia))
    as (w' & c' & Hrun & Hinv & Hlen & Hread & _).
  exists w', c'. repeat split; assumption.
Defined.

(** Witness (X5): the player of the field swaps the iron scythe for the
    bare one, or empties the hand. *)
Lemma setHeldItem_then_getHeldItem_witness :
  (exists w', setHeldItem (Some bareScythe) fieldWorld = Returned tt w'
              /\ getHeldItem w' = Returned (Some bareScythe) w')
  /\ (exists w', clearHeldItem fieldWorld = Returned tt w'
                 /\ getHeldItem w' = Returned None w').
Proof.
  destruct (setHeldItem_then_getHeldItem bareScythe fieldWorld) as (Hset & Hclear & _).
  - exists [Some ironScythe; None; None]. split; [reflexivity | simpl; lia].
  - split; assumption.
Defined.

(** Witness (X9): the reach of the iron scythe, behind its scythe tag. *)
Lemma getItemPropertyTag_reads_first_witness :
  getItemPropertyTag ironScythe "reach" = Some "3"
  /\ getItemPropertyTag ironScythe "rea" = Some "3"
  /\ getItemPropertyTag bareScythe "reach" = None.
Proof.
  split; [|split].
  - apply (getItemPropertyTag_reads_first ironScythe "reach" "" "3" ["scythe"] []);
      [repeat constructor | reflexivity | reflexivity | reflexivity].
  - apply (getItemPropertyTag_reads_first ironScythe "rea" "ch" "3" ["scythe"] []);
      [repeat constructor | reflexivity | reflexivity | reflexivity].
  - apply (getItemPropertyTag_reads_first bareScythe "reach" "" "" ["scythe"] []);
      [repeat constructor | reflexivity | reflexivity].
Defined.

(** Witness (X10): a fortune roll from 0 to 3 with a draw of one half. *)
Lemma getRandomInt_range_witness :
  exists j : Z,
    getRandomInt 0 3 fieldWorld = Returned (inject_Z j + 0)%Q (withDrawn S fieldWorld)
    /\ 0 <= 0 + j <= 3.
Proof.
  destruct (getRandomInt_range 0 3 fieldWorld evenRandoms_inRange) as [_ Hruns].
  destruct Hruns as (j & Hrun & _ & _ & Hwhole); [unfold Qle; simpl; lia|].
  exists j. split; [exact Hrun|].
  apply (Hwhole 0 3); reflexivity.
Defined.

(** Witness (X11): both bounds the double 1.15, on the field.  The
    result is the double 1.2, which lies above the upper bound. *)
Lemma getRandomFloat_equal_bounds_witness :
  exists value : float,
    getRandomFloat (toDouble (115 # 100)) (toDouble (115 # 100)) fieldWorld
    = Returned value (withDrawn S fieldWorld)
    /\ doubleValue value = doubleValue (toDouble (12 # 10))
    /\ (doubleValue (toDouble (115 # 100)) < doubleValue value)%Q.
Proof.
  destruct (getRandomFloat_equal_bounds (toDouble (115 # 100)) (toDouble (115 # 100)) fieldWorld)
    as [_ Hruns].
  destruct (Hruns ltac:(vm_compute; reflexivity)) as (value & Hrun & Hvalue).
  exists value. split; [exact Hrun|].
  rewrite (Hvalue eq_refl ltac:(vm_compute; reflexivity) ltac:(vm_compute; reflexivity)).
  split; vm_compute; reflexivity.
Defined.

(** Witness (X12): the second sugarcane block of the field, harvested
    with the iron scythe: one sugar cane, no bonus, laid in the first
    empty slot, and the fake block, the player standing next to it. *)
Lemma harvestSinglePlant_yield_witness :
  exists w' : World,
    harvestSinglePlant plainMaxAmount plainAddItem (mkVector3 0 65 0)
      "minecraft:sugar_cane" "djc:fake_sugar_cane" 1 fieldWorld = Returned tt w'
    /\ inventory w'
       = Some [Some ironScythe;
               Some (newItemStack plainMaxAmount "minecraft:sugar_cane" 1); None]
    /\ blocks w' !! (0, 65, 0) = Some (mkBlockData "djc:fake_sugar_cane" []).
Proof.
  destruct (harvestSinglePlant_yield plainMaxAmount plainAddItem (mkVector3 0 65 0)
              "minecraft:sugar_cane" "djc:fake_sugar_cane" 1 ironScythe fieldWorld
              [Some ironScythe; None; None])
    as (bonus & given & w' & Hrun & Hbonus & _ & Hgiven & Hinv & _ & _ & Hblocks & _).
  - intros id. unfold plainMaxAmount. lia.
  - exact evenRandoms_inRange.
  - reflexivity.
  - simpl. lia.
  - repeat constructor. simpl. unfold plainMaxAmount. lia.
  - reflexivity.
  - change (0 <= 0). lia.
  - lia.
  - assert (Hzero : fortuneOf ironScythe = 0) by reflexivity.
    assert (Hnone : bonus = 0) by lia. subst bonus.
    exists w'. split; [exact Hrun|]. split.
    + rewrite Hinv, Hgiven. reflexivity.
    + rewrite Hblocks. apply lookup_insert_eq.
Defined.

(** Witness (X13): the same block with the empty slot selected. *)
Lemma harvestSinglePlant_empty_hand_witness :
  exists e : string,
    harvestSinglePlant plainMaxAmount plainAddItem (mkVector3 0 65 0)
      "minecraft:sugar_cane" "djc:fake_sugar_cane" 1 emptyHandWorld
    = Thrown e emptyHandWorld.
Proof.
  destruct (harvestSinglePlant_empty_hand plainMaxAmount plainAddItem (mkVector3 0 65 0)
              "minecraft:sugar_cane" "djc:fake_sugar_cane" 1 emptyHandWorld)
    as [Hthrows _].
  - exists [Some ironScythe; None; None]. split; [reflexivity | simpl; lia].
  - reflexivity.
  - exact Hthrows.
Defined.

(** Witness (X14): the column of sugarcane of the field, from its bottom
    block. *)
Lemma getStackedPlant_stops_at_first_gap_witness :
  exists n : nat,
    getStackedPlant caneBottom fieldWorld
    = Returned (map (fun k => raised caneBottom (Z.of_nat k)) (seq 1 n)) fieldWorld
    /\ Z.of_nat n <= 255.
Proof.
  destruct (proj1 (getStackedPlant_stops_at_first_gap fieldWorld caneBottom)
              (mkBlockData "minecraft:reeds" []) eq_refl)
    as (n & Hrun & _ & _ & Hheight & _).
  exists n. split; [exact Hrun|].
  change (Z.max 0 (maxY - vy caneBottom)) with 255 in Hheight. exact Hheight.
Defined.

(** Witness (X15): the sugarcane of the field struck at its second block;
    the bottom block of the column is sugarcane as before. *)
Lemma harvestStacked_spares_bottom_witness :
  blocks (finalWorld (harvestSugarcane plainMaxAmount plainAddItem plainRay
                        (mkVector3 0 65 0) fieldWorld)) !! cellKey caneBottom
  = Some (mkBlockData "minecraft:reeds" []).
Proof.
  apply (harvestStacked_spares_bottom plainMaxAmount plainAddItem plainRay
           (mkVector3 0 65 0) fieldWorld caneBottom).
  intros d support k Hd Hray Hk Heq.
  assert (Hdata : d = mkBlockData "minecraft:reeds" []).
  { assert (Hfield : blocks fieldWorld !! cellKey (mkVector3 0 65 0)
                     = Some (mkBlockData "minecraft:reeds" [])) by reflexivity.
    congruence. }
  subst d.
  assert (Hsupport : plainRay (blocks fieldWorld) (block_center (mkVector3 0 65 0))
                       (mkVector3 0 (-1) 0) ["minecraft:reeds"]
                     = Some (mkVector3 0 63 0)) by (vm_compute; reflexivity).
  cbn [typeId] in Hray. rewrite Hsupport in Hray. injection Hray as <-.
  apply (f_equal vy) in Heq. unfold raised, addVectors in Heq. cbn in Heq. lia.
Defined.

(** Witness (X16): under the tall grass of the field a destroy pass of
    range 0 destroys the grass above the player, and only that. *)
Lemma destroyBlocksArc_only_listed_witness :
  exists (w' : World) (pitch : Q),
    destroyBlocksArc plainDestructable 180 0 grassWorld = Returned 1 w'
    /\ calls w' = [PlaySound "scythe.whoosh" (Some pitch) None;
                   SetblockAirDestroy (mkVector3 0 64 1)]
    /\ inventory w' = inventory grassWorld.
Proof.
  assert (Hpass : exists w1, destroyBlocksArc plainDestructable 180 0 grassWorld
                             = Returned 1 w1
                             /\ calls w1 !! 1%nat = Some (SetblockAirDestroy (mkVector3 0 64 1))).
  { unfold destroyBlocksArc.
    rewrite (bind_Returned _ _ _ _ _ (getBlocksInSweep_range_0 180 grassWorld)).
    eexists. split; vm_compute; reflexivity. }
  destruct Hpass as (w1 & Hpass & Hcall).
  destruct (destroyBlocksArc_only_listed plainDestructable 180 0 grassWorld)
    as (Hinv & _ & _ & _ & Hcount).
  destruct (Hcount 1 w1 Hpass) as (pitch & destroyed & Hcalls & Hlength).
  rewrite Hpass in Hinv. cbn [finalWorld] in Hinv.
  exists w1, pitch. split; [exact Hpass|]. split; [|exact Hinv].
  destruct destroyed as [|b [|b' rest]]; cbn in Hlength; try lia.
  rewrite Hcalls in Hcall. cbn in Hcall. injection Hcall as ->.
  rewrite Hcalls. reflexivity.
Defined.

(** Witness (X17): the young wheat of the field, for a host that lists
    wheat among the scythe-destructible types. *)
Lemma multiHarvest_block_skips_unripe_crop_witness :
  multiHarvest_block ["minecraft:wheat"] plainMaxAmount plainAddItem plainRay
    (Some youngWheatCell) 0 fieldWorld = Returned 0 fieldWorld
  /\ exists w',
       destroyArc_block ["minecraft:wheat"] (Some youngWheatCell) 0 fieldWorld
       = Returned 1 w'
       /\ blocks w' !! cellKey youngWheatCell = Some (mkBlockData "minecraft:air" []).
Proof.
  destruct (multiHarvest_block_skips_unripe_crop ["minecraft:wheat"] plainMaxAmount
              plainAddItem plainRay youngWheatCell
              (mkBlockData "minecraft:wheat" [("growth", SNumber 3)]) 0 fieldWorld
              eq_refl eq_refl ltac:(discriminate)) as [Hskip Hdestroy].
  split; [exact Hskip|].
  destruct (Hdestroy eq_refl) as (w' & Hrun & Hair & _).
  exists w'. split; [exact Hrun | exact Hair].
Defined.

(** Witness (X18): the wooden scythe used on the ripe melon stem. *)
Lemma WoodenScythe_onUseOn_any_ripe_block_witness :
  calls (finalWorld (WoodenScythe_onUseOn plainMaxAmount plainAddItem stemCell gardenWorld))
  = [SetType stemCell "djc:fake_melon_stem"]
  /\ inventory (finalWorld (WoodenScythe_onUseOn plainMaxAmount plainAddItem stemCell
                              gardenWorld))
     = inventory gardenWorld.
Proof.
  destruct (WoodenScythe_onUseOn_any_ripe_block plainDestructable plainMaxAmount
              plainAddItem plainRay stemCell
              (mkBlockData "minecraft:melon_stem" [("growth", SNumber 7)]) gardenWorld)
    as (Hcalls & Hinv & _).
  - exists [Some ironScythe; None; None]. split; [reflexivity | simpl; lia].
  - reflexivity.
  - reflexivity.
  - reflexivity.
  - split; [exact Hcalls | exact Hinv].
Defined.

(** The narrow sweep of range 1 of the player of the field, who looks
    along +Z. *)
Lemma fieldWorld_sweep_ahead :
  getBlocksInSweep 0 1 fieldWorld
  = Returned [Some (mkVector3 0 64 1); Some (mkVector3 0 65 1); Some (mkVector3 0 65 0)]
             fieldWorld.
Proof.
  destruct step_along_Z as [Hdx Hdz].
  unfold getBlocksInSweep, bind at 1 2, gets.
  change (sweepDistances 1) with [1 + Z.of_nat 0].
  change (sweepAngles 0) with [(- 0 / 2 + inject_Z (Z.of_nat 0))%Q].
  cbn [foldM]. unfold sweepSample. rewrite sweepOffset_ahead.
  cbn [viewDirection fieldWorld]. rewrite Hdx, Hdz.
  reflexivity.
Qed.

(** Witness (X19): that sweep lists three cells, no cell twice. *)
Lemma getBlocksInSweep_distinct_cells_witness :
  NoDup [mkVector3 0 64 1; mkVector3 0 65 1; mkVector3 0 65 0]
  /\ exists body,
       [Some (mkVector3 0 64 1); Some (mkVector3 0 65 1); Some (mkVector3 0 65 0)]
       = body ++ [Some (mkVector3 0 65 0)]
       /\ Forall (inSweep (mkVector3 0 64 0) 1) (definedCells body).
Proof.
  destruct (getBlocksInSweep_distinct_cells 0 1 fieldWorld fieldWorld _
              ltac:(right; unfold Qeq; simpl; lia) fieldWorld_sweep_ahead)
    as (_ & Hnodup & body & Hlist & Hall).
  split; [exact Hnodup|]. exists body. split; [exact Hlist | exact Hall].
Defined.

(** Witness (X20): the sweep for entities on the field, with a cow ahead
    that the host reports twice and the player reported everywhere. *)
Lemma getEntitiesInSweep_distinct_witness :
  exists mobs : list Entity,
    getEntitiesInSweep fieldEntities fieldPlayer 100 3 fieldWorld = Returned mobs fieldWorld
    /\ NoDup mobs
    /\ Forall (fun mob => entity_id mob <> entity_id fieldPlayer) mobs.
Proof.
  destruct (getEntitiesInSweep_distinct fieldEntities fieldPlayer 100 3 fieldWorld)
    as (mobs & Hrun & _ & Hmobs).
  destruct Hmobs as [Hnodup Hall]; [right; unfold Qeq; simpl; lia|].
  exists mobs. split; [exact Hrun|]. split; [exact Hnodup|].
  eapply Forall_impl; [exact Hall|]. intros mob [Hother _]. exact Hother.
Defined.

(** Witness (X21): the tick of a fake wheat block. *)
Lemma TickBreakCrop_onTick_replants_witness :
  exists w',
    TickBreakCrop_onTick wheatCell
      (withBlocks (fun m => <[cellKey wheatCell := mkBlockData "djc:fake_wheat" []]> m)
         fieldWorld) = Returned tt w'
    /\ blocks w' !! cellKey wheatCell
       = Some (mkBlockData "minecraft:wheat" [("growth", SNumber 0)]).
Proof.
  destruct (TickBreakCrop_onTick_replants wheatCell (mkBlockData "djc:fake_wheat" []) "wheat"
              (withBlocks (fun m => <[cellKey wheatCell := mkBlockData "djc:fake_wheat" []]> m)
                 fieldWorld))
    as (w' & Hrun & Hblock & _).
  - apply lookup_insert_eq.
  - reflexivity.
  - reflexivity.
  - exists w'. split; [exact Hrun | exact Hblock].
Defined.

(** Witness (X22): the ripe wheat of the field, harvested and ticked. *)
Lemma harvestCrop_then_tick_witness :
  exists w1 w2,
    harvestCrop plainMaxAmount plainAddItem wheatCell fieldWorld = Returned tt w1
    /\ TickBreakCrop_onTick wheatCell w1 = Returned tt w2
    /\ blocks w2 !! cellKey wheatCell
       = Some (mkBlockData "minecraft:wheat" [("growth", SNumber 0)]).
Proof.
  assert (Hharvest : exists w1,
            harvestCrop plainMaxAmount plainAddItem wheatCell fieldWorld = Returned tt w1).
  { eexists. vm_compute. reflexivity. }
  destruct Hharvest as (w1 & Hharvest).
  destruct (harvestCrop_then_tick plainMaxAmount plainAddItem wheatCell
              (mkBlockData "minecraft:wheat" [("growth", SNumber 7)]) fieldWorld w1
              eq_refl eq_refl eq_refl Hharvest)
    as (w2 & Htick & Hblocks & _).
  exists w1, w2. split; [exact Hharvest|]. split; [exact Htick|].
  rewrite Hblocks. apply lookup_insert_eq.
Defined.

(** Witness (X23): a zombie hits a block of the field; the player of the
    field hits one with the empty slot selected. *)
Lemma onEntityHitBlock_guards_witness :
  onEntityHitBlock plainDestructable plainParseInt "minecraft:zombie" fieldWorld
  = Returned tt fieldWorld
  /\ onEntityHitBlock plainDestructable plainParseInt "minecraft:player" emptyHandWorld
     = Returned tt emptyHandWorld.
Proof.
  split.
  - destruct (onEntityHitBlock_guards plainDestructable plainParseInt "minecraft:zombie"
                fieldWorld) as [Hother _].
    apply Hother. intros Heq. discriminate Heq.
  - destruct (onEntityHitBlock_guards plainDestructable plainParseInt "minecraft:player"
                emptyHandWorld) as [_ Hplayer].
    destruct Hplayer as [Hempty _].
    + exists [Some ironScythe; None; None]. split; [reflexivity | simpl; lia].
    + apply Hempty. reflexivity.
Defined.

(** Witness (X24): the entity of the field that has no container. *)
Lemma getHeldSlot_without_slot_witness :
  (exists e, getHeldItem bareWorld = Thrown e bareWorld)
  /\ (exists e, harvestCrop plainMaxAmount plainAddItem wheatCell bareWorld
                = Thrown e bareWorld).
Proof.
  destruct (getHeldSlot_without_slot plainDestructable plainMaxAmount plainAddItem
              plainParseInt bareWorld (or_introl eq_refl))
    as (_ & Hitem & _ & _ & Hcrop & _).
  split; [exact Hitem | apply Hcrop].
Defined.

(** Witness (X25): the iron scythe after a use that processed one block. *)
Lemma shingCues_pitches_witness :
  exists (cues : list HostCall) (w' : World),
    shingCues ironScythe 1 fieldWorld = Returned tt w'
    /\ calls w' = cues /\ length cues = 1%nat /\ Forall isShingAtPitch cues.
Proof.
  destruct (shingCues_pitches ironScythe 1 fieldWorld evenRandoms_inRange)
    as (cues & w' & Hrun & Hcalls & Hpitch & _ & Hcount).
  destruct (Hcount eq_refl eq_refl) as (_ & Hone & _).
  exists cues, w'. split; [exact Hrun|]. split; [exact Hcalls|].
  split; [apply Hone; lia | exact Hpitch].
Defined.

(** Witness (X28): the drops of wheat and of carrots. *)
Lemma crop_drops_hold_one_seed_witness :
  List.filter isItemSeed (dropIdsOfType "minecraft:wheat") = ["minecraft:wheat_seeds"]
  /\ List.filter isItemSeed (dropIdsOfType "minecraft:carrots") = dropIdsOfType "minecraft:carrots".
Proof.
  split.
  - destruct (proj1 (crop_drops_hold_one_seed "minecraft:wheat") eq_refl) as (_ & Hone & _).
    destruct (List.filter isItemSeed (dropIdsOfType "minecraft:wheat")) as [|seed [|more rest]] eqn:Hfilter;
      try discriminate Hone.
    vm_compute in Hfilter. injection Hfilter as <-. reflexivity.
  - apply (crop_drops_hold_one_seed "minecraft:carrots"); [reflexivity|]. left. reflexivity.
Defined.

(** Witness (X29): the harvest pass of range 0 in the meadow, where the
    sweep lists the sugarcane above the player and the pass counts it. *)
Lemma pass_count_bounds_witness :
  exists (w1 : World) (swept : list (option Block)),
    multiHarvestArc plainDestructable plainMaxAmount plainAddItem plainRay 180 0 meadowWorld
    = Returned 1 w1
    /\ getBlocksInSweep 180 0 meadowWorld = Returned swept meadowWorld
    /\ 0 <= 1 <= Z.of_nat (length swept).
Proof.
  assert (Hpass : exists w1,
            multiHarvestArc plainDestructable plainMaxAmount plainAddItem plainRay 180 0
              meadowWorld = Returned 1 w1).
  { unfold multiHarvestArc.
    rewrite (bind_Returned _ _ _ _ _ (getBlocksInSweep_range_0 180 meadowWorld)).
    eexists. vm_compute. reflexivity. }
  destruct Hpass as (w1 & Hpass).
  destruct (pass_count_bounds plainDestructable plainMaxAmount plainAddItem plainRay
              180 0 meadowWorld w1 1 (or_introl Hpass))
    as (swept & pitch & Hsweep & Hbounds & _).
  exists w1, swept. split; [exact Hpass|]. split; [exact Hsweep | exact Hbounds].
Defined.

(** Witness (X30): the bottom sugarcane of the field. *)
Lemma block_kinds_exclusive_witness :
  isBlockCrop caneBottom fieldWorld = Returned false fieldWorld
  /\ isBlockSugarcane caneBottom fieldWorld = Returned true fieldWorld
  /\ isBlockBamboo caneBottom fieldWorld = Returned false fieldWorld.
Proof.
  destruct (block_kinds_exclusive caneBottom (mkBlockData "minecraft:reeds" []) fieldWorld
              eq_refl)
    as (crop & sugarcane & bamboo & Hcrop & Hcane & Hbamboo & Hone & Htwo & _ & Hreeds).
  assert (Hyes : sugarcane = true) by (apply Hreeds; reflexivity).
  subst sugarcane. rewrite (Htwo eq_refl) in Hbamboo.
  destruct crop; [destruct (Hone eq_refl) as [Hno _]; discriminate Hno|].
  split; [exact Hcrop|]. split; [exact Hcane | exact Hbamboo].
Defined.

(** Witness (X4): a slot written for the entity without a container, and
    the fourth slot of the three of the player of the field. *)
Lemma setEntitySlotItem_without_slot_witness :
  setEntitySlotItem 0 (Some bareScythe) bareWorld = Returned tt bareWorld
  /\ exists e, setEntitySlotItem 3 (Some bareScythe) fieldWorld = Thrown e fieldWorld.
Proof.
  split.
  - apply (setEntitySlotItem_without_slot 0 (Some bareScythe) bareWorld). reflexivity.
  - destruct (setEntitySlotItem_without_slot 3 (Some bareScythe) fieldWorld) as [_ Hout].
    apply (Hout [Some ironScythe; None; None]); [reflexivity|].
    right. simpl. lia.
Defined.

(** Witness (X7): the inventory of the player of the field, asked for no
    tag at all, and for the two tags of the iron scythe. *)
Lemma containerHasItemTags_empty_list_witness :
  containerHasAnyItemTag AnEntity [] fieldWorld = Returned false fieldWorld
  /\ containerHasAllItemTags AnEntity [] fieldWorld = Returned true fieldWorld
  /\ containerHasAnyItemTag AnEntity ["scythe"; "reach:3"] fieldWorld
     = Returned true fieldWorld.
Proof.
  destruct (containerHasItemTags_empty_list AnEntity [] fieldWorld)
    as (any & all & Hany & Hall & Hempty & _).
  destruct (Hempty eq_refl) as [Hfalse Hsome].
  assert (Htrue : all = true).
  { apply Hsome. exists [Some ironScythe; None; None], 0%nat, ironScythe.
    split; reflexivity. }
  subst any all.
  destruct (containerHasItemTags_empty_list AnEntity ["scythe"; "reach:3"] fieldWorld)
    as (any & all & Hany2 & Hall2 & _ & Himplies).
  assert (Hall3 : containerHasAllItemTags AnEntity ["scythe"; "reach:3"] fieldWorld
                  = Returned true fieldWorld) by reflexivity.
  rewrite Hall2 in Hall3. injection Hall3 as ->.
  rewrite (Himplies ltac:(discriminate) eq_refl) in Hany2.
  split; [exact Hany|]. split; [exact Hall | exact Hany2].
Defined.
